(** * AI Data Analyst: a shallow embedding of the front-end handlers and of
      the analytics pipeline, with the properties stated about them.

    The file has two parts.  Part I gives the definitions: the JavaScript
    values and string operations the pages rely on, the page handlers
    found in the sources ([DataViewPage], [ResetPasswordPage],
    [ActiveDatasetsPage], [AnalyticsPage], [LoginPage]) and the
    multi-stage analytics pipeline.  Part II states and proves the
    properties.

    Text appears in two forms.  Where a page measures, trims, lowers or
    searches a string, or stores what a user typed or a server sent next
    to such a string, the string is a sequence of UTF-16 code units
    ([Js.jsstring]), as the language defines it.  Where text is only
    stored, compared with the empty text, put in the local storage or
    shown ([LoginPage], [ForgotPasswordPage], [ActiveDatasetsPage], the
    markup of a view, the paths of requests, the pipeline), it is a plain
    [string]. *)

From Stdlib Require Import ZArith NArith QArith Bool List String Ascii DecimalString DecimalZ Lia.
From Stdlib Require Import SpecFloat.
From stdpp Require Import base option list strings gmap.
Import ListNotations.

Set Warnings "-register-all".

Local Open Scope string_scope.
Local Open Scope Z_scope.

(* ===================================================================== *)
(** * Part I.  Definitions                                                *)
(* ===================================================================== *)

(** ** JavaScript values and the string primitives the pages call *)

Module Js.

(** *** Plain text *)

(** [!s] on a text: only the empty one is falsy. *)
Definition falsy_string (s : string) : bool := String.eqb s EmptyString.

(** Decimal rendering of an integer, with a leading minus sign when
    negative. *)
Definition string_of_Z (z : Z) : string := NilZero.string_of_int (Z.to_int z).

Definition Z_of_string (s : string) : option Z :=
  match NilZero.int_of_string s with
  | Some d => Some (Z.of_int d)
  | None => None
  end.

(** [xs.join(sep)] on already rendered elements. *)
Fixpoint join (sep : string) (xs : list string) : string :=
  match xs with
  | [] => EmptyString
  | [x] => x
  | x :: rest => x ++ sep ++ join sep rest
  end.

(** Every character of [s] satisfies [P]. *)
Fixpoint all_chars (P : ascii -> bool) (s : string) : bool :=
  match s with
  | EmptyString => true
  | String c rest => (P c && all_chars P rest)%bool
  end.

Definition not_comma (c : ascii) : bool := negb (Ascii.eqb c ",").

(** *** String values *)

Local Open Scope list_scope.

(** A string value is a sequence of UTF-16 code units.  [s.length] is the
    length of the sequence and [a === b] its equality. *)
Definition jsstring := list N.

(** The value of a string literal of the source written in ASCII. *)
Definition lit (s : string) : jsstring := map N_of_ascii (list_ascii_of_string s).
Arguments lit : simpl never.

(** [a === b] on strings. *)
Fixpoint eqb (a b : jsstring) : bool :=
  match a, b with
  | [], [] => true
  | x :: a', y :: b' => (N.eqb x y && eqb a' b')%bool
  | _, _ => false
  end.

(** [!s] on a string: only the empty string is falsy. *)
Definition falsy (s : jsstring) : bool :=
  match s with
  | [] => true
  | _ :: _ => false
  end.

(** [s.startsWith(q)] *)
Fixpoint startsWith (s q : jsstring) : bool :=
  match q, s with
  | [], _ => true
  | _ :: _, [] => false
  | a :: q', b :: s' => (N.eqb a b && startsWith s' q')%bool
  end.

(** [s.includes(q)]: [q] occurs in [s] at some position. *)
Fixpoint includes (s q : jsstring) : bool :=
  (startsWith s q ||
   match s with
   | [] => false
   | _ :: rest => includes rest q
   end)%bool.

(** The code units [trim] strips: the white space and line terminators of
    the language, that is TAB, LF, VT, FF, CR, SPACE, NO-BREAK SPACE,
    U+1680, U+2000 to U+200A, U+2028, U+2029, U+202F, U+205F, U+3000 and
    U+FEFF.  All of them are single code units. *)
Definition is_white_space (u : N) : bool :=
  ((9 <=? u) && (u <=? 13) || (u =? 32) || (u =? 160) || (u =? 5760)
   || (8192 <=? u) && (u <=? 8202) || (u =? 8232) || (u =? 8233)
   || (u =? 8239) || (u =? 8287) || (u =? 12288) || (u =? 65279))%N%bool.

Fixpoint trim_start (s : jsstring) : jsstring :=
  match s with
  | u :: rest => if is_white_space u then trim_start rest else s
  | [] => []
  end.

Definition trim_end (s : jsstring) : jsstring := rev (trim_start (rev s)).

(** [s.trim()] *)
Definition trim (s : jsstring) : jsstring := trim_end (trim_start s).

(** The code units of ASCII, and the lowering of the letters A to Z. *)
Definition is_ascii (u : N) : bool := (u <? 128)%N.

Definition lower_ascii (u : N) : N :=
  if ((65 <=? u) && (u <=? 90))%N%bool then (u + 32)%N else u.

(** *** Numbers and values *)

(** A number is a double: a zero, an infinity, NaN, or a sign with a
    mantissa and a binary exponent. *)
Definition number := spec_float.

(** The number an integer literal denotes. *)
Definition number_of_Z (z : Z) : number :=
  match z with
  | Z0 => S754_zero false
  | Zpos p => S754_finite false p 0
  | Zneg p => S754_finite true p 0
  end.

(** Values of type [any] as they arrive from the JSON API or are written
    as literals. *)
Inductive value : Type :=
| Undefined
| Null
| Bool (b : bool)
| Num (n : number)
| Str (s : jsstring)
| Arr (elems : list value)
| Obj (fields : list (jsstring * value)).

(** An object with its own enumerable properties, in insertion order. *)
Definition object := list (jsstring * value).

(** [Object.values(o)] *)
Definition Object_values (o : object) : list value := map snd o.

(** [Object.keys(o)] *)
Definition Object_keys (o : object) : list jsstring := map fst o.



(** Truthiness, as used by [&&], [||], [!] and the conditional: [false],
    the zeros, NaN, the empty string, [null] and [undefined] are falsy. *)
Definition truthy (v : value) : bool :=
  match v with
  | Undefined | Null => false
  | Bool b => b
  | Num (S754_zero _) | Num S754_nan => false
  | Num _ => true
  | Str s => negb (falsy s)
  | Arr _ | Obj _ => true
  end.

(** *** What the runtime brings *)

(** Two functions of the language are tables and algorithms of its
    standard rather than code of the pages: the printing of a number
    ([Number::toString]) and the Unicode lowering of a string
    ([String.prototype.toLowerCase]).  They are taken as given, with two
    facts about the lowering: it yields the empty string on the empty
    string only, and on a string of ASCII code units it lowers the letters
    A to Z and leaves the rest. *)
Class Runtime := {
  Number_toString : number -> jsstring;
  toLowerCase : jsstring -> jsstring;
  toLowerCase_nonempty : forall s, toLowerCase s = [] -> s = [];
  toLowerCase_ascii :
    forall s, forallb is_ascii s = true -> toLowerCase s = map lower_ascii s
}.

(** [xs.join(sep)] *)
Fixpoint Array_join (sep : jsstring) (xs : list jsstring) : jsstring :=
  match xs with
  | [] => []
  | [x] => x
  | x :: rest => x ++ sep ++ Array_join sep rest
  end.

(** [String(v)].  Inside an array, [null] and [undefined] render as the
    empty string; a plain object renders as the fixed text below. *)
Fixpoint String_ `{Runtime} (v : value) : jsstring :=
  match v with
  | Undefined => lit "undefined"
  | Null => lit "null"
  | Bool true => lit "true"
  | Bool false => lit "false"
  | Num n => Number_toString n
  | Str s => s
  | Arr elems =>
      Array_join (lit ",")
        (map (fun e => match e with
                       | Undefined | Null => []
                       | _ => String_ e
                       end) elems)
  | Obj _ => lit "[object Object]"
  end.

End Js.

(** ** DataViewPage.tsx: the table filter *)

Module DataViewPage.
Import Js.
Local Open Scope list_scope.

(** A table row: column name to cell value. *)
Definition Row := Js.object.

(** The [dataset] state once loaded: [dataset_info] fields together with
    [sample_data] and [columns] of the response.  [sample_data] may be
    missing, hence the optional chaining in the source. *)
Record Dataset := {
  name : jsstring;
  row_count : option number;
  column_count : option number;
  sample_data : option (list Row);
  columns : list jsstring
}.

Section Filter.
Context `{Runtime}.

(** The callback handed to [filter] at lines 61-66. *)
Definition row_matches (searchQuery : jsstring) (row : Row) : bool :=
  if falsy searchQuery then true
  else existsb
         (fun val => includes (toLowerCase (String_ val)) (toLowerCase searchQuery))
         (Object_values row).

(** [dataset.sample_data?.filter(...) || []] *)
Definition filteredData (dataset : Dataset) (searchQuery : jsstring) : list Row :=
  match sample_data dataset with
  | Some rows => List.filter (row_matches searchQuery) rows
  | None => []
  end.

(** The words of the property, stated apart from the code: two texts are
    equal up to letter case, and [s] has a piece equal to [q] up to letter
    case. *)
Definition eq_ignoring_case (a b : jsstring) : Prop :=
  toLowerCase a = toLowerCase b.

Definition contains_ignoring_case (s q : jsstring) : Prop :=
  exists pre mid post, s = pre ++ mid ++ post /\ eq_ignoring_case mid q.

(** What the code tests instead: the lowered query occurs in the lowered
    text. *)
Definition occurs_lowered (s q : jsstring) : Prop :=
  exists pre post, toLowerCase s = pre ++ toLowerCase q ++ post.

(** The new query [q'] refines [q]: lowered, it contains [q] lowered. *)
Definition refines (q' q : jsstring) : Prop :=
  includes (toLowerCase q') (toLowerCase q) = true.

End Filter.

(** Two ASCII letters that differ by their case at most, and two texts
    that do so position by position. *)
Definition same_letter (x y : N) : Prop :=
  x = y \/
  ((65 <= x <= 90)%N /\ y = (x + 32)%N) \/
  ((65 <= y <= 90)%N /\ x = (y + 32)%N).

Definition same_up_to_ascii_case (a b : jsstring) : Prop := Forall2 same_letter a b.

(** [s] has a piece that is [q] up to the case of ASCII letters. *)
Definition contains_up_to_ascii_case (s q : jsstring) : Prop :=
  exists pre mid post, s = pre ++ mid ++ post /\ same_up_to_ascii_case mid q.

End DataViewPage.

(** ** ResetPasswordPage (src/unnamed/part_001): the submit handler *)

Module ResetPasswordPage.
Import Js.

(** Component state, one field per [useState] of the page, and the token
    read from the URL ([searchParams.get] yields [null] when absent). *)
Record State := {
  token : option jsstring;
  newPassword : jsstring;
  confirmPassword : jsstring;
  loading : bool;
  validating : bool;
  tokenValid : bool;
  success : bool;
  error : jsstring
}.

Definition setError (msg : jsstring) (st : State) : State :=
  {| token := token st; newPassword := newPassword st;
     confirmPassword := confirmPassword st; loading := loading st;
     validating := validating st; tokenValid := tokenValid st;
     success := success st; error := msg |}.

Definition setLoading (b : bool) (st : State) : State :=
  {| token := token st; newPassword := newPassword st;
     confirmPassword := confirmPassword st; loading := b;
     validating := validating st; tokenValid := tokenValid st;
     success := success st; error := error st |}.

Definition setSuccess (b : bool) (st : State) : State :=
  {| token := token st; newPassword := newPassword st;
     confirmPassword := confirmPassword st; loading := loading st;
     validating := validating st; tokenValid := tokenValid st;
     success := b; error := error st |}.

(** Body of the POST to [/auth/reset-password]. *)
Record ResetRequest := {
  req_token : option jsstring;
  req_new_password : jsstring
}.

(** What the handler does to the outside world, in order. *)
Inductive Effect : Type :=
| Post (path : string) (body : ResetRequest)
| SetTimeout (delay_ms : Z) (navigate_to : string).

(** Outcome of the awaited call: it resolves, or it rejects with an error
    whose [response?.data?.detail] may be missing. *)
Inductive ApiOutcome : Type :=
| Resolved
| Rejected (detail : option jsstring).

(** [detail || 'Failed to reset password'] *)
Definition detail_or_default (detail : option jsstring) : jsstring :=
  match detail with
  | Some d => if falsy d then lit "Failed to reset password" else d
  | None => lit "Failed to reset password"
  end.

(** [handleSubmit], lines 44-76.  [api] answers the one request the
    handler may send; the result is the state after the handler (and its
    [finally] block) has run, with the effects it performed.  The two
    passwords are compared as strings ([!==]) and the length tested is
    [newPassword.length], the number of code units. *)
Definition handleSubmit (api : ResetRequest -> ApiOutcome) (st : State)
  : State * list Effect :=
  let st := setError [] st in
  if negb (eqb (newPassword st) (confirmPassword st)) then
    (setError (lit "Passwords do not match") st, [])
  else if (length (newPassword st) <? 6)%nat then
    (setError (lit "Password must be at least 6 characters") st, [])
  else
    let st := setLoading true st in
    let body := {| req_token := token st; req_new_password := newPassword st |} in
    match api body with
    | Resolved =>
        let st := setSuccess true st in
        (setLoading false st,
         [Post "/auth/reset-password" body; SetTimeout 2000 "/login"])
    | Rejected detail =>
        let st := setError (detail_or_default detail) st in
        (setLoading false st, [Post "/auth/reset-password" body])
    end.

(** A request went out. *)
Definition request_sent (effs : list Effect) : bool :=
  existsb (fun e => match e with Post _ _ => true | SetTimeout _ _ => false end) effs.

End ResetPasswordPage.

(** ** ActiveDatasetsPage (src/unnamed/part_001) *)

Module ActiveDatasetsPage.
Import Js.

(** A dataset as listed by the API; [id] is the [number] the page filters
    on. *)
Record DatasetEntry := {
  id : Z;
  name : string;
  row_count : option Z;
  created_at : string
}.

Record State := {
  datasets : list DatasetEntry;
  activeDatasetIds : list Z;
  loading : bool
}.

(** The browser around the component: [localStorage] and the events
    dispatched on [window]. *)
Record Browser := {
  localStorage : gmap string string;
  dispatched : list string
}.

(** [JSON.stringify] on an array of integers. *)
Definition JSON_stringify (ids : list Z) : string :=
  "[" ++ join "," (map string_of_Z ids) ++ "]".

(** Split at every comma. *)
Fixpoint split_commas (s : string) (cur : string) : list string :=
  match s with
  | EmptyString => [cur]
  | String c rest =>
      if Ascii.eqb c "," then cur :: split_commas rest EmptyString
      else split_commas rest (cur ++ String c EmptyString)
  end.

Fixpoint parse_all (pieces : list string) : option (list Z) :=
  match pieces with
  | [] => Some []
  | p :: rest =>
      match Z_of_string p, parse_all rest with
      | Some z, Some zs => Some (z :: zs)
      | _, _ => None
      end
  end.

(** Text between the brackets of a bracketed string. *)
Fixpoint drop_last_bracket (s : string) : option string :=
  match s with
  | EmptyString => None
  | String c EmptyString => if Ascii.eqb c "]" then Some EmptyString else None
  | String c rest =>
      match drop_last_bracket rest with
      | Some inner => Some (String c inner)
      | None => None
      end
  end.

(** [JSON.parse] restricted to what [JSON_stringify] writes: a bracketed,
    comma-separated list of decimal integers without blanks.  [None]
    stands for any other text. *)
Definition JSON_parse (s : string) : option (list Z) :=
  match s with
  | String c rest =>
      if Ascii.eqb c "[" then
        match drop_last_bracket rest with
        | Some EmptyString => Some []
        | Some inner => parse_all (split_commas inner EmptyString)
        | None => None
        end
      else None
  | EmptyString => None
  end.

(** First lines of [loadActiveDatasets]:
    [saved ? JSON.parse(saved) : []]. *)
Definition savedActiveIds (b : Browser) : option (list Z) :=
  match localStorage b !! "activeDatasets" with
  | Some saved => if falsy_string saved then Some [] else JSON_parse saved
  | None => Some []
  end.

(** [activeIds.includes(d.id)] *)
Definition ids_include (ids : list Z) (x : Z) : bool :=
  existsb (fun y => y =? x) ids.

(** Outcome of the awaited [datasetsAPI.list()]. *)
Inductive ListOutcome : Type :=
| Listed (all : list DatasetEntry)
| ListFailed.

(** [loadActiveDatasets], lines 218-236, run to completion.  When the
    saved text does not parse, or the listing fails, the [catch] block
    only logs and [finally] clears [loading]. *)
Definition loadActiveDatasets (api : ListOutcome) (st : State) (b : Browser) : State :=
  match savedActiveIds b with
  | Some activeIds =>
      match api with
      | Listed all =>
          {| datasets := List.filter (fun d => ids_include activeIds (id d)) all;
             activeDatasetIds := activeIds;
             loading := false |}
      | ListFailed =>
          {| datasets := datasets st; activeDatasetIds := activeIds; loading := false |}
      end
  | None =>
      {| datasets := datasets st; activeDatasetIds := activeDatasetIds st;
         loading := false |}
  end.

(** [removeFromActive], lines 238-246. *)
Definition removeFromActive (datasetId : Z) (st : State) (b : Browser)
  : State * Browser :=
  let updated := List.filter (fun i => negb (i =? datasetId)) (activeDatasetIds st) in
  ({| datasets := List.filter (fun d => negb (id d =? datasetId)) (datasets st);
      activeDatasetIds := updated;
      loading := loading st |},
   {| localStorage := <["activeDatasets" := JSON_stringify updated]> (localStorage b);
      dispatched := dispatched b ++ ["storage"] |}).

End ActiveDatasetsPage.


(** ** AnalyticsPage: the chat page that calls the conversation API
       (second document of DataViewPage.tsx) *)

Module AnalyticsPage.
Import Js.

(** [response.data] of [conversationsAPI.sendMessage]; [query_data] may be
    missing, hence [query_data?.field]. *)
Record QueryData := {
  qd_generated_sql : value;
  qd_result_data : value;
  qd_visualization : value;
  qd_columns : value
}.

Record MessageData := {
  md_content : value;
  md_query_data : option QueryData
}.

(** The object stored as [content] of an assistant message. *)
Record AssistantContent := {
  text : value;
  generated_sql : value;
  result_data : value;
  visualization : value;
  columns : value
}.

Inductive Message : Type :=
| UserMessage (content : jsstring)
| AssistantMessage (content : AssistantContent).

Record Conversation := { conversation_id : Z }.

Record State := {
  query : jsstring;
  messages : list Message;
  loading : bool;
  currentConversation : option Conversation
}.

(** Outcome of the awaited [sendMessage]. *)
Inductive SendOutcome : Type :=
| Sent (data : MessageData)
| SendFailed (detail : value).

(** [!query.trim()] *)
Definition blank (s : jsstring) : bool := falsy (trim s).

(** [query_data?.field] *)
Definition opt_field (qd : option QueryData) (f : QueryData -> value) : value :=
  match qd with
  | Some d => f d
  | None => Undefined
  end.

(** The assistant message built at lines 237-246. *)
Definition assistantContent (d : MessageData) : AssistantContent :=
  {| text := md_content d;
     generated_sql := opt_field (md_query_data d) qd_generated_sql;
     result_data := opt_field (md_query_data d) qd_result_data;
     visualization := opt_field (md_query_data d) qd_visualization;
     columns := opt_field (md_query_data d) qd_columns |}.

(** [error.response?.data?.detail || 'Error processing query'] *)
Definition errorContent (detail : value) : AssistantContent :=
  {| text := if truthy detail then detail else Str (lit "Error processing query");
     generated_sql := Undefined;
     result_data := Undefined;
     visualization := Undefined;
     columns := Undefined |}.

(** [handleSubmit], lines 223-257, run to completion: [send] answers the
    one message the handler may send. *)
Definition handleSubmit (send : Z -> jsstring -> SendOutcome) (st : State) : State :=
  match currentConversation st with
  | Some conv =>
      if (blank (query st) || loading st)%bool then st
      else
        let reply :=
          match send (conversation_id conv) (query st) with
          | Sent d => assistantContent d
          | SendFailed detail => errorContent detail
          end in
        {| query := [];
           messages := messages st ++ [UserMessage (query st)] ++ [AssistantMessage reply];
           loading := false;
           currentConversation := currentConversation st |}
  | None => st
  end.

(** The guard in front of [ChartRenderer], lines 370-380:
    [message.content.visualization && message.content.result_data]. *)
Definition renders_chart (c : AssistantContent) : bool :=
  (truthy (visualization c) && truthy (result_data c))%bool.

(** The guard in front of the SQL [details] block. *)
Definition renders_sql (c : AssistantContent) : bool := truthy (generated_sql c).


End AnalyticsPage.

(** ** AnalyticsPage.tsx: the page with the simulated answer *)

Module SimulatedAnalyticsPage.
Import Js.

(** A message; [content] is typed [any]: the text of the question, or the
    object built for the answer. *)
Inductive Message : Type :=
| UserMessage (content : jsstring)
| AssistantMessage (content : object).

Record State := {
  query : jsstring;
  messages : list Message;
  loading : bool
}.

(** A row of [resultData]. *)
Definition quarter_row (quarter : string) (total_revenue : Z) : value :=
  Obj [ (lit "quarter", Str (lit quarter));
        (lit "total_revenue", Num (number_of_Z total_revenue)) ].

(** The object literal of lines 38-52, the [content] of every answer. *)
Definition simulated : object :=
  [ (lit "directAnswer",
     Str (lit "Based on the data, revenue increased by 23% in Q4 compared to Q3."));
    (lit "sql",
     Str (lit "SELECT quarter, SUM(revenue) as total_revenue FROM sales GROUP BY quarter ORDER BY quarter"));
    (lit "resultData",
     Arr [ quarter_row "Q1" 150000; quarter_row "Q2" 175000;
           quarter_row "Q3" 200000; quarter_row "Q4" 246000 ]);
    (lit "columns", Arr [Str (lit "quarter"); Str (lit "total_revenue")]);
    (lit "explanation",
     Str (lit "The revenue growth is primarily driven by increased customer acquisition in the enterprise segment during Q4. Holiday season promotions and year-end deals contributed significantly to this growth.")) ].

(** [handleSubmit], lines 25-60, with the two-second timer elapsed. *)
Definition handleSubmit (st : State) : State :=
  if (AnalyticsPage.blank (query st) || loading st)%bool then st
  else
    {| query := [];
       messages := messages st ++ [UserMessage (query st)] ++ [AssistantMessage simulated];
       loading := false |}.

End SimulatedAnalyticsPage.

(** ** DataViewPage.tsx: loading the dataset and choosing what to show *)

Module DataViewScreen.
Import Js DataViewPage.
Local Open Scope list_scope.

(** The three [useState] cells of the page. *)
Record PageState := {
  dataset : option Dataset;
  loading : bool;
  searchQuery : jsstring
}.

(** The state at first render: no dataset, [loading] set. *)
Definition initial : PageState :=
  {| dataset := None; loading := true; searchQuery := [] |}.

(** [response.data] of the data endpoint.  [dataset_info] is kept as a
    [Dataset] whose own [sample_data] and [columns], if any, are
    overwritten by the spread at lines 27-31. *)
Record DataResponse := {
  dataset_info : Dataset;
  data : option (list Row);
  resp_columns : list jsstring
}.

Inductive GetOutcome : Type :=
| Got (r : DataResponse)
| GetFailed.

(** [`/datasets/${datasetId}/data`] *)
Definition data_url (datasetId : jsstring) : jsstring :=
  lit "/datasets/" ++ datasetId ++ lit "/data".
Arguments data_url : simpl never.

(** [loadDataset], lines 22-37, run to completion; the second component
    lists the URLs requested. *)
Definition loadDataset (api : jsstring -> GetOutcome) (datasetId : jsstring)
  (st : PageState) : PageState * list jsstring :=
  match api (data_url datasetId) with
  | Got r =>
      ({| dataset :=
            Some {| name := name (dataset_info r);
                    row_count := row_count (dataset_info r);
                    column_count := column_count (dataset_info r);
                    sample_data := data r;
                    columns := resp_columns r |};
          loading := false;
          searchQuery := searchQuery st |},
       [data_url datasetId])
  | GetFailed =>
      ({| dataset := dataset st; loading := false; searchQuery := searchQuery st |},
       [data_url datasetId])
  end.

(** The effect of lines 16-20: the dataset is loaded only when the URL
    carries a non-empty [dataset] parameter. *)
Definition mount (api : jsstring -> GetOutcome) (datasetId : option jsstring)
  (st : PageState) : PageState * list jsstring :=
  match datasetId with
  | Some i => if falsy i then (st, []) else loadDataset api i st
  | None => (st, [])
  end.

(** [setSearchQuery] from the search box. *)
Definition setSearchQuery (q : jsstring) (st : PageState) : PageState :=
  {| dataset := dataset st; loading := loading st; searchQuery := q |}.

(** What the component returns, lines 39-58 and 106-148: the spinner, the
    not-found text, one of the two empty texts, or the table with the
    header taken from the first displayed row. *)
Inductive View : Type :=
| LoadingView
| NotFoundView
| EmptyView (msg : string)
| TableView (header : list jsstring) (rows : list Row).

Definition view `{Runtime} (st : PageState) : View :=
  if loading st then LoadingView
  else
    match dataset st with
    | None => NotFoundView
    | Some d =>
        match filteredData d (searchQuery st) with
        | [] =>
            EmptyView (if falsy (searchQuery st)
                       then "No data available"
                       else "No matching data found")
        | r :: rest => TableView (Object_keys r) (r :: rest)
        end
    end.

End DataViewScreen.

(** ** The chat page (second document of DataViewPage.tsx): datasets,
       conversations and the pending request *)

Module AnalyticsChat.
Import Js AnalyticsPage.

(** An entry of the dataset selector. *)
Record DatasetOption := {
  ds_id : Z;
  ds_name : string
}.

(** The page state: the cells already in [AnalyticsPage.State] and the
    three others. *)
Record PageState := {
  core : AnalyticsPage.State;
  datasets : list DatasetOption;
  selectedDataset : option Z;
  sidebarOpen : bool
}.

Definition with_core (c : AnalyticsPage.State) (st : PageState) : PageState :=
  {| core := c; datasets := datasets st;
     selectedDataset := selectedDataset st; sidebarOpen := sidebarOpen st |}.

(** Truthiness of [selectedDataset : number | null]: [null] and [0] are
    falsy. *)
Definition selected (sel : option Z) : bool :=
  match sel with
  | Some n => negb (n =? 0)
  | None => false
  end.

Inductive ListOutcome : Type :=
| Listed (all : list DatasetOption)
| ListFailed.

Inductive CreateOutcome : Type :=
| Created (c : Conversation)
| CreateFailed.

(** [loadDatasets], lines 201-211. *)
Definition loadDatasets (api : ListOutcome) (st : PageState) : PageState :=
  match api with
  | Listed all =>
      {| core := core st;
         datasets := all;
         selectedDataset :=
           match all with
           | d :: _ => if selected (selectedDataset st)
                       then selectedDataset st else Some (ds_id d)
           | [] => selectedDataset st
           end;
         sidebarOpen := sidebarOpen st |}
  | ListFailed => st
  end.

Definition setCurrentConversation (c : Conversation) (s : AnalyticsPage.State)
  : AnalyticsPage.State :=
  {| query := query s; messages := messages s; loading := AnalyticsPage.loading s;
     currentConversation := Some c |}.

(** [createConversation], lines 213-221. *)
Definition createConversation (api : Z -> CreateOutcome) (st : PageState) : PageState :=
  match selectedDataset st with
  | Some n =>
      if selected (Some n) then
        match api n with
        | Created c => with_core (setCurrentConversation c (core st)) st
        | CreateFailed => st
        end
      else st
  | None => st
  end.

(** The effect of lines 191-195, run when [selectedDataset] changed. *)
Definition onSelectedDataset (api : Z -> CreateOutcome) (st : PageState) : PageState :=
  match currentConversation (core st) with
  | None => if selected (selectedDataset st) then createConversation api st else st
  | Some _ => st
  end.

(** The selector's [onChange]: [setSelectedDataset(Number(value))], then
    the effect above if the value changed. *)
Definition selectDataset (n : Z) (api : Z -> CreateOutcome) (st : PageState) : PageState :=
  match selectedDataset st with
  | Some m =>
      if m =? n then st
      else onSelectedDataset api
             {| core := core st; datasets := datasets st;
                selectedDataset := Some n; sidebarOpen := sidebarOpen st |}
  | None =>
      onSelectedDataset api
        {| core := core st; datasets := datasets st;
           selectedDataset := Some n; sidebarOpen := sidebarOpen st |}
  end.

(** [handleNewChat], lines 259-263. *)
Definition handleNewChat (api : Z -> CreateOutcome) (st : PageState) : PageState :=
  createConversation api
    (with_core {| query := []; messages := [];
                  loading := AnalyticsPage.loading (core st);
                  currentConversation := currentConversation (core st) |} st).

(** [handleSubmit] up to its [await], lines 223-231: the guard, the user
    message, the cleared input and [loading].  The second component is
    the message sent, if any: conversation id and text. *)
Definition submitStart (s : AnalyticsPage.State)
  : AnalyticsPage.State * option (Z * jsstring) :=
  match currentConversation s with
  | Some conv =>
      if (blank (query s) || AnalyticsPage.loading s)%bool then (s, None)
      else
        ({| query := [];
            messages := messages s ++ [UserMessage (query s)];
            loading := true;
            currentConversation := currentConversation s |},
         Some (conversation_id conv, query s))
  | None => (s, None)
  end.

(** The rest of [handleSubmit], lines 234-256, when the call settles: the
    reply is appended to the messages as they are then. *)
Definition submitFinish (o : SendOutcome) (s : AnalyticsPage.State) : AnalyticsPage.State :=
  {| query := query s;
     messages :=
       messages s ++
       [AssistantMessage (match o with
                          | Sent d => assistantContent d
                          | SendFailed detail => errorContent detail
                          end)];
     loading := false;
     currentConversation := currentConversation s |}.

(** What can happen on the page, one event at a time.  [Loaded] is the
    dataset list coming back (with the outcome of the conversation the
    effect may then create), [Settle] the pending call coming back; it
    only happens while a call is pending. *)
Inductive Event : Type :=
| Loaded (lo : ListOutcome) (co : CreateOutcome)
| TypeQuery (text : jsstring)
| Submit
| Settle (o : SendOutcome)
| NewChat (co : CreateOutcome)
| Select (n : Z) (co : CreateOutcome).

Definition setQuery (text : jsstring) (s : AnalyticsPage.State) : AnalyticsPage.State :=
  {| query := text; messages := messages s; loading := AnalyticsPage.loading s;
     currentConversation := currentConversation s |}.

(** The list arrives, and the effect on [selectedDataset] runs when the
    selection changed. *)
Definition datasetsLoaded (lo : ListOutcome) (api : Z -> CreateOutcome) (st : PageState)
  : PageState :=
  let st1 := loadDatasets lo st in
  match selectedDataset st, selectedDataset st1 with
  | Some a, Some b => if a =? b then st1 else onSelectedDataset api st1
  | None, None => st1
  | _, _ => onSelectedDataset api st1
  end.

Definition step (st : PageState) (e : Event) : PageState :=
  match e with
  | Loaded lo co => datasetsLoaded lo (fun _ => co) st
  | TypeQuery text => with_core (setQuery text (core st)) st
  | Submit => with_core (fst (submitStart (core st))) st
  | Settle o =>
      if AnalyticsPage.loading (core st) then with_core (submitFinish o (core st)) st
      else st
  | NewChat co => handleNewChat (fun _ => co) st
  | Select n co => selectDataset n (fun _ => co) st
  end.

Definition run (events : list Event) (st : PageState) : PageState :=
  fold_left step events st.

(** The page at first render, given [location.state?.datasetId || null]. *)
Definition initial (sel : option Z) : PageState :=
  {| core := {| query := []; messages := []; loading := false;
                currentConversation := None |};
     datasets := [];
     selectedDataset := if selected sel then sel else None;
     sidebarOpen := false |}.

(** The page once the effects of the first render have run: with a
    preselected dataset a conversation is asked for at once. *)
Definition mounted (api : Z -> CreateOutcome) (sel : option Z) : PageState :=
  onSelectedDataset api (initial sel).

(** A transcript made of question and answer pairs; when the flag is set,
    one more question stands at the end. *)
Inductive pairs : bool -> list Message -> Prop :=
| pairs_nil : pairs false []
| pairs_pending (q : jsstring) : pairs true [UserMessage q]
| pairs_cons (p : bool) (q : jsstring) (r : AssistantContent) (rest : list Message) :
    pairs p rest -> pairs p (UserMessage q :: AssistantMessage r :: rest).

(** The shape of the transcript: pairs, possibly after one leading answer;
    while a call is pending the transcript may also be empty. *)
Definition transcript_ok (s : AnalyticsPage.State) : Prop :=
  pairs (AnalyticsPage.loading s) (messages s) \/
  (exists r rest, messages s = AssistantMessage r :: rest
                  /\ pairs (AnalyticsPage.loading s) rest) \/
  (AnalyticsPage.loading s = true /\ messages s = []).

End AnalyticsChat.

(** ** LoginPage.tsx *)

Module LoginPage.
Import Js.

Record State := {
  email : string;
  password : string;
  error : string;
  loading : bool
}.

Inductive Effect : Type :=
| Login (email password : string)
| Navigate (path : string).

(** Outcome of the awaited [login]: it resolves, or rejects with an error
    whose [response?.data?.detail] may be missing. *)
Inductive LoginOutcome : Type :=
| LoggedIn
| LoginRejected (detail : option string).

(** [detail || 'Invalid credentials'] *)
Definition detail_or_invalid (detail : option string) : string :=
  match detail with
  | Some d => if falsy_string d then "Invalid credentials" else d
  | None => "Invalid credentials"
  end.

(** [handleSubmit], lines 16-29, run to completion. *)
Definition handleSubmit (login : string -> string -> LoginOutcome) (st : State)
  : State * list Effect :=
  match login (email st) (password st) with
  | LoggedIn =>
      ({| email := email st; password := password st;
          error := EmptyString; loading := false |},
       [Login (email st) (password st); Navigate "/analytics"])
  | LoginRejected detail =>
      ({| email := email st; password := password st;
          error := detail_or_invalid detail; loading := false |},
       [Login (email st) (password st)])
  end.

(** Submitting once per outcome, in order. *)
Fixpoint submit_all (outcomes : list LoginOutcome) (st : State) : State * list Effect :=
  match outcomes with
  | [] => (st, [])
  | o :: rest =>
      let '(st1, effs1) := handleSubmit (fun _ _ => o) st in
      let '(st2, effs2) := submit_all rest st1 in
      (st2, (effs1 ++ effs2)%list)
  end.

Definition is_navigate (e : Effect) : bool :=
  match e with Navigate _ => true | Login _ _ => false end.

Definition is_logged_in (o : LoginOutcome) : bool :=
  match o with LoggedIn => true | LoginRejected _ => false end.

End LoginPage.

(** ** ForgotPasswordPage (second document of AnalyticsPage.tsx) *)

Module ForgotPasswordPage.
Import Js.

Record State := {
  email : string;
  loading : bool;
  success : bool;
  error : string
}.

Inductive Effect : Type :=
| Post (path : string) (email : string).

Inductive PostOutcome : Type :=
| Resolved
| Rejected (detail : option string).

(** [detail || 'Failed to send reset email'] *)
Definition detail_or_failed (detail : option string) : string :=
  match detail with
  | Some d => if falsy_string d then "Failed to send reset email" else d
  | None => "Failed to send reset email"
  end.

(** [handleSubmit], lines 301-314 of the file, run to completion. *)
Definition handleSubmit (api : string -> PostOutcome) (st : State) : State * list Effect :=
  match api (email st) with
  | Resolved =>
      ({| email := email st; loading := false; success := true; error := EmptyString |},
       [Post "/auth/forgot-password" (email st)])
  | Rejected detail =>
      ({| email := email st; loading := false; success := success st;
          error := detail_or_failed detail |},
       [Post "/auth/forgot-password" (email st)])
  end.

(** The card shows the form until [success], then the confirmation with
    the address typed. *)
Inductive View : Type :=
| FormView (err : string)
| CheckYourEmail (address : string).

Definition view (st : State) : View :=
  if success st then CheckYourEmail (email st) else FormView (error st).

End ForgotPasswordPage.

(** ** ResetPasswordPage: verifying the link and choosing what to show *)

Module ResetPasswordFlow.
Import Js ResetPasswordPage.

(** The state at first render, given [searchParams.get('token')]. *)
Definition initial (tok : option jsstring) : State :=
  {| token := tok; newPassword := []; confirmPassword := [];
     loading := false; validating := true; tokenValid := false;
     success := false; error := [] |}.

Definition setValidating (b : bool) (st : State) : State :=
  {| token := token st; newPassword := newPassword st;
     confirmPassword := confirmPassword st; loading := loading st;
     validating := b; tokenValid := tokenValid st;
     success := success st; error := error st |}.

Definition setTokenValid (b : bool) (st : State) : State :=
  {| token := token st; newPassword := newPassword st;
     confirmPassword := confirmPassword st; loading := loading st;
     validating := validating st; tokenValid := b;
     success := success st; error := error st |}.

Definition setNewPassword (pw : jsstring) (st : State) : State :=
  {| token := token st; newPassword := pw;
     confirmPassword := confirmPassword st; loading := loading st;
     validating := validating st; tokenValid := tokenValid st;
     success := success st; error := error st |}.

Definition setConfirmPassword (pw : jsstring) (st : State) : State :=
  {| token := token st; newPassword := newPassword st;
     confirmPassword := pw; loading := loading st;
     validating := validating st; tokenValid := tokenValid st;
     success := success st; error := error st |}.

(** Outcome of the GET: [response.data.valid], or a rejection. *)
Inductive VerifyOutcome : Type :=
| Verified (valid : bool)
| VerifyFailed.

(** [`/auth/verify-reset-token/${token}`] *)
Definition verify_url (t : jsstring) : jsstring :=
  (lit "/auth/verify-reset-token/" ++ t)%list.
Arguments verify_url : simpl never.

(** The effect of lines 21-42, run to completion; the second component
    lists the URLs requested. *)
Definition verifyToken (api : jsstring -> VerifyOutcome) (st : State)
  : State * list jsstring :=
  match token st with
  | Some t =>
      if falsy t then
        (setValidating false (setError (lit "Invalid reset link") st), [])
      else
        match api (verify_url t) with
        | Verified valid =>
            let st1 := setTokenValid valid st in
            let st2 := if valid then st1
                       else setError (lit "This reset link is invalid or has expired") st1 in
            (setValidating false st2, [verify_url t])
        | VerifyFailed =>
            (setValidating false (setError (lit "Failed to verify reset link") st),
             [verify_url t])
        end
  | None => (setValidating false (setError (lit "Invalid reset link") st), [])
  end.

(** What the card shows, lines 97-191. *)
Inductive View : Type :=
| Verifying
| InvalidLink (msg : jsstring)
| ResetDone
| Form (err : jsstring).

Definition view (st : State) : View :=
  if validating st then Verifying
  else if negb (tokenValid st) then
    InvalidLink (if falsy (error st)
                 then lit "This password reset link is invalid or has expired."
                 else error st)
  else if success st then ResetDone
  else Form (error st).

End ResetPasswordFlow.

(** ** ActiveDatasetsPage over a visit: the first load and the removals *)

Module ActiveDatasetsSession.
Import ActiveDatasetsPage.

(** The state at first render. *)
Definition initial : State :=
  {| datasets := []; activeDatasetIds := []; loading := true |}.

(** The effect run once after the first render. *)
Definition mount (api : ListOutcome) (b : Browser) : State :=
  loadActiveDatasets api initial b.

(** Clicks on the remove button, one dataset after the other. *)
Fixpoint removeEach (xs : list Z) (p : State * Browser) : State * Browser :=
  match xs with
  | [] => p
  | x :: rest => removeEach rest (removeFromActive x (fst p) (snd p))
  end.

(** The storage entry is absent, or holds text written by the page. *)
Definition stored (b : Browser) (ids : list Z) : Prop :=
  localStorage b !! "activeDatasets" = Some (JSON_stringify ids) \/
  localStorage b !! "activeDatasets" = None /\ ids = [].

(** The displayed datasets are those of the listing [all] whose id is
    active. *)
Definition in_step (all : list DatasetEntry) (st : State) : Prop :=
  datasets st = List.filter (fun d => ids_include (activeDatasetIds st) (id d)) all.

End ActiveDatasetsSession.

(** ** The page with the simulated answer over a visit *)

Module SimulatedSession.
Import Js SimulatedAnalyticsPage.

(** The state at first render. *)
Definition initial : State :=
  {| query := []; messages := []; loading := false |}.

(** [onChange] of the input, or a click on a suggested prompt. *)
Definition setQuery (q : jsstring) (st : State) : State :=
  {| query := q; messages := messages st; loading := loading st |}.

(** The user enters [q] and submits; the input is disabled until the
    answer has arrived. *)
Definition ask (q : jsstring) (st : State) : State := handleSubmit (setQuery q st).

(** Questions entered one after the other. *)
Definition asks (qs : list jsstring) (st : State) : State :=
  fold_left (fun s q => ask q s) qs st.

(** The two messages an accepted question adds. *)
Definition exchange (q : jsstring) : list Message :=
  [UserMessage q; AssistantMessage simulated].




End SimulatedSession.

(** ** The analytics pipeline

    The orchestrator and its stages live in the back end
    ([analytics_service_v3.py] and the services next to it), which is not
    among the sources at hand.  This module models them from the written
    specification; every definition below says which paragraph it
    follows. *)

Module Pipeline.
Import Js.

(** A computation that returns a value or fails with an error. *)
Inductive result (E A : Type) : Type :=
| Ok (a : A)
| Err (e : E).
Arguments Ok {E A} a.
Arguments Err {E A} e.

(** Modelled from the spec: a value of a row.  Section 4.5 leaves the
    values open; they are kept to null, an integer or a text, which is
    what the column kinds of section 4.6 tell apart. *)
Inductive Cell : Type :=
| CellNull
| CellNumber (z : Z)
| CellText (s : string).

(** Modelled from the spec: a row of a result set, a mapping of column name
    to value (section 4.5). *)
Definition Row := list (string * Cell).

(** *** Data model (section 3 of the specification) *)

(** Modelled from the spec: the inferred semantic type of a column
    (section 3). *)
Inductive SemanticType : Type :=
| SemCurrency | SemDate | SemCategorical | SemIdentifier | SemNumeric | SemText.

(** Modelled from the spec: the summary statistics of a ColumnProfile. *)
Record ColumnStats := {
  stat_min : Q;
  stat_max : Q;
  stat_mean : Q;
  stat_distinct : nat
}.

(** Modelled from the spec: ColumnProfile (section 3). *)
Record ColumnProfile := {
  cp_name : string;
  cp_declared_type : string;
  cp_semantic : SemanticType;
  cp_samples : list Cell;
  cp_stats : option ColumnStats;
  cp_null_ratio : Q
}.

(** Modelled from the spec: SchemaContext, an ordered sequence of column
    profiles.  A run is handed the context already built. *)
Definition SchemaContext := list ColumnProfile.

(** Modelled from the spec: AnalysisPlan (section 3). *)
Record AnalysisPlan := {
  understanding : string;
  approach : string;
  exploratory_questions : list string
}.

(** Modelled from the spec: the kinds of ExecutionError (section 4.5). *)
Inductive ExecErrorKind : Type :=
| ESyntax | ETimeout | EPermission | EUnknown.

(** Modelled from the spec: ExecutionError (section 4.5). *)
Record ExecutionError := {
  ee_kind : ExecErrorKind;
  ee_message : string
}.

(** Modelled from the spec: what execute returns on success, the rows and
    the truncation mark (section 4.5). *)
Record ResultSet := {
  rs_rows : list Row;
  rs_truncated : bool
}.

(** Modelled from the spec: execution_outcome, rows or error. *)
Definition ExecOutcome := result ExecutionError ResultSet.

(** Modelled from the spec: ExplorationStep (section 3). *)
Record ExplorationStep := {
  es_question : string;
  es_generated_sql : string;
  es_outcome : ExecOutcome;
  es_findings : string
}.

(** Modelled from the spec: the three grounds on which VALIDATE rejects
    (section 4.4). *)
Inductive ValidationKind : Type :=
| VEmptyOutput | VMutatingKeyword | VUnknownReference.

(** Modelled from the spec: an entry of validation_errors, kind and message. *)
Record ValidationError := {
  ve_kind : ValidationKind;
  ve_message : string
}.

(** Modelled from the spec: CandidateQuery (section 3). *)
Record CandidateQuery := {
  cq_sql : string;
  cq_attempt : nat;
  cq_validation_errors : list ValidationError;
  cq_outcome : option ExecOutcome
}.

(** Modelled from the spec: the chart kinds of a VisualizationSpec. *)
Inductive ChartKind : Type :=
| Bar | Line | Pie | Scatter | MultiSeriesLine | Table.

(** Modelled from the spec: VisualizationSpec (section 3); the display
    configuration is kept to a title. *)
Record VisualizationSpec := {
  vs_kind : ChartKind;
  vs_bindings : list (string * string);
  vs_title : string
}.

(** Modelled from the spec: a key finding, a statement with its supporting
    numbers. *)
Record Finding := {
  f_statement : string;
  f_numbers : list Z
}.

(** Modelled from the spec: Insight (section 3). *)
Record Insight := {
  in_summary : string;
  in_key_findings : list Finding;
  in_detailed_analysis : string;
  in_recommendations : list string
}.

(** Modelled from the spec: the terminal status of a run. *)
Inductive Status : Type :=
| Success | Partial | Failed.

(** Modelled from the spec: the response payload of section 6.  It is the
    object handed to the API layer, so every structured field is a slot
    that may hold [null] ([None]). *)
Record Payload := {
  natural_language_query : string;
  generated_sql : option string;
  result_data : option (list Row);
  visualization_specs : list VisualizationSpec;
  insights : option Insight;
  analysis_plan : option AnalysisPlan;
  exploration_trail : option (list ExplorationStep);
  status : Status;
  message : option string
}.

(** *** Configuration surface and external capabilities (section 6) *)

(** Modelled from the spec: the configuration surface of section 6, with
    the threshold under which a categorical column counts as parts of a
    whole. *)
Record Config := {
  temp_planning : Q;
  temp_sql : Q;
  temp_viz : Q;
  temp_insight : Q;
  max_sql_attempts : nat;
  row_limit : nat;
  exec_timeout : nat;
  probe_row_limit : nat;
  probe_timeout : nat;
  max_tokens : nat;
  pie_max_slices : nat
}.

(** Modelled from the spec: the design defaults (planning 0.5, SQL 0.1,
    insights 0.7, three SQL attempts, probes of at most 50 rows).  The
    remaining limits are not given a value by the specification. *)
Definition default_config : Config :=
  {| temp_planning := (1 # 2)%Q;
     temp_sql := (1 # 10)%Q;
     temp_viz := (1 # 10)%Q;
     temp_insight := (7 # 10)%Q;
     max_sql_attempts := 3;
     row_limit := 1000;
     exec_timeout := 30;
     probe_row_limit := 50;
     probe_timeout := 5;
     max_tokens := 2048;
     pie_max_slices := 6 |}.

(** Modelled from the spec: at most three exploratory questions are probed
    (section 4.3). *)
Definition max_probes : nat := 3.

(** Modelled from the spec: the kinds of ProviderError (section 6). *)
Inductive ProviderErrorKind : Type :=
| PTimeout | PAuth | PRateLimit | PUnavailable.

(** Modelled from the spec: the model capability
    [generate(prompt, temperature, max_tokens)].  The first argument is
    the number of calls made so far in the run, so that a provider may
    answer differently from one call to the next. *)
Definition Provider := nat -> string -> Q -> nat -> result ProviderErrorKind string.

(** Modelled from the spec: the dataset store behind the Execution
    Gateway, table name to rows. *)
Definition Db := gmap string (list Row).

(** Modelled from the spec: what the backing store answers to a statement. *)
Inductive EngineOutcome : Type :=
| EngineRows (rows : list Row)
| EngineFailure (kind : ExecErrorKind) (msg : string).

(** Modelled from the spec: the engine of the backing store; it runs a
    statement under a timeout and may change the data. *)
Definition Engine := Db -> string -> nat -> EngineOutcome * Db.

(** Modelled from the spec: what a run consumes (section 6), the providers
    in priority order and the engine of the dataset store. *)
Record Resources := {
  providers : list Provider;
  engine : Engine
}.

(** Modelled from the spec: the column types the visualization rules look
    at (section 4.6). *)
Inductive ColKind : Type :=
| KCategorical | KNumeric | KTemporal | KOther.

(** Modelled from the spec: what Insight Synthesis is given, the accepted
    rows or one of the two explicit signals (section 4.7). *)
Inductive InsightSignal : Type :=
| SigRows (rows : list Row)
| SigNoRows
| SigNoQuery.

(** Modelled from the spec: prompt templates, output parsers and SQL
    analysers.  The specification names them without fixing them, so the
    pipeline is written against this interface.  In particular it speaks
    of read queries and of mutating keywords (sections 4.4 and 4.5)
    without saying how a read query is recognised: [is_read_only] is that
    test, whatever it is. *)
Class Templates := {
  planning_prompt : string -> SchemaContext -> string;
  probe_prompt : string -> SchemaContext -> string;
  sql_prompt : string -> SchemaContext -> AnalysisPlan -> list ExplorationStep -> string;
  correction_prompt : string -> string -> string -> string;
  viz_prompt : string -> list Row -> string;
  insight_prompt : string -> AnalysisPlan -> InsightSignal -> list ExplorationStep -> string;
  parse_plan : string -> option AnalysisPlan;
  extract_sql : string -> string;
  parse_viz : string -> option (list VisualizationSpec);
  parse_insight : string -> option Insight;
  is_read_only : string -> bool;
  referenced_names : string -> list string;
  summarize_probe : string -> ExecOutcome -> string;
  column_kinds : list Row -> list ColKind;
  bindings_for : ChartKind -> list Row -> list (string * string)
}.

(** *** The state of one run *)

(** Modelled from the spec: the underlying store, with the statements
    that reached its engine. *)
Record Store := {
  st_db : Db;
  st_reached : list string
}.

(** Modelled from the spec: the stage invocations of a run, in the order
    they happen. *)
Inductive Event : Type :=
| EvPlanning
| EvExploration
| EvSqlGeneration
| EvVisualization (rows : list Row)
| EvInsight (sig : InsightSignal).

(** Modelled from the spec: the mutable part of a PipelineRun, namely the
    number of model calls made, the store, whether any provider answered
    yet, and the trace of stage invocations. *)
Record RunState := {
  run_calls : nat;
  run_store : Store;
  run_provider_ok : bool;
  run_trace : list Event
}.

(** Stages are state-passing computations over [RunState]. *)
Definition M (A : Type) : Type := RunState -> A * RunState.

(** Return a value, leaving the state as it is. *)
Definition ret {A} (a : A) : M A := fun s => (a, s).

(** Sequencing of two computations. *)
Definition bind {A B} (c : M A) (k : A -> M B) : M B :=
  fun s => let '(a, s') := c s in k a s'.

Notation "'let*' x ':=' c 'in' k" := (bind c (fun x => k))
  (at level 10, x name, c at level 100, k at level 200).
Notation "'let*' '_' ':=' c 'in' k" := (bind c (fun _ => k))
  (at level 10, c at level 100, k at level 200).

(** Record a stage invocation in the trace. *)
Definition log (e : Event) : M unit :=
  fun s => (tt, {| run_calls := run_calls s; run_store := run_store s;
                   run_provider_ok := run_provider_ok s;
                   run_trace := run_trace s ++ [e] |}).

(** Read whether any provider answered so far. *)
Definition get_provider_ok : M bool := fun s => (run_provider_ok s, s).

(** Modelled from the spec: provider fallback (sections 6 and 9).  The
    providers are tried in priority order at call time; the first answer
    wins, and when all fail the last error is reported. *)
Fixpoint generate_with (ps : list Provider) (n : nat) (prompt : string)
  (temperature : Q) (limit : nat) : result ProviderErrorKind string :=
  match ps with
  | [] => Err PUnavailable
  | p :: rest =>
      match p n prompt temperature limit with
      | Ok t => Ok t
      | Err e =>
          match rest with
          | [] => Err e
          | _ :: _ => generate_with rest n prompt temperature limit
          end
      end
  end.

(** Whether a result is a success. *)
Definition is_ok {E A} (r : result E A) : bool :=
  match r with Ok _ => true | Err _ => false end.

(** Modelled from the spec: one call of the model capability inside a
    run; it counts the call and remembers whether any provider ever
    answered. *)
Definition generate (res : Resources) (cfg : Config) (prompt : string)
  (temperature : Q) : M (result ProviderErrorKind string) :=
  fun s =>
    let r := generate_with (providers res) (run_calls s) prompt temperature (max_tokens cfg) in
    (r, {| run_calls := S (run_calls s); run_store := run_store s;
           run_provider_ok := (run_provider_ok s || is_ok r)%bool;
           run_trace := run_trace s |}).

(** *** Execution Gateway (section 4.5) *)

Section Stages.
Context `{Templates}.

(** Modelled from the spec: [execute(sql, row_limit, timeout)].  A
    statement that is not a read query is refused before the engine is
    touched; otherwise the engine runs it under the timeout and the rows
    are cut at the hard cap, the result being marked as truncated. *)
Definition execute (eng : Engine) (sql : string) (limit timeout : nat) (s : Store)
  : ExecOutcome * Store :=
  if is_read_only sql then
    let '(out, db') := eng (st_db s) sql timeout in
    let s' := {| st_db := db'; st_reached := st_reached s ++ [sql] |} in
    match out with
    | EngineRows rows =>
        (Ok {| rs_rows := firstn limit rows;
               rs_truncated := (limit <? length rows)%nat |}, s')
    | EngineFailure k msg => (Err {| ee_kind := k; ee_message := msg |}, s')
    end
  else
    (Err {| ee_kind := EPermission;
            ee_message := "only read queries are permitted" |}, s).

(** Modelled from the spec: the Execution Gateway as called from inside a
    run, on the store of the run. *)
Definition run_execute (res : Resources) (sql : string) (limit timeout : nat)
  : M ExecOutcome :=
  fun s =>
    let '(o, st') := execute (engine res) sql limit timeout (run_store s) in
    (o, {| run_calls := run_calls s; run_store := st';
           run_provider_ok := run_provider_ok s; run_trace := run_trace s |}).

(** *** Planning Stage (section 4.2) *)

(** Modelled from the spec: the two errors a model-backed stage absorbs
    (section 7). *)
Inductive StageError : Type :=
| ProviderError (kind : ProviderErrorKind)
| ParseError.

(** Modelled from the spec: the default plan echoes the raw user query as
    its understanding and asks no exploratory question. *)
Definition default_plan (query : string) : AnalysisPlan :=
  {| understanding := query;
     approach := EmptyString;
     exploratory_questions := [] |}.

(** Modelled from the spec: the model-backed part of the Planning Stage,
    one call and then parsing.  Either step may fail. *)
Definition plan_attempt (res : Resources) (cfg : Config) (query : string)
  (schema : SchemaContext) : M (result StageError AnalysisPlan) :=
  let* r := generate res cfg (planning_prompt query schema) (temp_planning cfg) in
  ret (match r with
       | Err e => Err (ProviderError e)
       | Ok text =>
           match parse_plan text with
           | Some p => Ok p
           | None => Err ParseError
           end
       end).

(** Modelled from the spec: the propagation policy of section 7; a failure
    is absorbed and replaced with the given default. *)
Definition recover {E A} (default : A) (r : result E A) : A :=
  match r with
  | Ok a => a
  | Err _ => default
  end.

(** Modelled from the spec: the Planning Stage with its failure policy. *)
Definition planning_stage (res : Resources) (cfg : Config) (query : string)
  (schema : SchemaContext) : M AnalysisPlan :=
  let* _ := log EvPlanning in
  let* r := plan_attempt res cfg query schema in
  ret (recover (default_plan query) r).

(** *** Exploration Stage (section 4.3) *)

(** Modelled from the spec: one probe.  A probe that cannot be generated
    or fails to execute is recorded as a step with an error outcome. *)
Definition probe (res : Resources) (cfg : Config) (schema : SchemaContext)
  (question : string) : M ExplorationStep :=
  let* r := generate res cfg (probe_prompt question schema) (temp_sql cfg) in
  match r with
  | Err _ =>
      let o : ExecOutcome :=
        Err {| ee_kind := EUnknown; ee_message := "no probe could be generated" |} in
      ret {| es_question := question;
             es_generated_sql := EmptyString;
             es_outcome := o;
             es_findings := summarize_probe question o |}
  | Ok text =>
      let* o := run_execute res (extract_sql text) (probe_row_limit cfg) (probe_timeout cfg) in
      ret {| es_question := question;
             es_generated_sql := extract_sql text;
             es_outcome := o;
             es_findings := summarize_probe question o |}
  end.

(** Modelled from the spec: the probes of the Exploration Stage, each
    independent of the outcome of the others. *)
Fixpoint explore (res : Resources) (cfg : Config) (schema : SchemaContext)
  (questions : list string) : M (list ExplorationStep) :=
  match questions with
  | [] => ret []
  | q :: rest =>
      let* step := probe res cfg schema q in
      let* steps := explore res cfg schema rest in
      ret (step :: steps)
  end.

(** Modelled from the spec: the stage probes the first three questions of
    the plan, one after the other. *)
Definition exploration_stage (res : Resources) (cfg : Config)
  (schema : SchemaContext) (plan : AnalysisPlan) : M (list ExplorationStep) :=
  let* _ := log EvExploration in
  explore res cfg schema (firstn max_probes (exploratory_questions plan)).

(** *** SQL Generation & Validation Stage (section 4.4) *)

(** Modelled from the spec: static validation.  Empty output, statements
    that are not read queries (those with data-mutating or
    schema-mutating keywords) and names absent from the schema context
    are rejected. *)
Definition validate (schema : SchemaContext) (sql : string) : list ValidationError :=
  (if falsy_string sql
   then [{| ve_kind := VEmptyOutput; ve_message := "the model produced no SQL" |}]
   else []) ++
  (if is_read_only sql
   then []
   else [{| ve_kind := VMutatingKeyword;
            ve_message := "only read queries are permitted" |}]) ++
  map (fun n => {| ve_kind := VUnknownReference; ve_message := n |})
      (List.filter
         (fun n => negb (existsb (String.eqb n) (map cp_name schema)))
         (referenced_names sql)).

(** The error text handed to CORRECT after a validation failure. *)
Definition validation_message (errs : list ValidationError) : string :=
  join "; " (map ve_message errs).

(** Modelled from the spec: the candidate made from one model answer.  The
    specification does not say what a provider failure gives here; it is
    taken to leave the SQL text empty, which validation rejects. *)
Definition new_candidate (r : result ProviderErrorKind string) (n : nat) : CandidateQuery :=
  {| cq_sql := match r with
               | Ok text => extract_sql text
               | Err _ => EmptyString
               end;
     cq_attempt := n;
     cq_validation_errors := [];
     cq_outcome := None |}.

(** The candidate with its validation errors recorded. *)
Definition with_validation_errors (c : CandidateQuery) (errs : list ValidationError)
  : CandidateQuery :=
  {| cq_sql := cq_sql c; cq_attempt := cq_attempt c;
     cq_validation_errors := errs; cq_outcome := cq_outcome c |}.

(** The candidate with its execution outcome recorded. *)
Definition with_outcome (c : CandidateQuery) (o : ExecOutcome) : CandidateQuery :=
  {| cq_sql := cq_sql c; cq_attempt := cq_attempt c;
     cq_validation_errors := cq_validation_errors c; cq_outcome := Some o |}.

(** Modelled from the spec: the states of the machine of section 4.4. *)
Inductive SqlPhase : Type :=
| PhGenerate
| PhValidate (c : CandidateQuery)
| PhExecute (c : CandidateQuery)
| PhCorrect (c : CandidateQuery) (error_message : string)
| PhAccepted (c : CandidateQuery) (rs : ResultSet)
| PhExhausted.

(** Modelled from the spec: the machine, its phase and the candidates
    settled so far (the CandidateQuery sequence), oldest first. *)
Record SqlMachine := {
  phase : SqlPhase;
  history : list CandidateQuery
}.

(** The two terminal phases, accepted and exhausted. *)
Definition is_terminal (p : SqlPhase) : bool :=
  match p with
  | PhAccepted _ _ | PhExhausted => true
  | _ => false
  end.

(** Modelled from the spec: one transition of the machine.  A new
    candidate (by GENERATE or by CORRECT) is only produced while its
    attempt number stays within the configured maximum; otherwise the
    machine ends as exhausted. *)
Definition sql_step (res : Resources) (cfg : Config) (query : string)
  (schema : SchemaContext) (plan : AnalysisPlan) (trail : list ExplorationStep)
  (m : SqlMachine) : M SqlMachine :=
  match phase m with
  | PhGenerate =>
      if (1 <=? max_sql_attempts cfg)%nat then
        let* r := generate res cfg (sql_prompt query schema plan trail) (temp_sql cfg) in
        ret {| phase := PhValidate (new_candidate r 1); history := history m |}
      else ret {| phase := PhExhausted; history := history m |}
  | PhValidate c =>
      match validate schema (cq_sql c) with
      | [] => ret {| phase := PhExecute c; history := history m |}
      | e :: errs =>
          let c' := with_validation_errors c (e :: errs) in
          ret {| phase := PhCorrect c' (validation_message (e :: errs));
                 history := history m ++ [c'] |}
      end
  | PhExecute c =>
      let* o := run_execute res (cq_sql c) (row_limit cfg) (exec_timeout cfg) in
      let c' := with_outcome c o in
      match o with
      | Ok rs => ret {| phase := PhAccepted c' rs; history := history m ++ [c'] |}
      | Err e => ret {| phase := PhCorrect c' (ee_message e); history := history m ++ [c'] |}
      end
  | PhCorrect c msg =>
      if (cq_attempt c + 1 <=? max_sql_attempts cfg)%nat then
        let* r := generate res cfg
                    (correction_prompt (cq_sql c) msg (sql_prompt query schema plan trail))
                    (temp_sql cfg) in
        ret {| phase := PhValidate (new_candidate r (cq_attempt c + 1));
               history := history m |}
      else ret {| phase := PhExhausted; history := history m |}
  | PhAccepted _ _ | PhExhausted => ret m
  end.

(** Modelled from the spec: the retry loop, that is the machine run until
    it reaches a terminal phase, for at most [fuel] transitions. *)
Fixpoint sql_run (fuel : nat) (res : Resources) (cfg : Config) (query : string)
  (schema : SchemaContext) (plan : AnalysisPlan) (trail : list ExplorationStep)
  (m : SqlMachine) : M SqlMachine :=
  match fuel with
  | O => ret m
  | S fuel' =>
      if is_terminal (phase m) then ret m
      else
        let* m' := sql_step res cfg query schema plan trail m in
        sql_run fuel' res cfg query schema plan trail m'
  end.

(** Transitions granted to a run: three per attempt, one to start and one
    to stop. *)
Definition sql_fuel (cfg : Config) : nat := 3 * max_sql_attempts cfg + 2.

(** The machine before GENERATE. *)
Definition sql_start : SqlMachine := {| phase := PhGenerate; history := [] |}.

(** Modelled from the spec: the SQL Generation & Validation Stage, the
    machine run from GENERATE with fuel for every attempt. *)
Definition sql_stage (res : Resources) (cfg : Config) (query : string)
  (schema : SchemaContext) (plan : AnalysisPlan) (trail : list ExplorationStep)
  : M SqlMachine :=
  let* _ := log EvSqlGeneration in
  sql_run (sql_fuel cfg) res cfg query schema plan trail sql_start.

(** Modelled from the spec: [attempts(run)], the highest attempt number
    among the candidates of the run. *)
Definition attempts (m : SqlMachine) : nat :=
  list_max (map cq_attempt (history m)).

(** *** Visualization Selection Stage (section 4.6) *)

(** Equality test on column kinds. *)
Definition ColKind_eqb (a b : ColKind) : bool :=
  match a, b with
  | KCategorical, KCategorical | KNumeric, KNumeric
  | KTemporal, KTemporal | KOther, KOther => true
  | _, _ => false
  end.

(** How many columns are of kind [k]. *)
Definition count_kind (k : ColKind) (ks : list ColKind) : nat :=
  length (List.filter (ColKind_eqb k) ks).

(** Modelled from the spec: the chart kinds the shape of a result set
    calls for.  Two columns, one categorical and one numeric: bar; one
    temporal and one numeric: line; one categorical with few distinct
    values next to its measure: pie; two numeric columns: scatter. *)
Definition applicable_kinds (cfg : Config) (rows : list Row) : list ChartKind :=
  let ks := column_kinds rows in
  let two := Nat.eqb (length ks) 2 in
  let cat := count_kind KCategorical ks in
  let num := count_kind KNumeric ks in
  let tmp := count_kind KTemporal ks in
  (if (two && Nat.eqb cat 1 && Nat.eqb num 1)%bool then [Bar] else []) ++
  (if (two && Nat.eqb tmp 1 && Nat.eqb num 1)%bool then [Line] else []) ++
  (if (two && Nat.eqb cat 1 && Nat.eqb num 1
       && Nat.leb (length rows) (pie_max_slices cfg))%bool then [Pie] else []) ++
  (if (two && Nat.eqb num 2)%bool then [Scatter] else []).

(** The specification of kind [k] with the bindings of the templates. *)
Definition shape_spec (k : ChartKind) (rows : list Row) : VisualizationSpec :=
  {| vs_kind := k; vs_bindings := bindings_for k rows; vs_title := EmptyString |}.

(** Modelled from the spec: what the model-backed selection yields, one to
    three specifications, or a plain table as the degraded default when
    the call or the parsing fails. *)
Definition chosen_specs (r : result ProviderErrorKind string) (rows : list Row)
  : list VisualizationSpec :=
  match r with
  | Ok text =>
      match parse_viz text with
      | Some (s :: specs) => firstn 3 (s :: specs)
      | Some [] | None => [shape_spec Table rows]
      end
  | Err _ => [shape_spec Table rows]
  end.

(** Modelled from the spec: deterministic first.  When exactly one chart
    kind applies it is selected without any model call; otherwise the
    model selects. *)
Definition viz_stage (res : Resources) (cfg : Config) (query : string)
  (rows : list Row) : M (list VisualizationSpec) :=
  let* _ := log (EvVisualization rows) in
  match applicable_kinds cfg rows with
  | [k] => ret [shape_spec k rows]
  | _ =>
      let* r := generate res cfg (viz_prompt query rows) (temp_viz cfg) in
      ret (chosen_specs r rows)
  end.

(** *** Insight Synthesis Stage (section 4.7) *)

(** Modelled from the spec: the degraded default of Insight Synthesis.  It
    says what the stage was given, the number of rows or the absence of
    rows or of a query, and has no finding. *)
Definition degraded_insight (sig : InsightSignal) : Insight :=
  {| in_summary :=
       match sig with
       | SigRows rows =>
           "The query returned " ++ string_of_Z (Z.of_nat (length rows)) ++ " rows."
       | SigNoRows => "No matching rows were found for this question."
       | SigNoQuery => "No data was retrieved: no query could be executed."
       end;
     in_key_findings := [];
     in_detailed_analysis := EmptyString;
     in_recommendations := [] |}.

(** Modelled from the spec: one model call, on the accepted rows or on one
    of the two explicit signals; when the call or the parsing fails the
    degraded default stands in.  What the model writes is returned as it
    is parsed: that it fabricates no number when there is no row is asked
    of it through the prompt and is not checked here. *)
Definition insight_stage (res : Resources) (cfg : Config) (query : string)
  (plan : AnalysisPlan) (trail : list ExplorationStep) (sig : InsightSignal)
  : M Insight :=
  let* _ := log (EvInsight sig) in
  let* r := generate res cfg (insight_prompt query plan sig trail) (temp_insight cfg) in
  ret (match r with
       | Ok text =>
           match parse_insight text with
           | Some i => i
           | None => degraded_insight sig
           end
       | Err _ => degraded_insight sig
       end).

(** *** Pipeline Orchestrator (sections 4.8 and 7) *)

(** Modelled from the spec: what the first three stages of a PipelineRun
    hand to the rest of the run. *)
Record Evidence := {
  ev_plan : AnalysisPlan;
  ev_trail : list ExplorationStep;
  ev_sql : SqlMachine
}.

(** Modelled from the spec: the head of the orchestrator, Planning then
    Exploration then SQL generation, each fed with the output of the
    stages before it (section 2). *)
Definition gather (res : Resources) (cfg : Config) (query : string)
  (schema : SchemaContext) : M Evidence :=
  let* plan := planning_stage res cfg query schema in
  let* trail := exploration_stage res cfg schema plan in
  let* m := sql_stage res cfg query schema plan trail in
  ret {| ev_plan := plan; ev_trail := trail; ev_sql := m |}.

(** Modelled from the spec: the end of the run.  An accepted query with
    rows goes through visualization and insight; an accepted query without
    rows skips visualization and gives the insight stage the no-rows
    signal; without an accepted query the run is partial, or failed when
    no provider ever answered. *)
Definition assemble (res : Resources) (cfg : Config) (query : string)
  (e : Evidence) : M Payload :=
  match phase (ev_sql e) with
  | PhAccepted c rs =>
      match rs_rows rs with
      | [] =>
          let* ins := insight_stage res cfg query (ev_plan e) (ev_trail e) SigNoRows in
          ret {| natural_language_query := query;
                 generated_sql := Some (cq_sql c);
                 result_data := Some [];
                 visualization_specs := [];
                 insights := Some ins;
                 analysis_plan := Some (ev_plan e);
                 exploration_trail := Some (ev_trail e);
                 status := Success;
                 message := None |}
      | r :: rows =>
          let* specs := viz_stage res cfg query (r :: rows) in
          let* ins := insight_stage res cfg query (ev_plan e) (ev_trail e)
                        (SigRows (r :: rows)) in
          ret {| natural_language_query := query;
                 generated_sql := Some (cq_sql c);
                 result_data := Some (r :: rows);
                 visualization_specs := specs;
                 insights := Some ins;
                 analysis_plan := Some (ev_plan e);
                 exploration_trail := Some (ev_trail e);
                 status := Success;
                 message := None |}
      end
  | _ =>
      let* ins := insight_stage res cfg query (ev_plan e) (ev_trail e) SigNoQuery in
      let* answered := get_provider_ok in
      ret {| natural_language_query := query;
             generated_sql := None;
             result_data := None;
             visualization_specs := [];
             insights := if answered then Some ins else None;
             analysis_plan := Some (ev_plan e);
             exploration_trail := Some (ev_trail e);
             status := if answered then Partial else Failed;
             message := Some (if answered
                              then "no query could be executed"
                              else "the model providers are unavailable") |}
  end.

(** Modelled from the spec: the Pipeline Orchestrator, a whole run. *)
Definition run_pipeline (res : Resources) (cfg : Config) (query : string)
  (schema : SchemaContext) : M Payload :=
  let* e := gather res cfg query schema in
  assemble res cfg query e.

(** Modelled from the spec: a PipelineRun is created at request start,
    with no call made, an empty trace and the dataset as it is in the
    store. *)
Definition initial_state (db : Db) : RunState :=
  {| run_calls := 0;
     run_store := {| st_db := db; st_reached := [] |};
     run_provider_ok := false;
     run_trace := [] |}.

(** Modelled from the spec: [analyze], one request from start to
    response. *)
Definition analyze (res : Resources) (cfg : Config) (query : string)
  (schema : SchemaContext) (db : Db) : Payload * RunState :=
  run_pipeline res cfg query schema (initial_state db).

(** The evidence gathered by the first three stages of the same
    request. *)
Definition evidence (res : Resources) (cfg : Config) (query : string)
  (schema : SchemaContext) (db : Db) : Evidence :=
  fst (gather res cfg query schema (initial_state db)).

End Stages.

(** The model call of the Planning Stage fails, or its output does not
    parse, when it is the call number [n] of the run. *)
Definition planning_fails `{Templates} (res : Resources) (cfg : Config)
  (query : string) (schema : SchemaContext) (n : nat) : Prop :=
  match generate_with (providers res) n (planning_prompt query schema)
          (temp_planning cfg) (max_tokens cfg) with
  | Err _ => True
  | Ok text => parse_plan text = None
  end.

(** *** Notions used to state the properties of Part II *)

(** [c] adds the events [l] to the trace of the run, and no other. *)
Definition appends {A} (c : M A) (l : list Event) : Prop :=
  forall s, run_trace (snd (c s)) = (run_trace s ++ l)%list.

(** A candidate that did not make it: validation rejected it or its
    execution ended in an error. *)
Definition failed (c : CandidateQuery) : Prop :=
  cq_validation_errors c <> [] \/ exists e, cq_outcome c = Some (Err e).

(** A candidate as it leaves GENERATE or CORRECT. *)
Definition fresh (c : CandidateQuery) : Prop :=
  cq_validation_errors c = [] /\ cq_outcome c = None.

(** Transitions left, at most, before the machine stops. *)
Definition sql_measure (cfg : Config) (m : SqlMachine) : nat :=
  match phase m with
  | PhGenerate => 3 * max_sql_attempts cfg + 2
  | PhValidate c => 3 * (max_sql_attempts cfg - cq_attempt c) + 3
  | PhExecute c => 3 * (max_sql_attempts cfg - cq_attempt c) + 2
  | PhCorrect c _ => 3 * (max_sql_attempts cfg - cq_attempt c) + 1
  | PhAccepted _ _ | PhExhausted => 0
  end.

(** What holds of the machine at every moment of a run. *)
Definition sql_inv (cfg : Config) (m : SqlMachine) : Prop :=
  let n := length (history m) in
  map cq_attempt (history m) = seq 1 n /\
  (n <= max_sql_attempts cfg)%nat /\
  match phase m with
  | PhGenerate => history m = []
  | PhValidate c | PhExecute c =>
      cq_attempt c = (n + 1)%nat /\ (n + 1 <= max_sql_attempts cfg)%nat /\
      fresh c /\ Forall failed (history m)
  | PhCorrect c _ => cq_attempt c = n /\ Forall failed (history m)
  | PhAccepted c rs =>
      exists h, history m = (h ++ [c])%list /\ Forall failed h /\
                cq_validation_errors c = [] /\ cq_outcome c = Some (Ok rs)
  | PhExhausted => n = max_sql_attempts cfg /\ Forall failed (history m)
  end.

(** The events the end of a run adds, read off the evidence. *)
Definition closing_events (e : Evidence) : list Event :=
  match phase (ev_sql e) with
  | PhAccepted _ rs =>
      match rs_rows rs with
      | [] => [EvInsight SigNoRows]
      | r :: rows => [EvVisualization (r :: rows); EvInsight (SigRows (r :: rows))]
      end
  | _ => [EvInsight SigNoQuery]
  end.

End Pipeline.

(** ** Sample inputs used by the examples of Part II *)

Module Samples.
Import Js.
Local Open Scope list_scope.

(** *** A runtime for the examples *)

(** A fraction [m / 2^k] in lowest terms. *)
Fixpoint lowest_terms (m : positive) (k : nat) : positive * nat :=
  match k, m with
  | S k', xO m' => lowest_terms m' k'
  | _, _ => (m, k)
  end.

(** The decimal digits of a natural number. *)
Definition digits (n : N) : jsstring := lit (string_of_Z (Z.of_N n)).

(** Prints the integers in decimal and the other finite numbers by their
    exact decimal expansion.  That is what the runtime prints for the
    integers below 10^21 and for short fractions such as 12.5, the numbers
    of the examples; it is not the runtime's shortest form in general. *)
Definition print_number (x : number) : jsstring :=
  match x with
  | S754_zero _ => lit "0"
  | S754_nan => lit "NaN"
  | S754_infinity s => (if s then lit "-" else []) ++ lit "Infinity"
  | S754_finite s m e =>
      (if s then lit "-" else []) ++
      match e with
      | Zneg k =>
          let '(m', k') := lowest_terms m (Pos.to_nat k) in
          let scaled := (Npos m' * 5 ^ N.of_nat k')%N in
          let whole := (scaled / 10 ^ N.of_nat k')%N in
          let part := digits (scaled mod 10 ^ N.of_nat k')%N in
          match k' with
          | O => digits whole
          | S _ => digits whole ++ lit "." ++ repeat 48%N (k' - length part) ++ part
          end
      | _ => digits (Npos m * 2 ^ Z.to_N e)%N
      end
  end.

(** The capital letters of Basic Latin, Latin-1 and Greek, and the letters
    of these alphabets. *)
Definition is_capital (u : N) : bool :=
  ((65 <=? u) && (u <=? 90) || (192 <=? u) && (u <=? 214)
   || (216 <=? u) && (u <=? 222) || (913 <=? u) && (u <=? 929)
   || (931 <=? u) && (u <=? 939))%N%bool.

Definition is_letter (u : N) : bool :=
  (is_capital u || (97 <=? u) && (u <=? 122) || (u =? 170) || (u =? 181)
   || (u =? 186) || (223 <=? u) && (u <=? 246) || (248 <=? u) && (u <=? 255)
   || (940 <=? u) && (u <=? 974))%N%bool.

(** Lowers the capital letters above, each to the letter 32 places
    further; a capital sigma (931) that ends a word, that is one that
    follows a letter and is not followed by one, becomes the final sigma
    (962) instead of the sigma (963).  On text written with these letters,
    digits and blanks this is the lowering of the runtime. *)
Fixpoint lower_from (after_letter : bool) (s : jsstring) : jsstring :=
  match s with
  | [] => []
  | u :: rest =>
      (if (u =? 931)%N then
         if (after_letter
             && negb match rest with v :: _ => is_letter v | [] => false end)%bool
         then 962%N else 963%N
       else if is_capital u then (u + 32)%N else u)
      :: lower_from (is_letter u) rest
  end.

(** The runtime of the examples. *)
Definition sample_runtime : Runtime.
Proof.
  refine {| Number_toString := print_number; toLowerCase := lower_from false |}.
  - intros [|u s]; [reflexivity | discriminate].
  - intros s. generalize false. induction s as [|u s IH]; intros b Hs; [reflexivity|].
    cbn [forallb] in Hs. apply andb_true_iff in Hs as [Hu Hs].
    cbn [lower_from map]. rewrite (IH _ Hs). f_equal.
    unfold is_ascii in Hu. apply N.ltb_lt in Hu.
    destruct (N.eqb_spec u 931) as [->|_]; [lia|].
    unfold is_capital, lower_ascii.
    repeat match goal with
           | |- context [(?a <=? ?b)%N] => destruct (N.leb_spec a b)
           end; cbn [andb orb]; solve [reflexivity | lia].
Defined.

(** *** Datasets *)

Definition sample_rows : list DataViewPage.Row :=
  [ [(lit "region", Str (lit "North")); (lit "units", Num (number_of_Z 12))];
    [(lit "region", Str (lit "South")); (lit "units", Num (number_of_Z 7))] ].

Definition sample_dataset : DataViewPage.Dataset :=
  {| DataViewPage.name := lit "sales";
     DataViewPage.row_count := Some (number_of_Z 2);
     DataViewPage.column_count := Some (number_of_Z 2);
     DataViewPage.sample_data := Some sample_rows;
     DataViewPage.columns := [lit "region"; lit "units"] |}.

(** A dataset with the given rows. *)
Definition dataset_of (rows : list DataViewPage.Row) : DataViewPage.Dataset :=
  {| DataViewPage.name := lit "sample";
     DataViewPage.row_count := None;
     DataViewPage.column_count := None;
     DataViewPage.sample_data := Some rows;
     DataViewPage.columns := [] |}.

(** A city whose name starts with a capital E with acute accent (201),
    weighed 12.5, that is 25 halves, and a cell without value. *)
Definition city_rows : list DataViewPage.Row :=
  [ [(lit "city", Str (201%N :: lit "cole"));
     (lit "weight", Num (S754_finite false 25 (-1)));
     (lit "note", Null)] ].

(** The same name with a small e with acute accent (233). *)
Definition ecole_small : jsstring := 233%N :: lit "cole".

(** The Greek capitals alpha, sigma, alpha, and alpha, sigma alone. *)
Definition alpha_sigma_alpha : jsstring := [913; 931; 913]%N.
Definition alpha_sigma : jsstring := [913; 931]%N.

Definition greek_rows : list DataViewPage.Row :=
  [ [(lit "word", Str alpha_sigma_alpha)] ].

(** The no-break space (160). *)
Definition nbsp : jsstring := [160%N].

(** *** Forms *)

Definition fresh_form (pw confirm : jsstring) : ResetPasswordPage.State :=
  {| ResetPasswordPage.token := Some (lit "tok");
     ResetPasswordPage.newPassword := pw;
     ResetPasswordPage.confirmPassword := confirm;
     ResetPasswordPage.loading := false;
     ResetPasswordPage.validating := false;
     ResetPasswordPage.tokenValid := true;
     ResetPasswordPage.success := false;
     ResetPasswordPage.error := [] |}.

(** Three small e with acute accent: three code units. *)
Definition three_accents : jsstring := [233; 233; 233]%N.

(** *** The active datasets *)

Definition two_datasets : ActiveDatasetsPage.State :=
  {| ActiveDatasetsPage.datasets :=
       [ {| ActiveDatasetsPage.id := 4; ActiveDatasetsPage.name := "orders";
            ActiveDatasetsPage.row_count := Some 120;
            ActiveDatasetsPage.created_at := "2026-01-03" |};
         {| ActiveDatasetsPage.id := 9; ActiveDatasetsPage.name := "customers";
            ActiveDatasetsPage.row_count := None;
            ActiveDatasetsPage.created_at := "2026-01-04" |} ];
     ActiveDatasetsPage.activeDatasetIds := [4; 9];
     ActiveDatasetsPage.loading := false |}.

Definition two_datasets_browser : ActiveDatasetsPage.Browser :=
  {| ActiveDatasetsPage.localStorage := {[ "activeDatasets" := "[4,9]"; "theme" := "dark" ]};
     ActiveDatasetsPage.dispatched := [] |}.

End Samples.

(** ** Sample inputs for the storage and the pipeline *)

Module PipelineSamples.
Import Js.

(** A small world for the pipeline: templates that tag each prompt with
    its stage, a model that answers by stage, and an engine that knows
    three statements. *)

Definition kind_of_cell (v : Pipeline.Cell) : Pipeline.ColKind :=
  match v with
  | Pipeline.CellNumber _ => Pipeline.KNumeric
  | Pipeline.CellText _ => Pipeline.KCategorical
  | Pipeline.CellNull => Pipeline.KOther
  end.

(** The statements the sample gateway takes for read queries: those that
    start with SELECT. *)
Definition starts_with_select (sql : string) : bool := String.prefix "SELECT " sql.

Definition stub_templates : Pipeline.Templates :=
  {| Pipeline.planning_prompt := fun q _ => "PLAN " ++ q;
     Pipeline.probe_prompt := fun q _ => "PROBE " ++ q;
     Pipeline.sql_prompt := fun q _ _ _ => "SQL " ++ q;
     Pipeline.correction_prompt := fun sql _ _ => "FIX " ++ sql;
     Pipeline.viz_prompt := fun q _ => "VIZ " ++ q;
     Pipeline.insight_prompt := fun q _ sig _ =>
       match sig with
       | Pipeline.SigRows _ => "INSIGHT " ++ q
       | Pipeline.SigNoRows => "NO ROWS " ++ q
       | Pipeline.SigNoQuery => "NO QUERY " ++ q
       end;
     Pipeline.parse_plan := fun text =>
       if String.prefix "{" text then
         Some {| Pipeline.understanding := "units sold by region";
                 Pipeline.approach := "aggregate by region";
                 Pipeline.exploratory_questions := ["how many sales are there?"] |}
       else None;
     Pipeline.extract_sql := fun text => text;
     Pipeline.parse_viz := fun _ => None;
     Pipeline.parse_insight := fun text =>
       if String.prefix "#" text then
         Some {| Pipeline.in_summary := text;
                 Pipeline.in_key_findings :=
                   [ {| Pipeline.f_statement := "North sold the most";
                        Pipeline.f_numbers := [12] |} ];
                 Pipeline.in_detailed_analysis := EmptyString;
                 Pipeline.in_recommendations := [] |}
       else None;
     Pipeline.is_read_only := starts_with_select;
     Pipeline.referenced_names := fun _ => [];
     Pipeline.summarize_probe := fun _ o =>
       match o with
       | Pipeline.Ok _ => "the probe returned rows"
       | Pipeline.Err e => Pipeline.ee_message e
       end;
     Pipeline.column_kinds := fun rows =>
       match rows with
       | r :: _ => map (fun kv => kind_of_cell (snd kv)) r
       | [] => []
       end;
     Pipeline.bindings_for := fun _ _ => [] |}.

(** Answers the SQL prompt with [first] and every correction prompt with
    [fixed]. *)
Definition stub_model (first fixed : string) : Pipeline.Provider :=
  fun _ prompt _ _ =>
    if String.prefix "PLAN " prompt then Pipeline.Ok "{plan}"
    else if String.prefix "PROBE " prompt then Pipeline.Ok "SELECT COUNT(*) FROM sales"
    else if String.prefix "SQL " prompt then Pipeline.Ok first
    else if String.prefix "FIX " prompt then Pipeline.Ok fixed
    else if String.prefix "INSIGHT " prompt then Pipeline.Ok "# North leads with 12 units"
    else Pipeline.Err Pipeline.PUnavailable.

(** Answers the planning prompt with text that is not a plan, and every
    other prompt as [stub_model good_sql good_sql] does. *)
Definition garbled_planner : Pipeline.Provider :=
  fun n prompt t limit =>
    if String.prefix "PLAN " prompt then Pipeline.Ok "I would rather not."
    else stub_model "SELECT region, units FROM sales" "SELECT region, units FROM sales"
           n prompt t limit.

Definition down : Pipeline.Provider :=
  fun _ _ _ _ => Pipeline.Err Pipeline.PUnavailable.

Definition good_sql : string := "SELECT region, units FROM sales".
Definition bad_sql : string := "SELECT region, unitz FROM sales".
Definition empty_sql : string := "SELECT region, units FROM sales WHERE units > 100".

Definition sales_rows : list Pipeline.Row :=
  [ [("region", Pipeline.CellText "North"); ("units", Pipeline.CellNumber 12)];
    [("region", Pipeline.CellText "South"); ("units", Pipeline.CellNumber 7)] ].

Definition stub_engine : Pipeline.Engine :=
  fun db sql _ =>
    if String.eqb sql good_sql then
      (Pipeline.EngineRows (default [] (db !! "sales")), db)
    else if String.eqb sql "SELECT COUNT(*) FROM sales" then
      (Pipeline.EngineRows
         [[("count", Pipeline.CellNumber (Z.of_nat (length (default [] (db !! "sales")))))]], db)
    else if String.eqb sql empty_sql then (Pipeline.EngineRows [], db)
    else (Pipeline.EngineFailure Pipeline.ESyntax "no such column", db).

Definition stub_resources (first fixed : string) : Pipeline.Resources :=
  {| Pipeline.providers := [stub_model first fixed];
     Pipeline.engine := stub_engine |}.

Definition garbled_resources : Pipeline.Resources :=
  {| Pipeline.providers := [garbled_planner];
     Pipeline.engine := stub_engine |}.

Definition dead_resources : Pipeline.Resources :=
  {| Pipeline.providers := [down; down];
     Pipeline.engine := stub_engine |}.

Definition sales_db : Pipeline.Db := {[ "sales" := sales_rows ]}.

Definition sales_schema : Pipeline.SchemaContext :=
  [ {| Pipeline.cp_name := "region"; Pipeline.cp_declared_type := "TEXT";
       Pipeline.cp_semantic := Pipeline.SemCategorical;
       Pipeline.cp_samples := [Pipeline.CellText "North"; Pipeline.CellText "South"];
       Pipeline.cp_stats := None; Pipeline.cp_null_ratio := 0%Q |};
    {| Pipeline.cp_name := "units"; Pipeline.cp_declared_type := "INTEGER";
       Pipeline.cp_semantic := Pipeline.SemNumeric;
       Pipeline.cp_samples := [Pipeline.CellNumber 12; Pipeline.CellNumber 7];
       Pipeline.cp_stats := None; Pipeline.cp_null_ratio := 0%Q |} ].

(** The default configuration with pie charts kept for a single slice, so
    that a categorical and a numeric column call for a bar chart only. *)
Definition bar_config : Pipeline.Config :=
  {| Pipeline.temp_planning := Pipeline.temp_planning Pipeline.default_config;
     Pipeline.temp_sql := Pipeline.temp_sql Pipeline.default_config;
     Pipeline.temp_viz := Pipeline.temp_viz Pipeline.default_config;
     Pipeline.temp_insight := Pipeline.temp_insight Pipeline.default_config;
     Pipeline.max_sql_attempts := 3;
     Pipeline.row_limit := 1000;
     Pipeline.exec_timeout := 30;
     Pipeline.probe_row_limit := 50;
     Pipeline.probe_timeout := 5;
     Pipeline.max_tokens := 2048;
     Pipeline.pie_max_slices := 1 |}.

Definition sample_query : string := "units by region".

Definition run_sample (res : Pipeline.Resources) (cfg : Pipeline.Config)
  : Pipeline.Payload * Pipeline.RunState :=
  @Pipeline.analyze stub_templates res cfg sample_query sales_schema sales_db.

End PipelineSamples.

(** ** Sample inputs for the other pages *)

Module PageSamples.
Import Js.
Local Open Scope list_scope.

(** The data view once the sample dataset is loaded. *)
Definition loaded_view : DataViewScreen.PageState :=
  {| DataViewScreen.dataset := Some Samples.sample_dataset;
     DataViewScreen.loading := false;
     DataViewScreen.searchQuery := [] |}.

(** A data endpoint that knows dataset 7 only; its [dataset_info] carries
    stale rows of its own. *)
Definition data_api : jsstring -> DataViewScreen.GetOutcome :=
  fun url =>
    if eqb url (lit "/datasets/7/data") then
      DataViewScreen.Got
        {| DataViewScreen.dataset_info :=
             {| DataViewPage.name := lit "sales";
                DataViewPage.row_count := Some (number_of_Z 2);
                DataViewPage.column_count := Some (number_of_Z 2);
                DataViewPage.sample_data := Some [ [(lit "stale", Null)] ];
                DataViewPage.columns := [lit "stale"] |};
           DataViewScreen.data := DataViewPage.sample_data Samples.sample_dataset;
           DataViewScreen.resp_columns := [lit "region"; lit "units"] |}
    else DataViewScreen.GetFailed.

(** The chat page with conversation 41 open on dataset 3 and a question
    typed. *)
Definition chat_ready : AnalyticsChat.PageState :=
  {| AnalyticsChat.core :=
       {| AnalyticsPage.query := lit "units by region";
          AnalyticsPage.messages := [];
          AnalyticsPage.loading := false;
          AnalyticsPage.currentConversation :=
            Some {| AnalyticsPage.conversation_id := 41 |} |};
     AnalyticsChat.datasets :=
       [ {| AnalyticsChat.ds_id := 3; AnalyticsChat.ds_name := "sales" |};
         {| AnalyticsChat.ds_id := 5; AnalyticsChat.ds_name := "stock" |} ];
     AnalyticsChat.selectedDataset := Some 3;
     AnalyticsChat.sidebarOpen := true |}.

Definition plain_reply : AnalyticsPage.SendOutcome :=
  AnalyticsPage.Sent
    {| AnalyticsPage.md_content := Str (lit "North leads.");
       AnalyticsPage.md_query_data := None |}.

Definition two_options : list AnalyticsChat.DatasetOption :=
  [ {| AnalyticsChat.ds_id := 3; AnalyticsChat.ds_name := "sales" |};
    {| AnalyticsChat.ds_id := 5; AnalyticsChat.ds_name := "stock" |} ].

(** A verification endpoint that accepts the token [good] only. *)
Definition verify_api : jsstring -> ResetPasswordFlow.VerifyOutcome :=
  fun url =>
    ResetPasswordFlow.Verified (eqb url (lit "/auth/verify-reset-token/good")).

Definition listed_datasets : list ActiveDatasetsPage.DatasetEntry :=
  [ {| ActiveDatasetsPage.id := 9; ActiveDatasetsPage.name := "customers";
       ActiveDatasetsPage.row_count := None;
       ActiveDatasetsPage.created_at := "2026-01-04" |};
    {| ActiveDatasetsPage.id := 2; ActiveDatasetsPage.name := "archive";
       ActiveDatasetsPage.row_count := Some 5;
       ActiveDatasetsPage.created_at := "2025-12-30" |};
    {| ActiveDatasetsPage.id := 4; ActiveDatasetsPage.name := "orders";
       ActiveDatasetsPage.row_count := Some 120;
       ActiveDatasetsPage.created_at := "2026-01-03" |} ].

Definition empty_active : ActiveDatasetsPage.State :=
  {| ActiveDatasetsPage.datasets := [];
     ActiveDatasetsPage.activeDatasetIds := [];
     ActiveDatasetsPage.loading := true |}.


End PageSamples.
(* ===================================================================== *)
(** * Part II.  Properties                                                *)
(* ===================================================================== *)

(** ** Lists and strings *)

Section ListFacts.

Lemma filter_sublist {A} (f : A -> bool) (l : list A) : sublist (List.filter f l) l.
Proof.
  induction l as [|x l IH]; simpl; [constructor|].
  destruct (f x); now constructor.
Qed.

Lemma filter_all {A} (l : list A) : List.filter (fun _ => true) l = l.
Proof. induction l as [|x l IH]; simpl; [reflexivity | now rewrite IH]. Qed.

End ListFacts.

Section StringFacts.
Import Js.
Local Open Scope list_scope.

Lemma falsy_string_iff (s : string) : falsy_string s = true <-> s = EmptyString.
Proof. unfold falsy_string. apply String.eqb_eq. Qed.

Lemma falsy_iff (s : jsstring) : falsy s = true <-> s = [].
Proof. destruct s; cbn; split; congruence. Qed.

Lemma falsy_false_iff (s : jsstring) : falsy s = false <-> s <> [].
Proof. destruct s; cbn; split; congruence. Qed.

Lemma eqb_eq (a b : jsstring) : eqb a b = true <-> a = b.
Proof.
  revert b; induction a as [|x a IH]; intros [|y b]; cbn [eqb];
    try (split; congruence).
  rewrite andb_true_iff, IH, N.eqb_eq. split.
  - now intros [-> ->].
  - intros [= -> ->]. now split.
Qed.

Lemma eqb_neq (a b : jsstring) : eqb a b = false <-> a <> b.
Proof. rewrite <- not_true_iff_false, eqb_eq. reflexivity. Qed.

Lemma eqb_spec_dec (a b : jsstring) : a = b \/ a <> b.
Proof.
  destruct (eqb a b) eqn:Hab; [left; now apply eqb_eq | right; now apply eqb_neq].
Qed.

Lemma startsWith_iff (s q : jsstring) :
  startsWith s q = true <-> exists post, s = q ++ post.
Proof.
  revert s; induction q as [|a q IH]; intros s.
  - split; [intros _; now exists s | intros _; now destruct s].
  - destruct s as [|b s]; cbn [startsWith].
    + split; [discriminate | intros [post Hp]; discriminate].
    + rewrite andb_true_iff, IH, N.eqb_eq. split.
      * intros [-> [post ->]]. now exists post.
      * intros [post [= -> ->]]. split; [reflexivity | now exists post].
Qed.

Lemma includes_iff (s q : jsstring) :
  includes s q = true <-> exists pre post, s = pre ++ q ++ post.
Proof.
  induction s as [|c s IH]; cbn [includes].
  - rewrite orb_false_r, startsWith_iff. split.
    + intros [post Hp]. now exists [], post.
    + intros (pre & post & Hp). destruct pre; [now exists post | discriminate].
  - rewrite orb_true_iff, startsWith_iff, IH. split.
    + intros [[post Hp] | (pre & post & Hp)].
      * now exists [], post.
      * exists (c :: pre), post. cbn. now rewrite Hp.
    + intros (pre & post & Hp). destruct pre as [|c' pre].
      * left. now exists post.
      * right. injection Hp as -> ->. now exists pre, post.
Qed.

Lemma includes_trans (s q' q : jsstring) :
  includes s q' = true -> includes q' q = true -> includes s q = true.
Proof.
  rewrite !includes_iff. intros (a & b & ->) (c & d & ->).
  exists (a ++ c), (d ++ b). now rewrite <- !app_assoc.
Qed.

Lemma includes_empty (s : jsstring) : includes s [] = true.
Proof. apply includes_iff. now exists [], s. Qed.

(** *** White space *)

Lemma trim_start_blank (s : jsstring) :
  trim_start s = [] <-> forallb is_white_space s = true.
Proof.
  induction s as [|u s IH]; cbn [trim_start forallb]; [tauto|].
  destruct (is_white_space u); cbn [andb]; [exact IH | split; discriminate].
Qed.

Lemma trim_start_white (s : jsstring) :
  forallb is_white_space s = true -> forallb is_white_space (trim_start s) = true.
Proof. intros Hs. now rewrite (proj2 (trim_start_blank s) Hs). Qed.

Lemma trim_start_suffix (s : jsstring) :
  exists pre, s = pre ++ trim_start s /\ forallb is_white_space pre = true.
Proof.
  induction s as [|u s (pre & IH & Hpre)]; cbn [trim_start].
  - now exists [].
  - destruct (is_white_space u) eqn:Hu.
    + exists (u :: pre). cbn. now rewrite <- IH, Hu.
    + now exists [].
Qed.

(** [!s.trim()] holds exactly of the strings made of white space only. *)
Lemma blank_iff (s : jsstring) :
  AnalyticsPage.blank s = true <-> forallb is_white_space s = true.
Proof.
  unfold AnalyticsPage.blank, trim, trim_end. rewrite falsy_iff. split.
  - intros Hnil. assert (Hr : trim_start (rev (trim_start s)) = []).
    { now rewrite <- (rev_involutive (trim_start _)), Hnil. }
    apply trim_start_blank in Hr. rewrite forallb_forall in Hr.
    destruct (trim_start_suffix s) as (pre & Hs & Hpre).
    rewrite Hs, forallb_app, Hpre. cbn [andb].
    apply forallb_forall. intros u Hu. apply Hr. now apply in_rev in Hu.
  - intros Hs. rewrite (proj2 (trim_start_blank s) Hs). reflexivity.
Qed.

(** *** ASCII letters *)

Lemma lower_ascii_same_letter (x y : N) :
  lower_ascii x = lower_ascii y <-> DataViewPage.same_letter x y.
Proof.
  unfold lower_ascii, DataViewPage.same_letter.
  destruct (N.leb_spec 65 x), (N.leb_spec x 90), (N.leb_spec 65 y), (N.leb_spec y 90);
    cbn [andb]; lia.
Qed.

Lemma map_lower_same (a b : jsstring) :
  map lower_ascii a = map lower_ascii b <-> DataViewPage.same_up_to_ascii_case a b.
Proof.
  unfold DataViewPage.same_up_to_ascii_case.
  revert b; induction a as [|x a IH]; intros [|y b]; cbn [map].
  - split; [constructor | reflexivity].
  - split; [discriminate | intros Hf; inversion Hf].
  - split; [discriminate | intros Hf; inversion Hf].
  - split.
    + intros [= Hxy Hab]. constructor; [now apply lower_ascii_same_letter | now apply IH].
    + intros Hf. inversion Hf as [|? ? ? ? Hxy Hab]; subst.
      apply lower_ascii_same_letter in Hxy. apply IH in Hab. congruence.
Qed.

(** On lowered ASCII text, [includes] is containment up to the case of
    letters. *)
Lemma includes_map_lower (s q : jsstring) :
  includes (map lower_ascii s) (map lower_ascii q) = true <->
  DataViewPage.contains_up_to_ascii_case s q.
Proof.
  rewrite includes_iff. unfold DataViewPage.contains_up_to_ascii_case. split.
  - intros (x & y & Hxy).
    apply List.map_eq_app in Hxy as (pre & rest & -> & <- & Hrest).
    apply List.map_eq_app in Hrest as (mid & post & -> & Hmid & <-).
    exists pre, mid, post. split; [reflexivity | now apply map_lower_same].
  - intros (pre & mid & post & -> & Hmid). apply map_lower_same in Hmid.
    exists (map lower_ascii pre), (map lower_ascii post).
    now rewrite !map_app, Hmid.
Qed.

End StringFacts.

(** ** The data-view filter *)

Section DataViewFacts.
Import Js DataViewPage.
Local Open Scope list_scope.
Context `{Runtime}.

Lemma toLowerCase_empty : toLowerCase [] = [].
Proof. now rewrite toLowerCase_ascii. Qed.

Lemma toLowerCase_empty_iff (s : jsstring) : toLowerCase s = [] <-> s = [].
Proof.
  split; [apply toLowerCase_nonempty | intros ->; apply toLowerCase_empty].
Qed.

Lemma includes_lowered_iff (s q : jsstring) :
  includes (toLowerCase s) (toLowerCase q) = true <-> occurs_lowered s q.
Proof. apply includes_iff. Qed.

Lemma row_matches_iff (q : jsstring) (row : Row) :
  row_matches q row = true <->
  q = [] \/ exists v, In v (Object_values row) /\ occurs_lowered (String_ v) q.
Proof.
  unfold row_matches. destruct (falsy q) eqn:Hq.
  - apply falsy_iff in Hq. tauto.
  - apply falsy_false_iff in Hq. rewrite existsb_exists. split.
    + intros (v & Hv & Hin). right. exists v. now rewrite <- includes_lowered_iff.
    + intros [-> | (v & Hv & Hin)]; [contradiction|].
      exists v. now rewrite includes_lowered_iff.
Qed.

(** On ASCII text the test of the code is containment up to the case of
    letters. *)
Lemma occurs_lowered_ascii (s q : jsstring) :
  forallb is_ascii s = true -> forallb is_ascii q = true ->
  occurs_lowered s q <-> contains_up_to_ascii_case s q.
Proof.
  intros Hs Hq. rewrite <- includes_lowered_iff, !toLowerCase_ascii by assumption.
  apply includes_map_lower.
Qed.

Lemma row_shown_by_cell (q : jsstring) (row : Row) (k : jsstring) (v : value) :
  In (k, v) row -> occurs_lowered (String_ v) q -> row_matches q row = true.
Proof.
  intros Hin Hocc. apply row_matches_iff. right. exists v. split; [|exact Hocc].
  unfold Object_values. apply in_map_iff. now exists (k, v).
Qed.

(** C8, as amended.  In the data-view table, a loaded row is displayed
    exactly when the search text is empty or, for one of the row's values,
    the text of the value ([String(value)]) lowered as a whole contains
    the search text lowered as a whole.  For a search text and values
    written in ASCII this is to say that the text of a value contains the
    search text up to the case of letters.  So a row is displayed when a
    text cell, the printed form of a number cell, or the word null for a
    cell without value, contains the search text in that sense.  With an
    empty search text the displayed rows are the loaded rows, unchanged
    and in order, and in every case the displayed rows keep the order of
    the loaded ones. *)
Theorem filteredData_spec (dataset : Dataset) (rows : list Row) (searchQuery : jsstring) :
  sample_data dataset = Some rows ->
  (forall row,
      In row (filteredData dataset searchQuery) <->
      In row rows /\
      (searchQuery = [] \/
       exists v, In v (Object_values row) /\ occurs_lowered (String_ v) searchQuery)) /\
  (forallb is_ascii searchQuery = true ->
   forall row,
     (forall v, In v (Object_values row) -> forallb is_ascii (String_ v) = true) ->
     (In row (filteredData dataset searchQuery) <->
      In row rows /\
      (searchQuery = [] \/
       exists v, In v (Object_values row) /\
                 contains_up_to_ascii_case (String_ v) searchQuery))) /\
  (forall row k, In row rows ->
     (forall s, In (k, Str s) row -> occurs_lowered s searchQuery ->
                In row (filteredData dataset searchQuery)) /\
     (forall n, In (k, Num n) row -> occurs_lowered (Number_toString n) searchQuery ->
                In row (filteredData dataset searchQuery)) /\
     (In (k, Null) row -> occurs_lowered (lit "null") searchQuery ->
      In row (filteredData dataset searchQuery))) /\
  filteredData dataset [] = rows /\
  sublist (filteredData dataset searchQuery) rows.
Proof.
  intros Hrows. unfold filteredData. rewrite Hrows.
  split; [|split; [|split; [|split]]].
  - intros row. rewrite filter_In, row_matches_iff. reflexivity.
  - intros Hq row Hvals. rewrite filter_In, row_matches_iff.
    split; intros [Hin [Hempty | (v & Hv & Hocc)]]; split; auto; right;
      exists v; (split; [exact Hv|]);
      now apply (occurs_lowered_ascii (String_ v) searchQuery (Hvals v Hv) Hq).
  - intros row k Hin. repeat split.
    + intros s Hcell Hocc. apply filter_In. split; [exact Hin|].
      now apply (row_shown_by_cell _ _ k (Str s)).
    + intros n Hcell Hocc. apply filter_In. split; [exact Hin|].
      now apply (row_shown_by_cell _ _ k (Num n)).
    + intros Hcell Hocc. apply filter_In. split; [exact Hin|].
      now apply (row_shown_by_cell _ _ k Null).
  - apply filter_all.
  - apply filter_sublist.
Qed.

End DataViewFacts.

(** *** The filter on the sample datasets *)

Section DataViewExamples.
Import Js DataViewPage Samples.
Local Open Scope list_scope.
#[local] Existing Instance sample_runtime.

Example filteredData_north :
  filteredData sample_dataset (lit "NOR")
  = [ [(lit "region", Str (lit "North")); (lit "units", Num (number_of_Z 12))] ].
Proof. reflexivity. Qed.

Example filteredData_digit :
  filteredData sample_dataset (lit "7")
  = [ [(lit "region", Str (lit "South")); (lit "units", Num (number_of_Z 7))] ].
Proof. reflexivity. Qed.

(** An accented capital is lowered like any other: the small spelling of
    the city finds it.  A number cell is searched by its printed form,
    and a cell without value by the word null. *)
Example filteredData_accent :
  filteredData (dataset_of city_rows) ecole_small = city_rows /\
  filteredData (dataset_of city_rows) (lit "2.5") = city_rows /\
  filteredData (dataset_of city_rows) (lit "NUL") = city_rows /\
  filteredData (dataset_of city_rows) (lit "13") = [].
Proof. repeat split. Qed.

Lemma filteredData_spec_witness :
  sample_data sample_dataset = Some sample_rows /\
  In [(lit "region", Str (lit "North")); (lit "units", Num (number_of_Z 12))]
     (filteredData sample_dataset (lit "NOR")).
Proof.
  split; [reflexivity|].
  destruct (filteredData_spec sample_dataset sample_rows (lit "NOR") eq_refl)
    as (_ & Hascii & _).
  apply (Hascii eq_refl).
  - intros v [<-|[<-|[]]]; reflexivity.
  - split; [now left|]. right.
    exists (Str (lit "North")). split; [now left|].
    exists [], (lit "Nor"), (lit "th"). split; [reflexivity|].
    repeat constructor; unfold same_letter; cbn; lia.
Defined.

(** The claim as first stated fails on Greek text.  The word made of the
    capitals alpha, sigma, alpha contains the search text alpha, sigma as
    it stands, yet the row is not displayed: lowered by itself the search
    text ends in a final sigma, which the lowered word does not
    contain. *)
Lemma filter_misses_final_sigma :
  In [(lit "word", Str alpha_sigma_alpha)] greek_rows /\
  (exists v, In v (Object_values [(lit "word", Str alpha_sigma_alpha)]) /\
             contains_ignoring_case (String_ v) alpha_sigma) /\
  ~ In [(lit "word", Str alpha_sigma_alpha)]
       (filteredData (dataset_of greek_rows) alpha_sigma).
Proof.
  split; [now left|]. split.
  - exists (Str alpha_sigma_alpha). split; [now left|].
    exists [], alpha_sigma, [913%N]. split; reflexivity.
  - intros [].
Qed.

End DataViewExamples.
(** ** The reset-password form *)

Section ResetPasswordFacts.
Import Js ResetPasswordPage Samples.
Local Open Scope list_scope.

Lemma handleSubmit_mismatch api st :
  newPassword st <> confirmPassword st ->
  handleSubmit api st
  = (setError (lit "Passwords do not match") (setError [] st), []).
Proof.
  intros Hne. unfold handleSubmit. cbn [newPassword confirmPassword setError].
  now rewrite (proj2 (eqb_neq _ _) Hne).
Qed.

Lemma handleSubmit_short api st :
  newPassword st = confirmPassword st ->
  (length (newPassword st) < 6)%nat ->
  handleSubmit api st
  = (setError (lit "Password must be at least 6 characters") (setError [] st), []).
Proof.
  intros Heq Hlen. unfold handleSubmit. cbn [newPassword confirmPassword setError].
  rewrite (proj2 (eqb_eq _ _) Heq). cbn [negb].
  apply Nat.ltb_lt in Hlen. now rewrite Hlen.
Qed.

(** The request and the state when the two checks pass. *)
Lemma handleSubmit_posts api st :
  newPassword st = confirmPassword st ->
  (6 <= length (newPassword st))%nat ->
  let body := {| req_token := token st; req_new_password := newPassword st |} in
  handleSubmit api st
  = match api body with
    | Resolved =>
        (setLoading false (setSuccess true (setLoading true (setError [] st))),
         [Post "/auth/reset-password" body; SetTimeout 2000 "/login"])
    | Rejected detail =>
        (setLoading false
           (setError (detail_or_default detail) (setLoading true (setError [] st))),
         [Post "/auth/reset-password" body])
    end.
Proof.
  intros Heq Hlen. cbv zeta. unfold handleSubmit.
  cbn [newPassword confirmPassword setError setLoading token].
  rewrite (proj2 (eqb_eq _ _) Heq). cbn [negb].
  apply Nat.ltb_ge in Hlen. rewrite Hlen. reflexivity.
Qed.

(** C9.  Submitting the reset-password form sends the reset-password
    request, that is a POST to [/auth/reset-password] carrying the token
    of the link and the new password, exactly when the new password equals
    its confirmation and has at least six code units ([length]); the
    handler sends no other request.  When one of the two checks fails the
    handler performs no effect at all, stores an error message (the text
    for a mismatch when the passwords differ, the text for a short
    password otherwise), and leaves [success], [loading] and every other
    field as they were. *)
Theorem handleSubmit_sends_iff (api : ResetRequest -> ApiOutcome) (st : State) :
  let checks_pass :=
    newPassword st = confirmPassword st /\ (6 <= length (newPassword st))%nat in
  let body := {| req_token := token st; req_new_password := newPassword st |} in
  let st' := fst (handleSubmit api st) in
  let effs := snd (handleSubmit api st) in
  (In (Post "/auth/reset-password" body) effs <-> checks_pass) /\
  (request_sent effs = true <-> checks_pass) /\
  (forall path b, In (Post path b) effs -> path = "/auth/reset-password" /\ b = body) /\
  (checks_pass -> exists rest, effs = Post "/auth/reset-password" body :: rest /\
                               request_sent rest = false) /\
  (~ checks_pass ->
   effs = [] /\
   (newPassword st <> confirmPassword st ->
    error st' = lit "Passwords do not match") /\
   (newPassword st = confirmPassword st ->
    error st' = lit "Password must be at least 6 characters") /\
   error st' <> [] /\
   success st' = success st /\
   loading st' = loading st /\
   st' = setError (error st') st).
Proof.
  cbv zeta.
  destruct (eqb_spec_dec (newPassword st) (confirmPassword st)) as [Heq|Hne].
  - destruct (Nat.le_gt_cases 6 (length (newPassword st))) as [Hlen|Hlen].
    + pose proof (handleSubmit_posts api st Heq Hlen) as Hp. cbv zeta in Hp. rewrite Hp.
      destruct (api _) as [|detail]; cbn [fst snd].
      * split; [split; [tauto | intros _; now left]|].
        split; [split; [tauto | reflexivity]|].
        split; [intros path b [[= <- <-]|[[=]|[]]]; now split|].
        split; [intros _; eexists; split; reflexivity | tauto].
      * split; [split; [tauto | intros _; now left]|].
        split; [split; [tauto | reflexivity]|].
        split; [intros path b [[= <- <-]|[]]; now split|].
        split; [intros _; eexists; split; reflexivity | tauto].
    + rewrite (handleSubmit_short api st Heq Hlen). cbn [fst snd].
      split; [split; [intros [] | lia]|].
      split; [split; [discriminate | lia]|].
      split; [intros path b []|].
      split; [lia|]. intros _.
      repeat split; try (intros; reflexivity); try discriminate; tauto.
  - rewrite (handleSubmit_mismatch api st Hne). cbn [fst snd].
    split; [split; [intros [] | tauto]|].
    split; [split; [discriminate | tauto]|].
    split; [intros path b []|].
    split; [tauto|]. intros _.
    repeat split; try (intros; reflexivity); try discriminate; tauto.
Qed.

Example handleSubmit_ok :
  handleSubmit (fun _ => Resolved) (fresh_form (lit "secret1") (lit "secret1"))
  = ({| token := Some (lit "tok"); newPassword := lit "secret1";
        confirmPassword := lit "secret1";
        loading := false; validating := false; tokenValid := true;
        success := true; error := [] |},
     [Post "/auth/reset-password"
        {| req_token := Some (lit "tok"); req_new_password := lit "secret1" |};
      SetTimeout 2000 "/login"]).
Proof. reflexivity. Qed.

Example handleSubmit_five_chars :
  handleSubmit (fun _ => Resolved) (fresh_form (lit "abcde") (lit "abcde"))
  = (setError (lit "Password must be at least 6 characters")
       (fresh_form (lit "abcde") (lit "abcde")), []).
Proof. reflexivity. Qed.

(** Three accented letters are three code units: too short, whatever
    their size in bytes. *)
Example handleSubmit_three_accents :
  handleSubmit (fun _ => Resolved) (fresh_form three_accents three_accents)
  = (setError (lit "Password must be at least 6 characters")
       (fresh_form three_accents three_accents), []).
Proof. reflexivity. Qed.

Example handleSubmit_rejected :
  error (fst (handleSubmit (fun _ => Rejected None)
                (fresh_form (lit "secret1") (lit "secret1"))))
  = lit "Failed to reset password".
Proof. reflexivity. Qed.

End ResetPasswordFacts.

(** ** The active-datasets page *)

Section ActiveDatasetsFacts.
Import Js ActiveDatasetsPage Samples.

Lemma append_cons (c : ascii) (s t : string) : String c s ++ t = String c (s ++ t).
Proof. reflexivity. Qed.

Lemma append_empty_r (s : string) : s ++ EmptyString = s.
Proof. induction s as [|c s IH]; [reflexivity | now rewrite append_cons, IH]. Qed.

Lemma append_assoc (a b c : string) : (a ++ b) ++ c = a ++ (b ++ c).
Proof. induction a as [|x a IH]; [reflexivity | now rewrite !append_cons, IH]. Qed.

Lemma uint_string_no_comma (d : Decimal.uint) :
  all_chars not_comma (NilEmpty.string_of_uint d) = true.
Proof. induction d; simpl; auto. Qed.

Lemma string_of_Z_no_comma (z : Z) : all_chars not_comma (string_of_Z z) = true.
Proof.
  unfold string_of_Z. destruct (Z.to_int z) as [d|d]; simpl;
    destruct d; simpl; auto using uint_string_no_comma.
Qed.

Lemma string_of_Z_nonempty (z : Z) : string_of_Z z <> EmptyString.
Proof.
  unfold string_of_Z. destruct z as [|p|p]; simpl; try discriminate.
  pose proof (DecimalPos.Unsigned.to_uint_nonnil p) as Hp.
  destruct (Pos.to_uint p); simpl; try discriminate.
Qed.

Lemma Z_of_string_of_Z (z : Z) : Z_of_string (string_of_Z z) = Some z.
Proof.
  unfold Z_of_string, string_of_Z.
  rewrite NilZero.isi.
  - now rewrite DecimalZ.of_to.
  - destruct z as [|p|p]; simpl; try discriminate.
    intros [= H]. now apply DecimalPos.Unsigned.to_uint_nonnil in H.
  - destruct z as [|p|p]; simpl; try discriminate.
    intros [= H]. now apply DecimalPos.Unsigned.to_uint_nonnil in H.
Qed.

Lemma split_commas_app (x s cur : string) :
  all_chars not_comma x = true ->
  split_commas (x ++ s) cur = split_commas s (cur ++ x).
Proof.
  revert cur; induction x as [|c x IH]; intros cur Hx.
  - change (EmptyString ++ s) with s. now rewrite append_empty_r.
  - rewrite append_cons. cbn [split_commas].
    cbn [all_chars] in Hx. apply andb_true_iff in Hx as [Hc Hx].
    unfold not_comma in Hc. apply negb_true_iff in Hc. rewrite Hc.
    rewrite IH by exact Hx. rewrite append_assoc. reflexivity.
Qed.

Lemma split_commas_join (p : string) (ps : list string) (cur : string) :
  Forall (fun x => all_chars not_comma x = true) (p :: ps) ->
  split_commas (join "," (p :: ps)) cur = (cur ++ p) :: ps.
Proof.
  revert p cur; induction ps as [|q ps IH]; intros p cur Hall.
  - simpl. rewrite <- (append_empty_r p) at 1.
    rewrite split_commas_app by now inversion Hall. reflexivity.
  - inversion Hall as [|? ? Hp Hrest]; subst.
    change (join "," (p :: q :: ps)) with (p ++ "," ++ join "," (q :: ps)).
    rewrite split_commas_app by exact Hp.
    change ("," ++ join "," (q :: ps)) with (String "," (join "," (q :: ps))).
    cbn [split_commas]. rewrite Ascii.eqb_refl.
    now rewrite IH.
Qed.

Lemma drop_last_bracket_app (body : string) :
  drop_last_bracket (body ++ "]") = Some body.
Proof.
  induction body as [|c body IH]; [reflexivity|].
  change (String c body ++ "]") with (String c (body ++ "]")).
  cbn [drop_last_bracket]. rewrite IH.
  destruct body; reflexivity.
Qed.

Lemma parse_all_rendered (ids : list Z) :
  parse_all (map string_of_Z ids) = Some ids.
Proof.
  induction ids as [|z ids IH]; simpl; [reflexivity|].
  now rewrite Z_of_string_of_Z, IH.
Qed.

(** Reading back what [JSON_stringify] wrote gives the list again. *)
Lemma JSON_parse_stringify (ids : list Z) :
  JSON_parse (JSON_stringify ids) = Some ids.
Proof.
  unfold JSON_stringify.
  change ("[" ++ join "," (map string_of_Z ids) ++ "]")
    with (String "[" (join "," (map string_of_Z ids) ++ "]")).
  cbn [JSON_parse]. rewrite Ascii.eqb_refl, drop_last_bracket_app.
  destruct ids as [|z ids]; [reflexivity|].
  assert (Hsplit :
    split_commas (join "," (map string_of_Z (z :: ids))) EmptyString
    = map string_of_Z (z :: ids)).
  { cbn [map]. rewrite split_commas_join; [reflexivity|].
    rewrite <- map_cons. apply List.Forall_forall. intros x Hx.
    apply in_map_iff in Hx as (y & <- & _). apply string_of_Z_no_comma. }
  rewrite Hsplit, parse_all_rendered.
  destruct (join "," (map string_of_Z (z :: ids))) eqn:Hj; [|reflexivity].
  exfalso. cbn [map] in Hj. destruct (map string_of_Z ids); cbn [join] in Hj.
  - now apply string_of_Z_nonempty in Hj.
  - destruct (string_of_Z z) eqn:Hz; [now apply string_of_Z_nonempty in Hz | discriminate].
Qed.

Lemma stringify_nonempty (ids : list Z) : falsy_string (JSON_stringify ids) = false.
Proof. reflexivity. Qed.

Lemma filter_filter_keep {A} (f g : A -> bool) (l : list A) :
  (forall x, f x = true -> g x = true) ->
  List.filter f (List.filter g l) = List.filter f l.
Proof.
  intros Hfg. induction l as [|x l IH]; simpl; [reflexivity|].
  destruct (g x) eqn:Hg; simpl.
  - destruct (f x); now rewrite IH.
  - destruct (f x) eqn:Hf; [|exact IH].
    apply Hfg in Hf. congruence.
Qed.

(** What the next load reads back from the storage. *)
Lemma removeFromActive_saved (datasetId : Z) (st : State) (b : Browser) :
  savedActiveIds (snd (removeFromActive datasetId st b))
  = Some (activeDatasetIds (fst (removeFromActive datasetId st b))).
Proof.
  unfold removeFromActive, savedActiveIds. cbn [fst snd localStorage activeDatasetIds].
  rewrite lookup_insert_eq, stringify_nonempty. apply JSON_parse_stringify.
Qed.

(** C10.  After [removeFromActive datasetId]: the id is gone from the
    stored active-id list and from the displayed datasets; the
    [activeDatasets] entry of the local storage holds the updated id list
    (and reads back as that list at the next load); every other id keeps
    its occurrences and every dataset with another id keeps its displayed
    entries, in the same order; other storage entries and [loading] are
    untouched. *)
Theorem removeFromActive_spec (datasetId : Z) (st : State) (b : Browser) :
  let st' := fst (removeFromActive datasetId st b) in
  let b' := snd (removeFromActive datasetId st b) in
  ~ In datasetId (activeDatasetIds st') /\
  (forall d, In d (datasets st') -> id d <> datasetId) /\
  localStorage b' !! "activeDatasets" = Some (JSON_stringify (activeDatasetIds st')) /\
  savedActiveIds b' = Some (activeDatasetIds st') /\
  (forall j, j <> datasetId ->
     List.filter (Z.eqb j) (activeDatasetIds st')
     = List.filter (Z.eqb j) (activeDatasetIds st) /\
     List.filter (fun d => j =? id d) (datasets st')
     = List.filter (fun d => j =? id d) (datasets st)) /\
  sublist (activeDatasetIds st') (activeDatasetIds st) /\
  sublist (datasets st') (datasets st) /\
  (forall k, k <> "activeDatasets" -> localStorage b' !! k = localStorage b !! k) /\
  loading st' = loading st.
Proof.
  cbv zeta. unfold removeFromActive.
  cbn [fst snd activeDatasetIds datasets localStorage loading].
  repeat apply conj.
  - intros H. apply filter_In in H as [_ H]. rewrite Z.eqb_refl in H. discriminate.
  - intros d H. apply filter_In in H as [_ H]. apply negb_true_iff, Z.eqb_neq in H. exact H.
  - apply lookup_insert_eq.
  - apply removeFromActive_saved.
  - intros j Hj. split; apply filter_filter_keep; intros x Hx;
      apply Z.eqb_eq in Hx; subst; apply negb_true_iff, Z.eqb_neq; congruence.
  - apply filter_sublist.
  - apply filter_sublist.
  - intros k Hk. apply lookup_insert_ne. congruence.
  - reflexivity.
Qed.

Lemma ids_include_filter (ids : list Z) (x y : Z) :
  ids_include (List.filter (fun i => negb (i =? x)) ids) y
  = (ids_include ids y && negb (y =? x))%bool.
Proof.
  unfold ids_include. induction ids as [|i ids IH]; [reflexivity|].
  cbn [List.filter]. destruct (Z.eqb_spec i x) as [->|Hix]; cbn [negb existsb].
  - rewrite IH. destruct (Z.eqb_spec x y) as [->|Hxy].
    + rewrite Z.eqb_refl. cbn. now rewrite andb_false_r.
    + reflexivity.
  - rewrite IH. destruct (Z.eqb_spec i y) as [->|Hiy]; [|reflexivity].
    cbn. destruct (Z.eqb_spec y x); [contradiction | reflexivity].
Qed.

(** The page stays in step with the storage: when the displayed datasets
    are the active ones among [all], reloading after a removal shows what
    the page already displays. *)
Lemma reload_after_remove (datasetId : Z) (all : list DatasetEntry) (st : State) (b : Browser) :
  datasets st = List.filter (fun d => ids_include (activeDatasetIds st) (id d)) all ->
  let st' := fst (removeFromActive datasetId st b) in
  let b' := snd (removeFromActive datasetId st b) in
  datasets (loadActiveDatasets (Listed all) st' b') = datasets st' /\
  activeDatasetIds (loadActiveDatasets (Listed all) st' b') = activeDatasetIds st'.
Proof.
  intros Hshown. cbv zeta. unfold loadActiveDatasets.
  rewrite removeFromActive_saved. cbn [datasets activeDatasetIds].
  split; [|reflexivity].
  unfold removeFromActive. cbn [fst datasets activeDatasetIds]. rewrite Hshown.
  clear. induction all as [|d all IH]; [reflexivity|].
  cbn [List.filter]. rewrite ids_include_filter.
  destruct (ids_include (activeDatasetIds st) (id d)); cbn [andb List.filter].
  - destruct (negb (id d =? datasetId)); now rewrite IH.
  - exact IH.
Qed.

Example removeFromActive_four :
  let '(st', b') := removeFromActive 4 two_datasets two_datasets_browser in
  activeDatasetIds st' = [9] /\
  map id (datasets st') = [9] /\
  localStorage b' !! "activeDatasets" = Some "[9]" /\
  localStorage b' !! "theme" = Some "dark" /\
  savedActiveIds b' = Some [9] /\
  dispatched b' = ["storage"].
Proof. vm_compute. repeat split. Qed.

End ActiveDatasetsFacts.
(** ** The data view: search, view and loading *)

Section DataViewScreenFacts.
Import Js DataViewPage DataViewScreen.
Local Open Scope list_scope.
Context `{Runtime}.




Lemma refines_empty (q' : jsstring) : refines [] q' -> q' = [].
Proof.
  unfold refines. rewrite toLowerCase_empty, includes_iff.
  intros (pre & post & Hp). apply toLowerCase_nonempty.
  symmetry in Hp. apply app_eq_nil in Hp as [_ Hp]. now apply app_eq_nil in Hp as [Hp _].
Qed.

Lemma row_matches_narrows (q q' : jsstring) (row : Row) :
  refines q' q ->
  row_matches q' row = true -> row_matches q row = true.
Proof.
  unfold refines, row_matches. intros Href.
  destruct q as [|u q]; [reflexivity|]. destruct q' as [|u' q'].
  - now apply refines_empty in Href.
  - cbn [falsy]. rewrite !existsb_exists. intros (v & Hv & Hin).
    exists v. split; [exact Hv|]. now apply includes_trans with (toLowerCase (u' :: q')).
Qed.

(** ASCII characters typed before or after an ASCII query refine it. *)
Lemma typed_around_refines (a q b : jsstring) :
  forallb is_ascii (a ++ q ++ b) = true -> refines (a ++ q ++ b) q.
Proof.
  intros Hall. unfold refines.
  assert (Hq : forallb is_ascii q = true).
  { rewrite !forallb_app in Hall. apply andb_true_iff in Hall as [_ Hall].
    now apply andb_true_iff in Hall as [Hall _]. }
  rewrite !toLowerCase_ascii by assumption. rewrite !map_app.
  apply includes_iff. now exists (map lower_ascii a), (map lower_ascii b).
Qed.

(** X2.  Refining the search only narrows the table.  When the new query,
    lowered, contains the former query, lowered, and in particular when
    ASCII characters are typed before or after an ASCII query, the rows
    displayed for the new query are those of the former display that
    match it, in the same order. *)
Theorem filteredData_narrows (dataset : Dataset) (q q' : jsstring) :
  refines q' q \/
  (forallb is_ascii q' = true /\ exists a b, q' = a ++ q ++ b) ->
  filteredData dataset q' = List.filter (row_matches q') (filteredData dataset q) /\
  sublist (filteredData dataset q') (filteredData dataset q) /\
  (length (filteredData dataset q') <= length (filteredData dataset q))%nat.
Proof.
  intros Hsub.
  assert (Href : refines q' q).
  { destruct Hsub as [Href | (Hascii & a & b & ->)]; [exact Href|].
    now apply typed_around_refines. }
  assert (Heq : filteredData dataset q'
                = List.filter (row_matches q') (filteredData dataset q)).
  { unfold filteredData. destruct (sample_data dataset) as [rows|]; [|reflexivity].
    symmetry. apply filter_filter_keep. intros row. now apply row_matches_narrows. }
  split; [exact Heq|]. rewrite Heq. split.
  - apply filter_sublist.
  - apply sublist_length, filter_sublist.
Qed.

Lemma filteredData_keeps (dataset : Dataset) (q : jsstring) (P : Row -> Prop)
  (rows : list Row) :
  sample_data dataset = Some rows -> Forall P rows -> Forall P (filteredData dataset q).
Proof.
  intros Hrows Hall. unfold filteredData. rewrite Hrows.
  apply List.Forall_forall. intros r Hr. apply filter_In in Hr as [Hr _].
  rewrite List.Forall_forall in Hall. now apply Hall.
Qed.

(** X3.  When all loaded rows have the same column names, the table header
    shows these names whatever is searched, and the rows under it are the
    filtered rows, all with these columns.  (The header is read off the
    first displayed row.) *)
Theorem view_header_uniform (st : PageState) (d : Dataset) (rows : list Row)
  (ks : list jsstring) (q : jsstring) (header : list jsstring) (shown : list Row) :
  dataset st = Some d ->
  sample_data d = Some rows ->
  Forall (fun r => Object_keys r = ks) rows ->
  view (setSearchQuery q st) = TableView header shown ->
  header = ks /\ shown = filteredData d q /\
  Forall (fun r => Object_keys r = ks) shown.
Proof.
  intros Hd Hrows Hall. unfold view, setSearchQuery. cbn [loading dataset searchQuery].
  destruct (loading st); [discriminate|]. rewrite Hd.
  pose proof (filteredData_keeps d q _ rows Hrows Hall) as Hshown.
  destruct (filteredData d q) as [|r rest]; [discriminate|].
  intros [= <- <-]. repeat split; [|exact Hshown].
  now inversion Hshown.
Qed.

Lemma filter_nil_iff {A} (f : A -> bool) (l : list A) :
  List.filter f l = [] <-> forall x, In x l -> f x = false.
Proof.
  induction l as [|a l IH]; cbn.
  - split; [intros _ x [] | reflexivity].
  - destruct (f a) eqn:Hfa.
    + split; [discriminate|]. intros Hall. specialize (Hall a (or_introl eq_refl)). congruence.
    + rewrite IH. split.
      * intros Hall x [<-|Hx]; auto.
      * intros Hall x Hx. apply Hall. now right.
Qed.

Lemma row_matches_false_iff (q : jsstring) (row : Row) :
  row_matches q row = false <->
  q <> [] /\
  forall v, In v (Object_values row) -> ~ occurs_lowered (String_ v) q.
Proof.
  rewrite <- not_true_iff_false, row_matches_iff. split.
  - intros Hno. split.
    + intros Hq. apply Hno. now left.
    + intros v Hv Hc. apply Hno. right. now exists v.
  - intros [Hq Hall] [Hq' | (v & Hv & Hc)]; [contradiction|].
    now apply (Hall v Hv).
Qed.

(** X4.  Once a dataset is loaded, the text "No data available" is shown
    exactly when nothing is searched and the dataset has no row; the text
    "No matching data found" exactly when something is searched and no
    value of any loaded row, lowered, contains the lowered search text;
    and the table in all other cases, that is when some row is
    displayed. *)
Theorem view_empty_messages (st : PageState) (d : Dataset) :
  loading st = false ->
  dataset st = Some d ->
  (view st = EmptyView "No data available" <->
   searchQuery st = [] /\
   (sample_data d = None \/ sample_data d = Some [])) /\
  (view st = EmptyView "No matching data found" <->
   searchQuery st <> [] /\
   forall rows, sample_data d = Some rows ->
     forall row, In row rows ->
       forall v, In v (Object_values row) ->
                 ~ occurs_lowered (String_ v) (searchQuery st)) /\
  ((exists header shown, view st = TableView header shown) <->
   exists row, In row (filteredData d (searchQuery st))).
Proof.
  intros Hl Hd. unfold view. rewrite Hl, Hd.
  assert (Hnil : filteredData d (searchQuery st) = [] <->
                 forall rows, sample_data d = Some rows ->
                   forall row, In row rows -> row_matches (searchQuery st) row = false).
  { unfold filteredData. destruct (sample_data d) as [rows|].
    - rewrite filter_nil_iff. split.
      + intros Hall rows' [= <-]. exact Hall.
      + intros Hall. now apply Hall.
    - split; [discriminate | reflexivity]. }
  destruct (filteredData d (searchQuery st)) as [|r rest] eqn:Hf.
  - pose proof (proj1 Hnil eq_refl) as Hall.
    destruct (searchQuery st) as [|u q] eqn:Hq; cbn [falsy].
    + split; [|split].
      * split; [|reflexivity]. intros _. split; [reflexivity|].
        destruct (sample_data d) as [[|row rows]|]; auto.
        specialize (Hall _ eq_refl row (or_introl eq_refl)). discriminate.
      * split; [discriminate | intros [Hne _]; contradiction].
      * split; [intros (h & s & Hv); discriminate | intros [row []]].
    + split; [|split].
      * split; [discriminate | intros [Hq' _]; discriminate].
      * split; [|reflexivity]. intros _. split; [discriminate|].
        intros rows Hrows row Hrow.
        now apply row_matches_false_iff, (Hall rows Hrows row Hrow).
      * split; [intros (h & s & Hv); discriminate | intros [row []]].
  - split; [|split].
    + split; [discriminate|]. intros [Hq Hrows]. exfalso.
      unfold filteredData in Hf. destruct Hrows as [Hr|Hr]; rewrite Hr in Hf; discriminate.
    + split; [discriminate|]. intros [Hq Hall]. exfalso.
      assert (Hin : In r (filteredData d (searchQuery st))) by (rewrite Hf; now left).
      unfold filteredData in Hin. destruct (sample_data d) as [rows|] eqn:Hrows; [|destruct Hin].
      apply filter_In in Hin as [Hin Hm].
      assert (Hfalse : row_matches (searchQuery st) r = false).
      { apply row_matches_false_iff. split; [exact Hq|]. now apply (Hall rows eq_refl r Hin). }
      congruence.
    + split; [intros _; exists r; now left | intros _; now exists (Object_keys r), (r :: rest)].
Qed.

Lemma typing_keeps_loading (qs : list jsstring) (st : PageState) :
  loading (fold_left (fun s q => setSearchQuery q s) qs st) = loading st /\
  dataset (fold_left (fun s q => setSearchQuery q s) qs st) = dataset st.
Proof.
  revert st; induction qs as [|q qs IH]; intros st; cbn [fold_left]; [now split|].
  destruct (IH (setSearchQuery q st)) as [-> ->]. now split.
Qed.

(** X5.  Opened without a [dataset] parameter in the URL, or with an empty
    one, the data view requests nothing and keeps showing the loading
    spinner, whatever is typed in the search box afterwards. *)
Theorem mount_without_dataset (api : jsstring -> GetOutcome) (datasetId : option jsstring)
  (typed : list jsstring) :
  datasetId = None \/ datasetId = Some [] ->
  snd (mount api datasetId initial) = [] /\
  fst (mount api datasetId initial) = initial /\
  view (fold_left (fun s q => setSearchQuery q s) typed
          (fst (mount api datasetId initial))) = LoadingView.
Proof.
  intros Hid.
  assert (Hm : mount api datasetId initial = (initial, [])).
  { destruct Hid as [->| ->]; reflexivity. }
  rewrite Hm. cbn [fst snd]. repeat split.
  unfold view. destruct (typing_keeps_loading typed initial) as [-> _]. reflexivity.
Qed.

(** X6.  Loading a dataset makes exactly one request and always clears the
    spinner.  When the request succeeds the rows and columns shown are
    those of the response, also when its [dataset_info] carries rows of
    its own; when it fails the dataset already on the page stays (a
    failed refresh leaves the view as it was) and a first load ends on
    the not-found text.  With a non-empty parameter, opening the page
    does this load. *)
Theorem loadDataset_outcomes (api : jsstring -> GetOutcome) (datasetId : jsstring)
  (st : PageState) :
  let st' := fst (loadDataset api datasetId st) in
  snd (loadDataset api datasetId st) = [data_url datasetId] /\
  loading st' = false /\
  searchQuery st' = searchQuery st /\
  (forall r, api (data_url datasetId) = Got r ->
     exists d, dataset st' = Some d /\ sample_data d = data r /\
               columns d = resp_columns r /\
               name d = name (dataset_info r) /\
               view st' <> LoadingView /\ view st' <> NotFoundView) /\
  (api (data_url datasetId) = GetFailed ->
     dataset st' = dataset st /\
     (loading st = false -> view st' = view st) /\
     (dataset st = None -> view st' = NotFoundView)) /\
  (datasetId <> [] ->
     mount api (Some datasetId) st = loadDataset api datasetId st).
Proof.
  cbv zeta. unfold loadDataset.
  destruct (api (data_url datasetId)) as [r|] eqn:Hapi; cbn [fst snd loading searchQuery dataset].
  - repeat apply conj; try reflexivity.
    + intros r' [= <-]. eexists. repeat apply conj; try reflexivity.
      * unfold view. cbn. destruct (filteredData _ _); discriminate.
      * unfold view. cbn. destruct (filteredData _ _); discriminate.
    + discriminate.
    + intros Hne. unfold mount, loadDataset.
      rewrite (proj2 (falsy_false_iff _) Hne), Hapi. reflexivity.
  - repeat apply conj; try reflexivity.
    + discriminate.
    + intros _. repeat apply conj; [reflexivity | |].
      * intros Hl. unfold view. cbn. now rewrite Hl.
      * intros Hd. unfold view. cbn. now rewrite Hd.
    + intros Hne. unfold mount, loadDataset.
      rewrite (proj2 (falsy_false_iff _) Hne), Hapi. reflexivity.
Qed.

End DataViewScreenFacts.

(** *** The data view on the sample dataset *)

Section DataViewScreenExamples.
Import Js DataViewPage DataViewScreen Samples PageSamples.
Local Open Scope list_scope.
#[local] Existing Instance sample_runtime.


Lemma filteredData_narrows_witness :
  (refines (lit "North") (lit "OR") \/
   (forallb is_ascii (lit "North") = true /\
    exists a b, lit "North" = a ++ lit "OR" ++ b)) /\
  sublist (filteredData sample_dataset (lit "North"))
          (filteredData sample_dataset (lit "OR")).
Proof.
  assert (Href : refines (lit "North") (lit "OR")) by reflexivity.
  split; [now left|].
  apply (filteredData_narrows sample_dataset (lit "OR") (lit "North")). now left.
Defined.

(** The refinement is a matter of the lowered queries, not of the queries
    as typed: with a capital alpha typed after alpha, sigma, the word of
    the sample, hidden before, is displayed. *)
Example widening_by_final_sigma :
  filteredData (dataset_of greek_rows) alpha_sigma = [] /\
  filteredData (dataset_of greek_rows) alpha_sigma_alpha = greek_rows /\
  ~ refines alpha_sigma_alpha alpha_sigma.
Proof. repeat split. discriminate. Qed.

Lemma view_header_uniform_witness :
  (dataset loaded_view = Some sample_dataset /\
   sample_data sample_dataset = Some sample_rows /\
   view (setSearchQuery (lit "south") loaded_view)
   = TableView [lit "region"; lit "units"]
       [ [(lit "region", Str (lit "South")); (lit "units", Num (number_of_Z 7))] ]) /\
  [lit "region"; lit "units"] = [lit "region"; lit "units"].
Proof.
  split; [repeat split|].
  apply (view_header_uniform loaded_view sample_dataset sample_rows
           [lit "region"; lit "units"] (lit "south") [lit "region"; lit "units"]
           [ [(lit "region", Str (lit "South")); (lit "units", Num (number_of_Z 7))] ]);
    try reflexivity.
  repeat constructor.
Defined.

Lemma view_empty_messages_witness :
  (loading (setSearchQuery (lit "zz") loaded_view) = false /\
   dataset (setSearchQuery (lit "zz") loaded_view) = Some sample_dataset) /\
  view (setSearchQuery (lit "zz") loaded_view) = EmptyView "No matching data found".
Proof.
  split; [split; reflexivity|].
  apply (view_empty_messages (setSearchQuery (lit "zz") loaded_view) sample_dataset
           eq_refl eq_refl).
  split; [discriminate|].
  intros rows [= <-] row Hrow v Hv Hc. apply includes_lowered_iff in Hc.
  cbn in Hrow. destruct Hrow as [<-|[<-|[]]]; cbn in Hv;
    destruct Hv as [<-|[<-|[]]]; vm_compute in Hc; discriminate.
Defined.

Lemma mount_without_dataset_witness :
  (@None jsstring = None \/ @None jsstring = Some []) /\
  snd (mount data_api None initial) = [].
Proof.
  split; [now left|].
  apply (mount_without_dataset data_api None [lit "a"; lit "ab"]). now left.
Defined.

Example load_overrides_info_rows :
  view (fst (mount data_api (Some (lit "7")) initial))
  = TableView [lit "region"; lit "units"] sample_rows.
Proof. reflexivity. Qed.

Example load_unknown_dataset :
  view (fst (mount data_api (Some (lit "8")) initial)) = NotFoundView.
Proof. reflexivity. Qed.

(** The accented city is found by its small spelling: the view is the
    table, not the text for no match. *)
Example view_finds_accent :
  view {| dataset := Some (dataset_of city_rows); loading := false;
          searchQuery := ecole_small |}
  = TableView [lit "city"; lit "weight"; lit "note"] city_rows.
Proof. reflexivity. Qed.

End DataViewScreenExamples.
(** ** The chat page: transcript, conversations and datasets *)

Section AnalyticsChatFacts.
Import Js AnalyticsPage AnalyticsChat Samples PageSamples.
Local Open Scope list_scope.

(** The handler run in one go is its two halves, one after the other. *)
Lemma handleSubmit_split (send : Z -> jsstring -> SendOutcome) (s : AnalyticsPage.State) :
  AnalyticsPage.handleSubmit send s
  = match snd (submitStart s) with
    | Some (cid, text) => submitFinish (send cid text) (fst (submitStart s))
    | None => s
    end.
Proof.
  unfold AnalyticsPage.handleSubmit, submitStart, submitFinish.
  destruct (currentConversation s) as [conv|]; [|reflexivity].
  destruct (blank (query s) || AnalyticsPage.loading s)%bool; [reflexivity|].
  cbn [fst snd query messages AnalyticsPage.loading currentConversation].
  rewrite <- app_assoc. reflexivity.
Qed.

Lemma createConversation_frame (api : Z -> CreateOutcome) (st : PageState) :
  messages (core (createConversation api st)) = messages (core st) /\
  AnalyticsPage.loading (core (createConversation api st)) = AnalyticsPage.loading (core st) /\
  query (core (createConversation api st)) = query (core st) /\
  selectedDataset (createConversation api st) = selectedDataset st /\
  datasets (createConversation api st) = datasets st.
Proof.
  unfold createConversation. destruct (selectedDataset st) as [n|] eqn:Hsel; [|now repeat split].
  destruct (selected (Some n)); [|now repeat split].
  destruct (api n); cbn; now repeat split.
Qed.

Lemma onSelectedDataset_frame (api : Z -> CreateOutcome) (st : PageState) :
  messages (core (onSelectedDataset api st)) = messages (core st) /\
  AnalyticsPage.loading (core (onSelectedDataset api st)) = AnalyticsPage.loading (core st) /\
  query (core (onSelectedDataset api st)) = query (core st) /\
  selectedDataset (onSelectedDataset api st) = selectedDataset st.
Proof.
  unfold onSelectedDataset. destruct (currentConversation (core st)); [now repeat split|].
  destruct (selected (selectedDataset st)); [|now repeat split].
  destruct (createConversation_frame api st) as (? & ? & ? & ? & ?). now repeat split.
Qed.

Lemma selectDataset_frame (n : Z) (api : Z -> CreateOutcome) (st : PageState) :
  messages (core (selectDataset n api st)) = messages (core st) /\
  AnalyticsPage.loading (core (selectDataset n api st)) = AnalyticsPage.loading (core st) /\
  query (core (selectDataset n api st)) = query (core st).
Proof.
  unfold selectDataset.
  destruct (selectedDataset st) as [m|]; [destruct (m =? n); [now repeat split|]|];
    match goal with
    | |- context [onSelectedDataset api ?s] =>
        destruct (onSelectedDataset_frame api s) as (-> & -> & -> & _)
    end; now repeat split.
Qed.

Lemma datasetsLoaded_frame (lo : ListOutcome) (api : Z -> CreateOutcome) (st : PageState) :
  messages (core (datasetsLoaded lo api st)) = messages (core st) /\
  AnalyticsPage.loading (core (datasetsLoaded lo api st)) = AnalyticsPage.loading (core st) /\
  query (core (datasetsLoaded lo api st)) = query (core st).
Proof.
  unfold datasetsLoaded.
  assert (Hl : core (loadDatasets lo st) = core st) by (now destruct lo).
  destruct (selectedDataset st) as [a|], (selectedDataset (loadDatasets lo st)) as [b|];
    try destruct (a =? b);
    try (destruct (onSelectedDataset_frame api (loadDatasets lo st)) as (-> & -> & -> & _));
    rewrite Hl; now repeat split.
Qed.

Lemma handleNewChat_frame (api : Z -> CreateOutcome) (st : PageState) :
  messages (core (handleNewChat api st)) = [] /\
  query (core (handleNewChat api st)) = [] /\
  AnalyticsPage.loading (core (handleNewChat api st)) = AnalyticsPage.loading (core st) /\
  selectedDataset (handleNewChat api st) = selectedDataset st.
Proof.
  unfold handleNewChat.
  match goal with
  | |- context [createConversation api ?s] =>
      destruct (createConversation_frame api s) as (-> & -> & -> & -> & _)
  end.
  now repeat split.
Qed.

Lemma pairs_snoc_user (ms : list Message) (q : jsstring) :
  pairs false ms -> pairs true (ms ++ [UserMessage q]).
Proof.
  intros H. remember false as p eqn:Hp. induction H as [|q0|p q0 r rest H IH].
  - apply pairs_pending.
  - discriminate.
  - cbn. apply pairs_cons. now apply IH.
Qed.

Lemma pairs_snoc_reply (ms : list Message) (r : AssistantContent) :
  pairs true ms -> pairs false (ms ++ [AssistantMessage r]).
Proof.
  intros H. remember true as p eqn:Hp. induction H as [|q0|p q0 r0 rest H IH].
  - discriminate.
  - cbn. apply pairs_cons, pairs_nil.
  - cbn. apply pairs_cons. now apply IH.
Qed.

Lemma transcript_ok_same (s s' : AnalyticsPage.State) :
  messages s' = messages s -> AnalyticsPage.loading s' = AnalyticsPage.loading s ->
  transcript_ok s -> transcript_ok s'.
Proof. unfold transcript_ok. intros -> ->. tauto. Qed.

Lemma step_transcript_ok (st : PageState) (e : Event) :
  transcript_ok (core st) -> transcript_ok (core (step st e)).
Proof.
  intros Hok. destruct e as [lo co|text| |o|co|n co]; cbn [step].
  - destruct (datasetsLoaded_frame lo (fun _ => co) st) as (Hm & Hl & _).
    now apply (transcript_ok_same (core st)).
  - now apply (transcript_ok_same (core st)).
  - cbn [with_core core]. unfold submitStart.
    destruct (currentConversation (core st)); [|exact Hok].
    destruct (blank (query (core st))); [exact Hok|]. cbn [orb].
    destruct (AnalyticsPage.loading (core st)) eqn:Hl; [exact Hok|].
    unfold transcript_ok in *. cbn [fst messages AnalyticsPage.loading]. rewrite Hl in Hok.
    destruct Hok as [Hp | [(r & rest & Hms & Hp) | [Hp _]]]; [| |discriminate].
    + left. now apply pairs_snoc_user.
    + right; left. exists r, (rest ++ [UserMessage (query (core st))])%list.
      rewrite Hms. split; [reflexivity | now apply pairs_snoc_user].
  - destruct (AnalyticsPage.loading (core st)) eqn:Hl; [|exact Hok].
    cbn [with_core core]. unfold transcript_ok, submitFinish in *.
    cbn [messages AnalyticsPage.loading]. rewrite Hl in Hok.
    destruct Hok as [Hp | [(r & rest & Hms & Hp) | [_ Hms]]].
    + left. now apply pairs_snoc_reply.
    + right; left. eexists r, (rest ++ [_])%list.
      rewrite Hms. split; [reflexivity | now apply pairs_snoc_reply].
    + right; left. rewrite Hms. eexists _, []. split; [reflexivity | apply pairs_nil].
  - destruct (handleNewChat_frame (fun _ => co) st) as (Hm & _ & Hl & _).
    unfold transcript_ok. rewrite Hm, Hl.
    destruct (AnalyticsPage.loading (core st)).
    + right; right. now split.
    + left. apply pairs_nil.
  - destruct (selectDataset_frame n (fun _ => co) st) as (Hm & Hl & _).
    now apply (transcript_ok_same (core st)).
Qed.

Lemma pairs_no_two_questions (p : bool) (ms : list Message) :
  pairs p ms ->
  forall pre q q' post, ms <> (pre ++ UserMessage q :: UserMessage q' :: post)%list.
Proof.
  induction 1 as [|q0|p q0 r rest H IH]; intros pre q q' post Heq.
  - destruct pre; discriminate.
  - destruct pre as [|x [|y pre]]; discriminate.
  - destruct pre as [|x [|y pre]]; try discriminate.
    injection Heq as _ _ Heq. now apply (IH pre q q' post).
Qed.

Lemma transcript_no_two_questions (s : AnalyticsPage.State) :
  transcript_ok s ->
  forall pre q q' post,
    messages s <> (pre ++ UserMessage q :: UserMessage q' :: post)%list.
Proof.
  intros [Hp | [(r & rest & Hms & Hp) | [_ Hms]]] pre q q' post Heq.
  - now apply (pairs_no_two_questions _ _ Hp pre q q' post).
  - rewrite Hms in Heq. destruct pre as [|x pre]; [discriminate|].
    injection Heq as _ Heq. now apply (pairs_no_two_questions _ _ Hp pre q q' post).
  - rewrite Hms in Heq. destruct pre; discriminate.
Qed.

(** X7.  Whatever happens on the chat page, in whatever order (the dataset
    list arriving, typing, submitting, a reply or an error coming back, a
    new chat, a change of dataset), the transcript is made of question and
    answer pairs, after at most one leading answer; a question without its
    answer can only be the last message, and only while the call is
    pending.  In particular two questions never follow each other. *)
Theorem transcript_invariant (events : list Event) (st : PageState) :
  transcript_ok (core st) ->
  transcript_ok (core (run events st)) /\
  forall pre q q' post,
    messages (core (run events st))
    <> (pre ++ UserMessage q :: UserMessage q' :: post)%list.
Proof.
  intros Hok.
  assert (Hrun : transcript_ok (core (run events st))).
  { unfold run. revert st Hok.
    induction events as [|e events IH]; intros st Hok; cbn [fold_left].
    - exact Hok.
    - apply IH. now apply step_transcript_ok. }
  split; [exact Hrun | now apply transcript_no_two_questions].
Qed.

Lemma transcript_invariant_witness :
  transcript_ok (core (initial None)) /\
  transcript_ok (core (run [Loaded (Listed two_options) (Created {| conversation_id := 41 |});
                            TypeQuery (lit "units by region"); Submit; NewChat CreateFailed;
                            Settle plain_reply]
                           (initial None))).
Proof.
  assert (H : transcript_ok (core (initial None))) by (left; apply pairs_nil).
  split; [exact H|].
  apply (transcript_invariant _ (initial None)). exact H.
Defined.

(** X8.  A reply is appended to the transcript as it is when the call comes
    back: when a new chat is opened while a question is pending, the
    question is wiped and the answer it gets, from the conversation it was
    sent to, becomes the only message of the new chat. *)
Theorem reply_lands_in_new_chat (st : PageState) (conv : Conversation)
  (co : CreateOutcome) (o : SendOutcome) :
  currentConversation (core st) = Some conv ->
  blank (query (core st)) = false ->
  AnalyticsPage.loading (core st) = false ->
  snd (submitStart (core st)) = Some (conversation_id conv, query (core st)) /\
  messages (core (run [Submit] st))
  = (messages (core st) ++ [UserMessage (query (core st))])%list /\
  messages (core (run [Submit; NewChat co] st)) = [] /\
  messages (core (run [Submit; NewChat co; Settle o] st))
  = [AssistantMessage (match o with
                       | Sent d => assistantContent d
                       | SendFailed detail => errorContent detail
                       end)] /\
  AnalyticsPage.loading (core (run [Submit; NewChat co; Settle o] st)) = false.
Proof.
  intros Hc Hb Hl.
  assert (Hstart : submitStart (core st)
                   = ({| query := [];
                         messages := messages (core st) ++ [UserMessage (query (core st))];
                         loading := true;
                         currentConversation := currentConversation (core st) |},
                      Some (conversation_id conv, query (core st)))).
  { unfold submitStart. now rewrite Hc, Hb, Hl. }
  unfold run. cbn [fold_left step]. rewrite Hstart. cbn [fst snd with_core core].
  split; [reflexivity|]. split; [reflexivity|].
  match goal with
  | |- context [handleNewChat ?f ?s] =>
      destruct (handleNewChat_frame f s) as (Hm & _ & Hl' & _)
  end.
  split; [exact Hm|].
  rewrite Hl'. cbn [core AnalyticsPage.loading with_core].
  unfold submitFinish. cbn [messages AnalyticsPage.loading]. rewrite Hm.
  split; reflexivity.
Qed.

Lemma reply_lands_in_new_chat_witness :
  (currentConversation (core chat_ready) = Some {| conversation_id := 41 |} /\
   blank (query (core chat_ready)) = false /\
   AnalyticsPage.loading (core chat_ready) = false) /\
  messages (core (run [Submit; NewChat CreateFailed; Settle plain_reply] chat_ready))
  = [AssistantMessage (assistantContent
                         {| md_content := Str (lit "North leads."); md_query_data := None |})].
Proof.
  split; [repeat split|].
  apply (reply_lands_in_new_chat chat_ready {| conversation_id := 41 |}
           CreateFailed plain_reply); reflexivity.
Defined.

(** X9.  Changing the dataset while a conversation is open creates no new
    conversation: the selection changes, the transcript, the input and the
    conversation stay, and the next question is still sent to that
    conversation. *)
Theorem select_keeps_conversation (st : PageState) (conv : Conversation) (n : Z)
  (api : Z -> CreateOutcome) (text : jsstring) :
  currentConversation (core st) = Some conv ->
  core (selectDataset n api st) = core st /\
  selectedDataset (selectDataset n api st) = Some n /\
  (snd (submitStart (setQuery text (core (selectDataset n api st)))) = None \/
   snd (submitStart (setQuery text (core (selectDataset n api st))))
   = Some (conversation_id conv, text)).
Proof.
  intros Hc.
  assert (Hsel : core (selectDataset n api st) = core st /\
                 selectedDataset (selectDataset n api st) = Some n).
  { unfold selectDataset, onSelectedDataset.
    destruct (selectedDataset st) as [m|] eqn:Hs.
    - destruct (Z.eqb_spec m n) as [->|Hne]; [now split|].
      cbn [core]. rewrite Hc. now split.
    - cbn [core]. rewrite Hc. now split. }
  destruct Hsel as [Hcore Hsel]. rewrite Hcore. repeat split; [exact Hsel|].
  unfold submitStart, setQuery. cbn [currentConversation query AnalyticsPage.loading].
  rewrite Hc. destruct (blank text || AnalyticsPage.loading (core st))%bool; [now left | now right].
Qed.

Lemma select_keeps_conversation_witness :
  currentConversation (core chat_ready) = Some {| conversation_id := 41 |} /\
  snd (submitStart (setQuery (lit "stock levels")
                      (core (selectDataset 5 (fun _ => Created {| conversation_id := 42 |})
                               chat_ready))))
  = Some (41, lit "stock levels").
Proof.
  split; [reflexivity|].
  destruct (select_keeps_conversation chat_ready {| conversation_id := 41 |} 5
              (fun _ => Created {| conversation_id := 42 |}) (lit "stock levels") eq_refl)
    as (_ & _ & [H|H]); [discriminate H | exact H].
Defined.

(** X10.  A new chat always empties the transcript and the input.  The
    conversation is replaced only when a dataset with a non-zero id is
    selected and the creation call succeeds; with no selection, with the
    id 0, or when the call fails, the former conversation (or the lack
    of one) stays. *)
Theorem handleNewChat_outcomes (api : Z -> CreateOutcome) (st : PageState) :
  let st' := handleNewChat api st in
  messages (core st') = [] /\
  query (core st') = [] /\
  AnalyticsPage.loading (core st') = AnalyticsPage.loading (core st) /\
  (forall n c, selectedDataset st = Some n -> n <> 0 -> api n = Created c ->
               currentConversation (core st') = Some c) /\
  (selectedDataset st = None \/ selectedDataset st = Some 0 \/
   (exists n, selectedDataset st = Some n /\ api n = CreateFailed) ->
   currentConversation (core st') = currentConversation (core st)).
Proof.
  cbv zeta.
  destruct (handleNewChat_frame api st) as (Hm & Hq & Hl & _).
  repeat apply conj; try assumption.
  - intros n c Hsel Hn Hapi. unfold handleNewChat, createConversation.
    cbn [selectedDataset with_core]. rewrite Hsel. unfold selected.
    rewrite (proj2 (Z.eqb_neq n 0) Hn). cbn [negb]. now rewrite Hapi.
  - unfold handleNewChat, createConversation. cbn [selectedDataset with_core].
    intros [Hsel | [Hsel | (n & Hsel & Hapi)]]; rewrite Hsel; try reflexivity.
    destruct (selected (Some n)); [|reflexivity]. now rewrite Hapi.
Qed.

Lemma loaded_fresh (api : Z -> CreateOutcome) (d : DatasetOption)
  (rest : list DatasetOption) (co : CreateOutcome) :
  run [Loaded (Listed (d :: rest)) co] (mounted api None)
  = {| core := {| query := []; messages := []; loading := false;
                  currentConversation :=
                    if negb (ds_id d =? 0)
                    then match co with Created c => Some c | CreateFailed => None end
                    else None |};
       datasets := d :: rest; selectedDataset := Some (ds_id d); sidebarOpen := false |}.
Proof.
  unfold run, mounted, datasetsLoaded, onSelectedDataset, createConversation, selected.
  cbn -[Z.eqb].
  destruct (ds_id d =? 0) eqn:E; cbn -[Z.eqb]; rewrite ?E; cbn -[Z.eqb];
    [reflexivity | destruct co; reflexivity].
Qed.

Lemma loaded_kept (api : Z -> CreateOutcome) (d : DatasetOption)
  (rest : list DatasetOption) (co : CreateOutcome) (n : Z) (c : Conversation) :
  n <> 0 -> api n = Created c ->
  run [Loaded (Listed (d :: rest)) co] (mounted api (Some n))
  = {| core := {| query := []; messages := []; loading := false;
                  currentConversation := Some c |};
       datasets := d :: rest; selectedDataset := Some n; sidebarOpen := false |}.
Proof.
  intros Hn Hapi. apply Z.eqb_neq in Hn.
  unfold run, mounted, initial, datasetsLoaded, onSelectedDataset, createConversation,
    selected.
  cbn -[Z.eqb]. rewrite ?Hn. cbn -[Z.eqb]. rewrite ?Hn. cbn -[Z.eqb].
  rewrite ?Hn, ?Hapi. cbn -[Z.eqb]. rewrite ?Hn, ?Z.eqb_refl. cbn -[Z.eqb].
  rewrite ?Z.eqb_refl. reflexivity.
Qed.

(** X11.  How the page gets its dataset and its first conversation.
    Opened without a preselected dataset, it selects the first dataset of
    the list when the list arrives and asks for a conversation on it;
    that conversation is held when the id is not 0 and the call succeeds,
    and otherwise there is none and nothing typed can be sent.  Opened
    with a preselected dataset (a non-zero id), it keeps that selection
    and the conversation created for it when the list arrives. *)
Theorem first_conversation (api : Z -> CreateOutcome) (d : DatasetOption)
  (rest : list DatasetOption) (co : CreateOutcome) :
  let fresh := run [Loaded (Listed (d :: rest)) co] (mounted api None) in
  selectedDataset fresh = Some (ds_id d) /\
  datasets fresh = d :: rest /\
  (forall c, ds_id d <> 0 -> co = Created c ->
             currentConversation (core fresh) = Some c) /\
  (ds_id d = 0 \/ co = CreateFailed ->
   currentConversation (core fresh) = None /\
   forall text, submitStart (setQuery text (core fresh)) = (setQuery text (core fresh), None)) /\
  (forall n c, n <> 0 -> api n = Created c ->
     let kept := run [Loaded (Listed (d :: rest)) co] (mounted api (Some n)) in
     selectedDataset kept = Some n /\ currentConversation (core kept) = Some c).
Proof.
  cbv zeta. rewrite loaded_fresh. cbn [selectedDataset datasets core currentConversation].
  repeat apply conj; try reflexivity.
  - intros c Hd ->. now rewrite (proj2 (Z.eqb_neq _ _) Hd).
  - intros [Hd | Hco].
    + rewrite Hd. now split.
    + rewrite Hco. destruct (negb (ds_id d =? 0)); now split.
  - intros n c Hn Hapi. now rewrite (loaded_kept api d rest co n c Hn Hapi).
Qed.

(** A question made of a no-break space is blank: nothing is sent and the
    transcript stays as it is. *)
Example blank_question_not_sent :
  snd (submitStart (setQuery nbsp (core chat_ready))) = None /\
  messages (core (run [TypeQuery nbsp; Submit] chat_ready)) = [].
Proof. split; reflexivity. Qed.

Example zero_id_never_chats :
  let st := run [Loaded (Listed [ {| ds_id := 0; ds_name := "first" |} ])
                        (Created {| conversation_id := 1 |});
                 NewChat (Created {| conversation_id := 2 |});
                 TypeQuery (lit "anything"); Submit]
                (mounted (fun _ => Created {| conversation_id := 3 |}) None) in
  currentConversation (core st) = None /\ messages (core st) = [].
Proof. cbn. split; reflexivity. Qed.

End AnalyticsChatFacts.


(** ** Signing in and asking for a reset link *)

Section LoginFacts.
Import Js LoginPage.

Lemma detail_or_invalid_nonempty (detail : option string) :
  detail_or_invalid detail <> EmptyString.
Proof.
  unfold detail_or_invalid. destruct detail as [d|]; [|discriminate].
  destruct (falsy_string d) eqn:Hd; [discriminate|].
  intros ->. discriminate.
Qed.

Lemma handleSubmit_fields (login : string -> string -> LoginOutcome) (st : State) :
  email (fst (handleSubmit login st)) = email st /\
  password (fst (handleSubmit login st)) = password st /\
  loading (fst (handleSubmit login st)) = false.
Proof. unfold handleSubmit. destruct (login _ _); now repeat split. Qed.

Lemma submit_all_fields (outcomes : list LoginOutcome) (st : State) :
  email (fst (submit_all outcomes st)) = email st /\
  password (fst (submit_all outcomes st)) = password st.
Proof.
  revert st; induction outcomes as [|o rest IH]; intros st; cbn [submit_all]; [now split|].
  destruct (handleSubmit (fun _ _ => o) st) as [st1 effs1] eqn:H1.
  destruct (submit_all rest st1) as [st2 effs2] eqn:H2. cbn [fst].
  destruct (IH st1) as [He Hp]. rewrite H2 in He, Hp. cbn [fst] in He, Hp.
  destruct (handleSubmit_fields (fun _ _ => o) st) as (He1 & Hp1 & _).
  rewrite H1 in He1, Hp1. cbn [fst] in He1, Hp1. split; congruence.
Qed.

(** X12.  Signing in: each submission calls [login] once with the e-mail
    and password typed and ends with [loading] cleared.  The page goes to
    [/analytics] exactly when the call resolved, and the error of an
    earlier attempt is then gone; when it is rejected the page stays, the
    fields keep what was typed, and the error shown is the detail sent by
    the server or, when that is missing or empty, "Invalid credentials":
    it is never empty.  Over any series of attempts there are as many
    navigations as successful calls and as many calls as attempts. *)
Theorem login_outcomes (login : string -> string -> LoginOutcome) (st : State)
  (outcomes : list LoginOutcome) :
  let st' := fst (handleSubmit login st) in
  let effs := snd (handleSubmit login st) in
  (In (Navigate "/analytics") effs <-> login (email st) (password st) = LoggedIn) /\
  (forall path, In (Navigate path) effs -> path = "/analytics") /\
  List.filter (fun e => negb (is_navigate e)) effs = [Login (email st) (password st)] /\
  (login (email st) (password st) = LoggedIn -> error st' = EmptyString) /\
  (forall detail, login (email st) (password st) = LoginRejected detail ->
     error st' = detail_or_invalid detail /\ error st' <> EmptyString) /\
  email st' = email st /\ password st' = password st /\ loading st' = false /\
  length (List.filter is_navigate (snd (submit_all outcomes st)))
  = length (List.filter is_logged_in outcomes) /\
  length (List.filter (fun e => negb (is_navigate e)) (snd (submit_all outcomes st)))
  = length outcomes.
Proof.
  cbv zeta.
  assert (Hall : forall os s,
             length (List.filter is_navigate (snd (submit_all os s)))
             = length (List.filter is_logged_in os) /\
             length (List.filter (fun e => negb (is_navigate e)) (snd (submit_all os s)))
             = length os).
  { induction os as [|o os IH]; intros s; cbn [submit_all]; [now split|].
    destruct (handleSubmit (fun _ _ => o) s) as [s1 effs1] eqn:H1.
    destruct (submit_all os s1) as [s2 effs2] eqn:H2. cbn [snd].
    destruct (IH s1) as [Hn Hc]. rewrite H2 in Hn, Hc. cbn [snd] in Hn, Hc.
    unfold handleSubmit in H1. rewrite !List.filter_app, !length_app.
    destruct o; injection H1 as <- <-; cbn; rewrite Hn, Hc; now split. }
  destruct (Hall outcomes st) as [Hnav Hcalls].
  unfold handleSubmit.
  destruct (login (email st) (password st)) as [|detail] eqn:Hlogin; cbn [fst snd].
  - repeat apply conj; try reflexivity; try assumption.
    + intros _. right; now left.
    + intros path [H|[H|[]]]; [discriminate | now injection H as <-].
    + discriminate.
  - repeat apply conj; try reflexivity; try assumption.
    + intros [H|[]]; discriminate.
    + discriminate.
    + intros path [H|[]]. discriminate.
    + discriminate.
    + intros d [= <-]. split; [reflexivity | apply detail_or_invalid_nonempty].
Qed.

End LoginFacts.

Section ForgotPasswordFacts.
Import Js ForgotPasswordPage.

Lemma detail_or_failed_nonempty (detail : option string) :
  detail_or_failed detail <> EmptyString.
Proof.
  unfold detail_or_failed. destruct detail as [d|]; [|discriminate].
  destruct (falsy_string d) eqn:Hd; [discriminate|].
  intros ->. discriminate.
Qed.

(** X13.  Asking for a reset link: every submission posts the address as
    typed to [/auth/forgot-password], whatever it is (the handler checks
    nothing), and clears [loading].  The confirmation replaces the form
    exactly when the call resolved (or had resolved before), and it shows
    the address typed; when the call is rejected the form stays, with the
    server's detail or, when that is missing or empty, "Failed to send
    reset email". *)
Theorem forgot_outcomes (api : string -> PostOutcome) (st : State) :
  let st' := fst (handleSubmit api st) in
  snd (handleSubmit api st) = [Post "/auth/forgot-password" (email st)] /\
  loading st' = false /\ email st' = email st /\
  (success st' = true <-> success st = true \/ api (email st) = Resolved) /\
  (view st' = CheckYourEmail (email st) <->
   success st = true \/ api (email st) = Resolved) /\
  (forall detail, success st = false -> api (email st) = Rejected detail ->
     view st' = FormView (detail_or_failed detail) /\
     detail_or_failed detail <> EmptyString).
Proof.
  cbv zeta. unfold handleSubmit, view.
  destruct (api (email st)) as [|detail] eqn:Hapi; destruct (success st) eqn:Hs;
    cbn [fst snd success email loading error];
    (split; [reflexivity|]); (split; [reflexivity|]); (split; [reflexivity|]);
    (split; [|split]).
  all: try (split; [now auto | intros [H|H]; congruence]).
  all: try discriminate.
  - intros d _ [= <-]. split; [reflexivity | apply detail_or_failed_nonempty].
Qed.

End ForgotPasswordFacts.

(** ** Resetting the password: from the link to the request *)

Section ResetFlowFacts.
Import Js ResetPasswordPage ResetPasswordFlow PageSamples.
Local Open Scope list_scope.

Lemma verifyToken_valid_iff (api : jsstring -> VerifyOutcome) (tok : option jsstring) :
  tokenValid (fst (verifyToken api (initial tok))) = true <->
  exists t, tok = Some t /\ t <> [] /\ api (verify_url t) = Verified true.
Proof.
  unfold verifyToken, initial. cbn [token].
  destruct tok as [t|]; [|split; [discriminate | intros (t & H & _); discriminate]].
  destruct t as [|u t]; cbn [falsy].
  - split; [discriminate | intros (t & [= <-] & Hne & _); contradiction].
  - destruct (api (verify_url (u :: t))) as [[|]|] eqn:Hapi; cbn.
    + split; [intros _; now exists (u :: t) | reflexivity].
    + split; [discriminate | intros (t' & [= <-] & _ & H); congruence].
    + split; [discriminate | intros (t' & [= <-] & _ & H); congruence].
Qed.

(** X14.  Checking a reset link.  No request is made for a missing or empty
    token; otherwise exactly one, for that token.  Afterwards the page no
    longer shows the spinner; the link counts as valid exactly when a
    token was given and the server answered that it is valid, and only
    then is the form shown; in every other case the page shows one of the
    three fixed explanations, never an empty one. *)
Theorem verifyToken_outcomes (api : jsstring -> VerifyOutcome) (tok : option jsstring) :
  let st' := fst (verifyToken api (initial tok)) in
  let requested := snd (verifyToken api (initial tok)) in
  validating st' = false /\
  (requested = [] <-> tok = None \/ tok = Some []) /\
  (forall t, tok = Some t -> t <> [] -> requested = [verify_url t]) /\
  (tokenValid st' = true <->
   exists t, tok = Some t /\ t <> [] /\ api (verify_url t) = Verified true) /\
  (view st' = Form [] <-> tokenValid st' = true) /\
  (tokenValid st' = false ->
   view st' = InvalidLink (lit "Invalid reset link") \/
   view st' = InvalidLink (lit "This reset link is invalid or has expired") \/
   view st' = InvalidLink (lit "Failed to verify reset link")).
Proof.
  cbv zeta. split; [|split; [|split; [|split; [apply verifyToken_valid_iff|]]]].
  - unfold verifyToken, initial. cbn [token].
    destruct tok as [t|]; [|reflexivity].
    destruct (falsy t); [reflexivity|]. now destruct (api _) as [[|]|].
  - unfold verifyToken, initial. cbn [token].
    destruct tok as [t|]; [|split; auto].
    destruct t as [|u t]; cbn [falsy].
    + split; auto.
    + split.
      * destruct (api _) as [[|]|]; discriminate.
      * intros [Hn|[= Hn]]; discriminate.
  - intros t -> Hne. unfold verifyToken, initial. cbn [token].
    rewrite (proj2 (falsy_false_iff _) Hne). now destruct (api _) as [[|]|].
  - unfold verifyToken, initial, view. cbn [token].
    destruct tok as [t|]; [|cbn; split; [split; discriminate | intros _; now left]].
    destruct (falsy t); [cbn; split; [split; discriminate | intros _; now left]|].
    destruct (api (verify_url t)) as [[|]|]; cbn.
    + split; [split; reflexivity | discriminate].
    + split; [split; discriminate | intros _; right; now left].
    + split; [split; discriminate | intros _; right; now right].
Qed.

Lemma view_form_inv (st : State) (err : jsstring) :
  view st = Form err ->
  validating st = false /\ tokenValid st = true /\ success st = false /\ error st = err.
Proof.
  unfold view. destruct (validating st); [discriminate|].
  destruct (tokenValid st); [|discriminate]. cbn [negb].
  destruct (success st); [discriminate|]. now intros [= ->].
Qed.

Lemma verifyToken_token (api : jsstring -> VerifyOutcome) (st : State) :
  token (fst (verifyToken api st)) = token st.
Proof.
  unfold verifyToken. destruct (token st) as [t|] eqn:Ht; [|now cbn].
  destruct (falsy t); [now cbn|]. destruct (api _) as [[|]|]; now cbn.
Qed.

Lemma detail_or_default_nonempty (detail : option jsstring) :
  detail_or_default detail <> [].
Proof.
  unfold detail_or_default. destruct detail as [[|u d]|]; discriminate.
Qed.

(** X15.  From the link to the request.  Suppose that, after the link was
    checked, the page shows the form, and the user fills in the two
    password fields and submits.  Then the link carried a non-empty token
    that the server accepted; any request sent goes to
    [/auth/reset-password] with that very token and the typed password,
    which equals its confirmation and has six code units or more.  When the
    server accepts, the page shows the confirmation and schedules the
    move to [/login] after 2000 ms; when it refuses, the form is shown
    again with a non-empty message and nothing is scheduled; when a check
    fails, the form is shown again with a non-empty message and nothing was
    sent. *)
Theorem reset_flow (verify : jsstring -> VerifyOutcome) (post : ResetRequest -> ApiOutcome)
    (tok : option jsstring) (pw pw2 err : jsstring) :
  view (fst (verifyToken verify (initial tok))) = Form err ->
  let filled :=
    setConfirmPassword pw2 (setNewPassword pw (fst (verifyToken verify (initial tok)))) in
  let st' := fst (handleSubmit post filled) in
  let effs := snd (handleSubmit post filled) in
  let body := {| req_token := tok; req_new_password := pw |} in
  (exists t, tok = Some t /\ t <> [] /\ verify (verify_url t) = Verified true) /\
  (forall path b, In (Post path b) effs ->
     path = "/auth/reset-password" /\ b = body /\
     pw = pw2 /\ (6 <= length pw)%nat) /\
  (pw = pw2 -> (6 <= length pw)%nat -> post body = Resolved ->
     view st' = ResetDone /\
     effs = [Post "/auth/reset-password" body; SetTimeout 2000 "/login"]) /\
  (pw = pw2 -> (6 <= length pw)%nat ->
   forall detail, post body = Rejected detail ->
     view st' = Form (detail_or_default detail) /\
     detail_or_default detail <> [] /\
     effs = [Post "/auth/reset-password" body]) /\
  (pw <> pw2 \/ (length pw < 6)%nat ->
     effs = [] /\ exists msg, view st' = Form msg /\ msg <> []).
Proof.
  intros Hview. cbv zeta.
  pose proof (verifyToken_token verify (initial tok)) as Htok. cbn [initial token] in Htok.
  destruct (view_form_inv _ _ Hview) as (Hval & Hvalid & Hsucc & _).
  split; [now apply verifyToken_valid_iff|].
  set (st0 := fst (verifyToken verify (initial tok))) in *.
  unfold handleSubmit.
  cbn [setConfirmPassword setNewPassword setError setLoading setSuccess
       newPassword confirmPassword token].
  rewrite Htok.
  destruct (eqb_spec_dec pw pw2) as [Heq|Hne];
    [rewrite (proj2 (eqb_eq _ _) Heq) | rewrite (proj2 (eqb_neq _ _) Hne)]; cbn [negb].
  - destruct (Nat.ltb_spec (length pw) 6) as [Hlt|Hge].
    + cbn [fst snd]. split; [intros ? ? []|].
      split; [intros _ Hge; lia|]. split; [intros _ Hge; lia|].
      intros _. split; [reflexivity|].
      exists (lit "Password must be at least 6 characters"). split; [|discriminate].
      unfold view. cbn. now rewrite Hval, Hvalid, Hsucc.
    + destruct (post _) as [|detail] eqn:Hpost; cbn [fst snd].
      * split.
        { intros path b [[= <- <-]|[[=]|[]]]. repeat split; assumption. }
        split.
        { intros _ _ _. split; [|reflexivity]. unfold view. cbn. now rewrite Hval, Hvalid. }
        split; [intros _ _ detail [=]|]. intros [Hne|Hlt]; [contradiction | lia].
      * split.
        { intros path b [[= <- <-]|[]]. repeat split; assumption. }
        split; [intros _ _ [=]|]. split.
        { intros _ _ detail' [= <-]. split; [|split; [apply detail_or_default_nonempty | reflexivity]].
          unfold view. cbn. now rewrite Hval, Hvalid, Hsucc. }
        intros [Hne|Hlt]; [contradiction | lia].
  - cbn [fst snd]. split; [intros ? ? []|].
    split; [intros Heq; contradiction|]. split; [intros Heq; contradiction|].
    intros _. split; [reflexivity|].
    exists (lit "Passwords do not match"). split; [|discriminate].
    unfold view. cbn. now rewrite Hval, Hvalid, Hsucc.
Qed.

Lemma reset_flow_witness :
  view (fst (verifyToken verify_api (initial (Some (lit "good"))))) = Form [] /\
  view (fst (handleSubmit (fun _ => Resolved)
               (setConfirmPassword (lit "secret1")
                  (setNewPassword (lit "secret1")
                     (fst (verifyToken verify_api (initial (Some (lit "good"))))))))) = ResetDone.
Proof.
  split; [reflexivity|].
  apply (reset_flow verify_api (fun _ => Resolved) (Some (lit "good")) (lit "secret1") (lit "secret1")
           [] eq_refl); [reflexivity | vm_compute; lia | reflexivity].
Defined.

End ResetFlowFacts.

(** ** The active-datasets page over a visit *)

Section ActiveDatasetsSessionFacts.
Import Js ActiveDatasetsPage ActiveDatasetsSession Samples PageSamples.

Lemma stored_saved (b : Browser) (ids : list Z) :
  stored b ids -> savedActiveIds b = Some ids.
Proof.
  unfold stored, savedActiveIds. intros [->|[-> ->]]; [|reflexivity].
  rewrite stringify_nonempty. apply JSON_parse_stringify.
Qed.

Lemma ids_include_In (ids : list Z) (x : Z) : ids_include ids x = true <-> In x ids.
Proof.
  unfold ids_include. rewrite existsb_exists. split.
  - intros (y & Hy & Heq). apply Z.eqb_eq in Heq. now subst.
  - intros H. exists x. split; [assumption | apply Z.eqb_refl].
Qed.

(** With a well-formed storage entry and a listing, the state after the
    load. *)
Lemma load_listed_state (all : list DatasetEntry) (ids : list Z) (st : State) (b : Browser) :
  stored b ids ->
  loadActiveDatasets (Listed all) st b
  = {| datasets := List.filter (fun d => ids_include ids (id d)) all;
       activeDatasetIds := ids;
       loading := false |}.
Proof. intros Hst. unfold loadActiveDatasets. now rewrite (stored_saved b ids Hst). Qed.

(** X16.  Loading the page.  When the storage entry is absent or holds a
    list the page wrote, and the listing succeeds, the page remembers
    exactly the saved ids and displays exactly the listed datasets whose
    id is saved, in the order of the listing; a saved id that is not
    listed is remembered all the same.  When the listing fails the saved
    ids are remembered but the displayed datasets stay as they were.  In
    both cases the spinner is gone. *)
Theorem loadActiveDatasets_listed (all : list DatasetEntry) (ids : list Z)
    (st : State) (b : Browser) :
  stored b ids ->
  let st' := loadActiveDatasets (Listed all) st b in
  let failed := loadActiveDatasets ListFailed st b in
  loading st' = false /\
  activeDatasetIds st' = ids /\
  sublist (datasets st') all /\
  (forall d, In d (datasets st') <-> In d all /\ In (id d) ids) /\
  in_step all st' /\
  loading failed = false /\
  activeDatasetIds failed = ids /\
  datasets failed = datasets st.
Proof.
  intros Hst. cbv zeta. unfold loadActiveDatasets, in_step.
  rewrite (stored_saved b ids Hst). cbn [loading activeDatasetIds datasets].
  split; [reflexivity|]. split; [reflexivity|]. split; [apply filter_sublist|].
  split; [|repeat split; reflexivity].
  intros d. rewrite filter_In, ids_include_In. reflexivity.
Qed.

Lemma loadActiveDatasets_listed_witness :
  stored two_datasets_browser [4; 9] /\
  activeDatasetIds (loadActiveDatasets (Listed listed_datasets) empty_active
                      two_datasets_browser) = [4; 9].
Proof.
  split; [left; reflexivity|].
  apply (loadActiveDatasets_listed listed_datasets [4; 9] empty_active
           two_datasets_browser (or_introl eq_refl)).
Defined.

Lemma removeFromActive_in_step (all : list DatasetEntry) (x : Z) (st : State) (b : Browser) :
  in_step all st -> in_step all (fst (removeFromActive x st b)).
Proof.
  unfold in_step, removeFromActive. cbn [fst datasets activeDatasetIds]. intros ->.
  induction all as [|d all IH]; [reflexivity|].
  cbn [List.filter]. rewrite ids_include_filter.
  destruct (ids_include (activeDatasetIds st) (id d)); cbn [andb List.filter].
  - destruct (negb (id d =? x)); now rewrite IH.
  - exact IH.
Qed.

Lemma removeFromActive_stored (x : Z) (st : State) (b : Browser) :
  stored (snd (removeFromActive x st b)) (activeDatasetIds (fst (removeFromActive x st b))).
Proof. left. unfold removeFromActive. cbn [fst snd localStorage activeDatasetIds]. apply lookup_insert_eq. Qed.

Lemma removeEach_ids (xs : list Z) (p : State * Browser) :
  activeDatasetIds (fst (removeEach xs p))
  = List.filter (fun i => negb (ids_include xs i)) (activeDatasetIds (fst p)).
Proof.
  revert p. induction xs as [|x xs IH]; intros p; cbn [removeEach].
  - cbn. induction (activeDatasetIds (fst p)) as [|i l IHl]; [reflexivity|].
    cbn. now rewrite <- IHl.
  - rewrite IH. unfold removeFromActive. cbn [fst activeDatasetIds].
    induction (activeDatasetIds (fst p)) as [|i l IHl]; [reflexivity|].
    cbn [List.filter ids_include existsb]. unfold ids_include in *.
    rewrite (Z.eqb_sym x i).
    destruct (i =? x); cbn [negb orb List.filter]; [exact IHl|].
    destruct (negb (existsb (fun y => y =? i) xs)); now rewrite IHl.
Qed.

Lemma removeEach_inv (all : list DatasetEntry) (xs : list Z) (p : State * Browser) :
  in_step all (fst p) -> stored (snd p) (activeDatasetIds (fst p)) ->
  in_step all (fst (removeEach xs p)) /\
  stored (snd (removeEach xs p)) (activeDatasetIds (fst (removeEach xs p))).
Proof.
  revert p. induction xs as [|x xs IH]; intros p Hstep Hst; cbn [removeEach]; [now split|].
  apply IH; [now apply removeFromActive_in_step | apply removeFromActive_stored].
Qed.

Lemma removeEach_dispatched (xs : list Z) (p : State * Browser) :
  dispatched (snd (removeEach xs p))
  = (dispatched (snd p) ++ List.repeat "storage" (List.length xs))%list.
Proof.
  revert p. induction xs as [|x xs IH]; intros p; cbn [removeEach List.length List.repeat].
  - now rewrite app_nil_r.
  - rewrite IH. unfold removeFromActive. cbn [snd dispatched].
    now rewrite <- app_assoc.
Qed.

Lemma removeEach_loading (xs : list Z) (p : State * Browser) :
  loading (fst (removeEach xs p)) = loading (fst p).
Proof.
  revert p. induction xs as [|x xs IH]; intros p; cbn [removeEach]; [reflexivity|].
  now rewrite IH.
Qed.

(** X17.  The page and the storage stay in step.  Start from a storage
    entry that is absent or was written by the page, load the page with a
    listing [all], then remove datasets [xs] one after the other.  The
    remembered ids are the saved ones without those of [xs]; the displayed
    datasets are exactly the listed ones whose id is still remembered; the
    storage holds the remembered ids; one [storage] event was dispatched
    per removal; and loading the page again with the same listing gives
    the very state the page is in. *)
Theorem removals_then_reload (all : list DatasetEntry) (ids xs : list Z) (b : Browser) :
  stored b ids ->
  let p := removeEach xs (mount (Listed all) b, b) in
  activeDatasetIds (fst p) = List.filter (fun i => negb (ids_include xs i)) ids /\
  in_step all (fst p) /\
  stored (snd p) (activeDatasetIds (fst p)) /\
  dispatched (snd p) = (dispatched b ++ List.repeat "storage" (List.length xs))%list /\
  loadActiveDatasets (Listed all) (fst p) (snd p) = fst p.
Proof.
  intros Hst. cbv zeta.
  assert (Hload : loading (mount (Listed all) b) = false)
    by (unfold mount; now rewrite (load_listed_state all ids initial b Hst)).
  assert (Hids : activeDatasetIds (mount (Listed all) b) = ids)
    by (unfold mount; now rewrite (load_listed_state all ids initial b Hst)).
  assert (Hstep : in_step all (mount (Listed all) b))
    by (unfold mount, in_step; now rewrite (load_listed_state all ids initial b Hst)).
  assert (Hst0 : stored b (activeDatasetIds (mount (Listed all) b))) by now rewrite Hids.
  destruct (removeEach_inv all xs (mount (Listed all) b, b) Hstep Hst0) as [Hstep' Hst'].
  split; [now rewrite removeEach_ids; cbn [fst]; rewrite Hids|].
  split; [assumption|]. split; [assumption|].
  split; [apply removeEach_dispatched|].
  pose proof (removeEach_loading xs (mount (Listed all) b, b)) as Hl.
  cbn [fst] in Hl. rewrite Hload in Hl.
  unfold loadActiveDatasets. rewrite (stored_saved _ _ Hst').
  unfold in_step in Hstep'. rewrite <- Hstep', <- Hl.
  now destruct (fst (removeEach xs (mount (Listed all) b, b))).
Qed.

Lemma removals_then_reload_witness :
  stored two_datasets_browser [4; 9] /\
  activeDatasetIds
    (fst (removeEach [4; 7] (mount (Listed listed_datasets) two_datasets_browser,
                             two_datasets_browser))) = [9].
Proof.
  split; [left; reflexivity|].
  apply (removals_then_reload listed_datasets [4; 9] [4; 7] two_datasets_browser
           (or_introl eq_refl)).
Defined.

Lemma filter_comm {A} (f g : A -> bool) (l : list A) :
  List.filter f (List.filter g l) = List.filter g (List.filter f l).
Proof.
  induction l as [|a l IH]; [reflexivity|]. cbn [List.filter].
  destruct (f a) eqn:Hf, (g a) eqn:Hg; cbn [List.filter]; rewrite ?Hf, ?Hg, IH; reflexivity.
Qed.

Lemma filter_twice {A} (f : A -> bool) (l : list A) :
  List.filter f (List.filter f l) = List.filter f l.
Proof. apply filter_filter_keep. auto. Qed.

(** X18.  Removals do not depend on their order, and removing a dataset a
    second time changes nothing but the event log: removing [x] then [y]
    leaves the page and the browser exactly as removing [y] then [x]; and
    after two removals of [x] the page and the storage are as after one. *)
Theorem removeFromActive_order (x y : Z) (st : State) (b : Browser) :
  removeEach [x; y] (st, b) = removeEach [y; x] (st, b) /\
  fst (removeEach [x; x] (st, b)) = fst (removeEach [x] (st, b)) /\
  localStorage (snd (removeEach [x; x] (st, b)))
  = localStorage (snd (removeEach [x] (st, b))) /\
  dispatched (snd (removeEach [x; x] (st, b)))
  = (dispatched (snd (removeEach [x] (st, b))) ++ ["storage"])%list.
Proof.
  cbn [removeEach fst snd]. unfold removeFromActive.
  cbn [fst snd datasets activeDatasetIds loading localStorage dispatched].
  split; [|split; [|split]].
  - f_equal.
    + f_equal; apply filter_comm.
    + f_equal. rewrite !insert_insert_eq.
      now rewrite (filter_comm (fun i => negb (i =? y)) (fun i => negb (i =? x))).
  - f_equal; apply filter_twice.
  - rewrite insert_insert_eq. now rewrite filter_twice.
  - reflexivity.
Qed.

End ActiveDatasetsSessionFacts.

(** ** The page with the simulated answer over a visit *)

Section SimulatedSessionFacts.
Import Js SimulatedAnalyticsPage SimulatedSession Samples.
Local Open Scope list_scope.

Lemma ask_messages (q : jsstring) (st : State) :
  loading st = false ->
  loading (ask q st) = false /\
  messages (ask q st)
  = messages st ++ (if AnalyticsPage.blank q then [] else exchange q).
Proof.
  intros Hl. unfold ask, handleSubmit, setQuery. cbn [query loading messages].
  rewrite Hl, orb_false_r. destruct (AnalyticsPage.blank q); cbn [loading messages].
  - now rewrite app_nil_r.
  - split; reflexivity.
Qed.

(** X19.  On the page with the simulated answer, a visit in which the
    questions [qs] are entered one after the other adds to the transcript,
    for each question that is not blank and in the order asked, the
    question followed by the one fixed answer; blank questions, that is
    those made of white space only, add nothing.  So the answer never
    depends on the question, and the transcript grows by two messages per
    accepted question. *)
Theorem asks_transcript (qs : list jsstring) (st : State) :
  loading st = false ->
  let accepted := List.filter (fun q => negb (forallb is_white_space q)) qs in
  messages (asks qs st) = messages st ++ flat_map exchange accepted /\
  loading (asks qs st) = false /\
  length (messages (asks qs st))
  = (length (messages st) + 2 * length accepted)%nat.
Proof.
  cbv zeta. revert st. induction qs as [|q qs IH]; intros st Hl.
  - cbn. rewrite app_nil_r. repeat split; [assumption | lia].
  - destruct (ask_messages q st Hl) as [Hl' Hm].
    destruct (IH (ask q st) Hl') as (IHm & IHl & IHn).
    change (asks (q :: qs) st) with (asks qs (ask q st)).
    rewrite IHn, IHm, Hm. cbn [List.filter].
    assert (Hb : AnalyticsPage.blank q = forallb is_white_space q).
    { destruct (forallb is_white_space q) eqn:Hw.
      - now apply blank_iff.
      - apply not_true_iff_false. rewrite blank_iff. congruence. }
    rewrite Hb. destruct (forallb is_white_space q); cbn [negb flat_map].
    + rewrite app_nil_r. repeat split; assumption.
    + rewrite <- app_assoc, length_app. cbn [exchange length app].
      repeat split; [assumption | lia].
Qed.

Lemma asks_transcript_witness :
  loading initial = false /\
  messages (asks [lit "  "; nbsp; lit "revenue by quarter"] initial)
  = [UserMessage (lit "revenue by quarter"); AssistantMessage simulated].
Proof.
  split; [reflexivity|].
  apply (asks_transcript [lit "  "; nbsp; lit "revenue by quarter"] initial eq_refl).
Defined.

(** *** The response of the page *)




End SimulatedSessionFacts.

(** ** What the chat page draws for an answer *)

Section ChatRenderingFacts.
Import Js AnalyticsPage AnalyticsChat PageSamples.
Local Open Scope list_scope.

Lemma step_replies (st : PageState) (e : Event) (c : AssistantContent) :
  In (AssistantMessage c) (messages (core (step st e))) ->
  In (AssistantMessage c) (messages (core st)) \/
  (exists d, e = Settle (Sent d) /\ c = assistantContent d) \/
  (exists detail, e = Settle (SendFailed detail) /\ c = errorContent detail).
Proof.
  destruct e as [lo co|text| |o|co|n co]; cbn [step].
  - destruct (datasetsLoaded_frame lo (fun _ => co) st) as (-> & _). now left.
  - now left.
  - cbn [with_core core]. unfold submitStart.
    destruct (currentConversation (core st)); [|now left].
    destruct (blank (query (core st)) || AnalyticsPage.loading (core st))%bool; [now left|].
    cbn [fst messages]. rewrite in_app_iff. intros [H|[[=]|[]]]. now left.
  - destruct (AnalyticsPage.loading (core st)); [|now left].
    cbn [with_core core submitFinish messages]. rewrite in_app_iff.
    intros [H|[[= <-]|[]]]; [now left|]. right.
    destruct o as [d|detail]; [left; now exists d | right; now exists detail].
  - destruct (handleNewChat_frame (fun _ => co) st) as (-> & _). intros [].
  - destruct (selectDataset_frame n (fun _ => co) st) as (-> & _). now left.
Qed.

Lemma run_replies (events : list Event) (st : PageState) (c : AssistantContent) :
  In (AssistantMessage c) (messages (core (run events st))) ->
  In (AssistantMessage c) (messages (core st)) \/
  (exists d, In (Settle (Sent d)) events /\ c = assistantContent d) \/
  (exists detail, In (Settle (SendFailed detail)) events /\ c = errorContent detail).
Proof.
  unfold run. revert st. induction events as [|e events IH]; intros st; cbn [fold_left].
  - now left.
  - intros H. apply IH in H as [H|[(d & Hin & ->)|(detail & Hin & ->)]].
    + apply step_replies in H as [H|[(d & -> & ->)|(detail & -> & ->)]].
      * now left.
      * right; left. exists d. split; [now left | reflexivity].
      * right; right. exists detail. split; [now left | reflexivity].
    + right; left. exists d. split; [now right | reflexivity].
    + right; right. exists detail. split; [now right | reflexivity].
Qed.

(** *** The guard in front of the chart *)

(** The guard reads truthiness: an array or an object is truthy whatever it
    holds, [null] and [undefined] never are. *)
Lemma renders_chart_iff (c : AssistantContent) :
  renders_chart c = true <->
  truthy (visualization c) = true /\ truthy (result_data c) = true.
Proof. unfold renders_chart. apply andb_true_iff. Qed.



Example no_chart_for_null_rows :
  renders_chart
    {| text := Str (lit "done"); generated_sql := Undefined; result_data := Null;
       visualization := Obj [(lit "type", Str (lit "bar"))]; columns := Undefined |}
  = false.
Proof. reflexivity. Qed.

Lemma errorContent_text (detail : value) : truthy (text (errorContent detail)) = true.
Proof. unfold errorContent. cbn [text]. now destruct (truthy detail) eqn:H. Qed.

(** X20.  Where the parts of an answer come from.  Start from an empty
    transcript and let anything happen on the chat page.  Every answer in
    the transcript is the content of a call that came back.  An answer
    drawn with a chart comes from a successful call whose [query_data]
    was present with a truthy [visualization] and a truthy [result_data];
    an answer with the SQL block comes from a successful call whose
    [query_data] carried a truthy [generated_sql]; and an answer without
    text comes from a successful call with falsy [content].  So a failed
    call always shows a text, and never a chart or SQL. *)
Theorem answers_come_from_replies (events : list Event) (st : PageState)
    (c : AssistantContent) :
  messages (core st) = [] ->
  In (AssistantMessage c) (messages (core (run events st))) ->
  ((exists d, In (Settle (Sent d)) events /\ c = assistantContent d) \/
   (exists detail, In (Settle (SendFailed detail)) events /\ c = errorContent detail)) /\
  (renders_chart c = true ->
   exists d qd, In (Settle (Sent d)) events /\ c = assistantContent d /\
     md_query_data d = Some qd /\
     truthy (qd_visualization qd) = true /\ truthy (qd_result_data qd) = true) /\
  (renders_sql c = true ->
   exists d qd, In (Settle (Sent d)) events /\ c = assistantContent d /\
     md_query_data d = Some qd /\ truthy (qd_generated_sql qd) = true) /\
  (truthy (text c) = false ->
   exists d, In (Settle (Sent d)) events /\ c = assistantContent d /\
     truthy (md_content d) = false).
Proof.
  intros Hempty Hin. apply run_replies in Hin. rewrite Hempty in Hin.
  destruct Hin as [[]|[(d & Hin & ->)|(detail & Hin & ->)]].
  - split; [left; now exists d|]. split; [|split].
    + intros H. unfold renders_chart, assistantContent in H.
      cbn [visualization result_data] in H.
      destruct (md_query_data d) as [qd|] eqn:Hqd; cbn [opt_field] in H; [|discriminate].
      apply andb_true_iff in H as [Hv Hr]. exists d, qd. repeat split; assumption.
    + intros H. unfold renders_sql, assistantContent in H. cbn [generated_sql] in H.
      destruct (md_query_data d) as [qd|] eqn:Hqd; cbn [opt_field] in H; [|discriminate].
      exists d, qd. repeat split; assumption.
    + cbn [assistantContent text]. intros H. now exists d.
  - split; [right; now exists detail|]. split; [|split].
    + discriminate.
    + discriminate.
    + rewrite errorContent_text. discriminate.
Qed.

Lemma answers_come_from_replies_witness :
  messages (core chat_ready) = [] /\
  In (AssistantMessage (assistantContent
        {| md_content := Str (lit "North leads."); md_query_data := None |}))
     (messages (core (run [Submit; Settle plain_reply] chat_ready))) /\
  ((exists d, In (Settle (Sent d)) [Submit; Settle plain_reply] /\
      assistantContent {| md_content := Str (lit "North leads."); md_query_data := None |}
      = assistantContent d) \/
   (exists detail, In (Settle (SendFailed detail)) [Submit; Settle plain_reply] /\
      assistantContent {| md_content := Str (lit "North leads."); md_query_data := None |}
      = errorContent detail)).
Proof.
  assert (Hin : In (AssistantMessage (assistantContent
                  {| md_content := Str (lit "North leads."); md_query_data := None |}))
                (messages (core (run [Submit; Settle plain_reply] chat_ready))))
    by (right; left; reflexivity).
  split; [reflexivity|]. split; [exact Hin|].
  apply (answers_come_from_replies [Submit; Settle plain_reply] chat_ready _ eq_refl Hin).
Defined.

End ChatRenderingFacts.


(** ** The analytics pipeline *)

Section PipelineFacts.
Import Js Pipeline.
Context `{Templates}.

(** *** The run monad *)

Lemma bind_eq {A B} (c : M A) (k : A -> M B) (s : RunState) :
  bind c k s = k (fst (c s)) (snd (c s)).
Proof. unfold bind. now destruct (c s). Qed.

Lemma bind_ext {A B} (c1 c2 : M A) (k1 k2 : A -> M B) :
  (forall s, c1 s = c2 s) ->
  (forall a s, k1 a s = k2 a s) ->
  forall s, bind c1 k1 s = bind c2 k2 s.
Proof. intros Hc Hk s. rewrite !bind_eq, Hc. apply Hk. Qed.

Lemma appends_ret {A} (a : A) : appends (ret a) [].
Proof. intros s. simpl. now rewrite app_nil_r. Qed.

Lemma appends_bind {A B} (c : M A) (k : A -> M B) l1 l2 :
  appends c l1 -> (forall a, appends (k a) l2) -> appends (bind c k) (l1 ++ l2)%list.
Proof.
  intros Hc Hk s. rewrite bind_eq, Hk, Hc. now rewrite app_assoc.
Qed.

Lemma appends_log (e : Event) : appends (log e) [e].
Proof. intros s. reflexivity. Qed.

Lemma appends_generate res cfg prompt t : appends (generate res cfg prompt t) [].
Proof. intros s. simpl. now rewrite app_nil_r. Qed.

Lemma appends_run_execute res sql limit timeout :
  appends (run_execute res sql limit timeout) [].
Proof.
  intros s. unfold run_execute.
  destruct (execute _ _ _ _ _). simpl. now rewrite app_nil_r.
Qed.

Lemma appends_get_provider_ok : appends get_provider_ok [].
Proof. intros s. simpl. now rewrite app_nil_r. Qed.

(** *** SQL Generation & Validation Stage *)

Lemma sql_start_inv (cfg : Config) : sql_inv cfg sql_start.
Proof. unfold sql_inv, sql_start; cbn. repeat split; lia. Qed.

Lemma sql_start_measure (cfg : Config) : sql_measure cfg sql_start = sql_fuel cfg.
Proof. reflexivity. Qed.

Lemma measure_zero_terminal (cfg : Config) (m : SqlMachine) :
  sql_measure cfg m = 0%nat -> is_terminal (phase m) = true.
Proof. unfold sql_measure. destruct (phase m); intros; try reflexivity; lia. Qed.

Lemma history_snoc_attempts (h : list CandidateQuery) (c : CandidateQuery) :
  map cq_attempt h = seq 1 (length h) ->
  cq_attempt c = (length h + 1)%nat ->
  map cq_attempt (h ++ [c]) = seq 1 (length (h ++ [c])).
Proof.
  intros Hh Hc. rewrite map_app, length_app, Hh. cbn [map length].
  rewrite Nat.add_1_r, seq_S, Hc. f_equal. f_equal. lia.
Qed.

Lemma Forall_snoc {A} (P : A -> Prop) (l : list A) (x : A) :
  Forall P l -> P x -> Forall P (l ++ [x]).
Proof. intros Hl Hx. apply Forall_app. split; [exact Hl | now constructor]. Qed.

Ltac settle_inv :=
  unfold sql_inv, sql_measure, fresh; cbn;
  repeat split; try reflexivity; auto; try lia.

(** One transition keeps the invariant and uses up the measure. *)
Lemma sql_step_inv res cfg query schema plan trail (m : SqlMachine) (s : RunState) :
  sql_inv cfg m ->
  is_terminal (phase m) = false ->
  sql_inv cfg (fst (sql_step res cfg query schema plan trail m s)) /\
  (sql_measure cfg (fst (sql_step res cfg query schema plan trail m s))
   < sql_measure cfg m)%nat.
Proof.
  intros (Hseq & Hlen & Hph) Hterm.
  unfold sql_step. destruct m as [ph h]. cbn [phase history] in *.
  destruct ph as [|c|c|c msg|c rs|]; try discriminate.
  - (* GENERATE *)
    subst h. destruct (Nat.leb_spec 1 (max_sql_attempts cfg)) as [Hmax|Hmax].
    + rewrite bind_eq. cbn [ret fst]. settle_inv.
    + cbn [ret fst]. settle_inv.
  - (* VALIDATE *)
    destruct Hph as (Hatt & Hmax & [Hnoerr Hnoout] & Hfail).
    destruct (validate schema (cq_sql c)) as [|e errs]; cbn [ret fst].
    + settle_inv.
    + unfold sql_inv, sql_measure; cbn [phase history]. repeat split.
      * now apply history_snoc_attempts.
      * rewrite length_app. cbn. lia.
      * rewrite length_app. cbn. lia.
      * apply Forall_snoc; [exact Hfail|]. left. cbn. discriminate.
      * cbn. lia.
  - (* EXECUTE *)
    destruct Hph as (Hatt & Hmax & [Hnoerr Hnoout] & Hfail).
    rewrite bind_eq.
    destruct (fst (run_execute res (cq_sql c) (row_limit cfg) (exec_timeout cfg) s))
      as [rs|e]; cbn [ret fst].
    + unfold sql_inv, sql_measure; cbn [phase history]. repeat split.
      * now apply history_snoc_attempts.
      * rewrite length_app. cbn. lia.
      * exists h. repeat split; auto.
      * lia.
    + unfold sql_inv, sql_measure; cbn [phase history]. repeat split.
      * now apply history_snoc_attempts.
      * rewrite length_app. cbn. lia.
      * rewrite length_app. cbn. lia.
      * apply Forall_snoc; [exact Hfail|]. right. now exists e.
      * cbn. lia.
  - (* CORRECT *)
    destruct Hph as (Hatt & Hfail).
    destruct (Nat.leb_spec (cq_attempt c + 1) (max_sql_attempts cfg)) as [Hmax|Hmax].
    + rewrite bind_eq. cbn [ret fst]. settle_inv.
    + cbn [ret fst]. settle_inv.
Qed.

(** With fuel for the measure, the machine runs to a terminal phase. *)
Lemma sql_run_terminates res cfg query schema plan trail :
  forall (fuel : nat) (m : SqlMachine) (s : RunState),
    sql_inv cfg m ->
    (sql_measure cfg m <= fuel)%nat ->
    sql_inv cfg (fst (sql_run fuel res cfg query schema plan trail m s)) /\
    is_terminal (phase (fst (sql_run fuel res cfg query schema plan trail m s))) = true.
Proof.
  induction fuel as [|fuel IH]; intros m s Hinv Hfuel.
  - cbn. split; [exact Hinv|]. apply (measure_zero_terminal cfg). lia.
  - cbn [sql_run]. destruct (is_terminal (phase m)) eqn:Hterm.
    + cbn. now split.
    + rewrite bind_eq.
      destruct (sql_step_inv res cfg query schema plan trail m s Hinv Hterm) as [Hinv' Hlt].
      apply IH; [exact Hinv' | lia].
Qed.

Lemma sql_stage_inv res cfg query schema plan trail (s : RunState) :
  sql_inv cfg (fst (sql_stage res cfg query schema plan trail s)) /\
  is_terminal (phase (fst (sql_stage res cfg query schema plan trail s))) = true.
Proof.
  unfold sql_stage. rewrite bind_eq.
  apply sql_run_terminates; [apply sql_start_inv | now rewrite sql_start_measure].
Qed.

Lemma accepted_not_failed (c : CandidateQuery) (rs : ResultSet) :
  cq_validation_errors c = [] -> cq_outcome c = Some (Ok rs) -> ~ failed c.
Proof. intros Hv Ho [Hne | [e He]]; congruence. Qed.

(** C2.  In every run of the SQL Generation & Validation Stage the machine
    stops in a terminal phase; the attempts of its candidates are numbered
    1, 2, ... and none goes beyond the configured maximum, whose default is
    three; the stage ends as exhausted exactly when that many candidates
    were made and every one of them failed. *)
Theorem sql_attempts_bounded res cfg query schema plan trail (s : RunState) :
  let m := fst (sql_stage res cfg query schema plan trail s) in
  (attempts m <= max_sql_attempts cfg)%nat /\
  (length (history m) <= max_sql_attempts cfg)%nat /\
  map cq_attempt (history m) = seq 1 (length (history m)) /\
  is_terminal (phase m) = true /\
  (phase m = PhExhausted <->
   length (history m) = max_sql_attempts cfg /\ Forall failed (history m)) /\
  max_sql_attempts default_config = 3%nat.
Proof.
  cbv zeta.
  destruct (sql_stage_inv res cfg query schema plan trail s) as [(Hseq & Hlen & Hph) Hterm].
  set (m := fst (sql_stage res cfg query schema plan trail s)) in *.
  repeat apply conj; auto.
  - unfold attempts. rewrite Hseq. apply list_max_le, List.Forall_forall.
    intros a Ha. apply in_seq in Ha. lia.
  - intros Hex. rewrite Hex in Hph. tauto.
  - intros [Hn Hall]. destruct (phase m) as [|c|c|c msg|c rs|]; try discriminate.
    + exfalso. destruct Hph as (h & Hh & _ & Hv & Ho).
      rewrite Hh in Hall. apply Forall_app in Hall as [_ Hc].
      inversion Hc as [|? ? Hf _]; subst. now apply (accepted_not_failed c rs).
    + reflexivity.
Qed.

(** *** What each stage leaves in the trace *)

Lemma appends_plan_attempt res cfg query schema :
  appends (plan_attempt res cfg query schema) [].
Proof.
  unfold plan_attempt. apply (appends_bind _ _ [] []).
  - apply appends_generate.
  - intros r. apply appends_ret.
Qed.

Lemma appends_planning_stage res cfg query schema :
  appends (planning_stage res cfg query schema) [EvPlanning].
Proof.
  unfold planning_stage. apply (appends_bind _ _ [EvPlanning] []).
  - apply appends_log.
  - intros _. apply (appends_bind _ _ [] []).
    + apply appends_plan_attempt.
    + intros r. apply appends_ret.
Qed.

Lemma appends_probe res cfg schema question :
  appends (probe res cfg schema question) [].
Proof.
  unfold probe. apply (appends_bind _ _ [] []).
  - apply appends_generate.
  - intros [text|e].
    + apply (appends_bind _ _ [] []).
      * apply appends_run_execute.
      * intros o. apply appends_ret.
    + apply appends_ret.
Qed.

Lemma appends_explore res cfg schema questions :
  appends (explore res cfg schema questions) [].
Proof.
  induction questions as [|q rest IH]; cbn [explore].
  - apply appends_ret.
  - apply (appends_bind _ _ [] []).
    + apply appends_probe.
    + intros step. apply (appends_bind _ _ [] []).
      * exact IH.
      * intros steps. apply appends_ret.
Qed.

Lemma appends_exploration_stage res cfg schema plan :
  appends (exploration_stage res cfg schema plan) [EvExploration].
Proof.
  unfold exploration_stage. apply (appends_bind _ _ [EvExploration] []).
  - apply appends_log.
  - intros _. apply appends_explore.
Qed.

Lemma appends_sql_step res cfg query schema plan trail m :
  appends (sql_step res cfg query schema plan trail m) [].
Proof.
  unfold sql_step. destruct (phase m) as [|c|c|c msg|c rs|].
  - destruct (1 <=? max_sql_attempts cfg)%nat; [|apply appends_ret].
    apply (appends_bind _ _ [] []); [apply appends_generate | intros r; apply appends_ret].
  - destruct (validate schema (cq_sql c)); apply appends_ret.
  - apply (appends_bind _ _ [] []); [apply appends_run_execute |].
    intros [rs|e]; apply appends_ret.
  - destruct (cq_attempt c + 1 <=? max_sql_attempts cfg)%nat; [|apply appends_ret].
    apply (appends_bind _ _ [] []); [apply appends_generate | intros r; apply appends_ret].
  - apply appends_ret.
  - apply appends_ret.
Qed.

Lemma appends_sql_run res cfg query schema plan trail :
  forall fuel m, appends (sql_run fuel res cfg query schema plan trail m) [].
Proof.
  induction fuel as [|fuel IH]; intros m; cbn [sql_run].
  - apply appends_ret.
  - destruct (is_terminal (phase m)); [apply appends_ret|].
    apply (appends_bind _ _ [] []); [apply appends_sql_step | intros m'; apply IH].
Qed.

Lemma appends_sql_stage res cfg query schema plan trail :
  appends (sql_stage res cfg query schema plan trail) [EvSqlGeneration].
Proof.
  unfold sql_stage. apply (appends_bind _ _ [EvSqlGeneration] []).
  - apply appends_log.
  - intros _. apply appends_sql_run.
Qed.

Lemma appends_viz_stage res cfg query rows :
  appends (viz_stage res cfg query rows) [EvVisualization rows].
Proof.
  unfold viz_stage. apply (appends_bind _ _ [EvVisualization rows] []).
  - apply appends_log.
  - intros _.
    assert (Hmodel : appends
              (let* r := generate res cfg (viz_prompt query rows) (temp_viz cfg) in
               ret (chosen_specs r rows)) []).
    { apply (appends_bind _ _ [] []); [apply appends_generate | intros r; apply appends_ret]. }
    destruct (applicable_kinds cfg rows) as [|k [|k' ks]];
      [exact Hmodel | apply appends_ret | exact Hmodel].
Qed.

Lemma appends_insight_stage res cfg query plan trail sig :
  appends (insight_stage res cfg query plan trail sig) [EvInsight sig].
Proof.
  unfold insight_stage. apply (appends_bind _ _ [EvInsight sig] []).
  - apply appends_log.
  - intros _. apply (appends_bind _ _ [] []); [apply appends_generate|].
    intros r. apply appends_ret.
Qed.

Lemma appends_gather res cfg query schema :
  appends (gather res cfg query schema) [EvPlanning; EvExploration; EvSqlGeneration].
Proof.
  unfold gather. apply (appends_bind _ _ [EvPlanning] [EvExploration; EvSqlGeneration]).
  - apply appends_planning_stage.
  - intros plan. apply (appends_bind _ _ [EvExploration] [EvSqlGeneration]).
    + apply appends_exploration_stage.
    + intros trail. apply (appends_bind _ _ [EvSqlGeneration] []).
      * apply appends_sql_stage.
      * intros m. apply appends_ret.
Qed.

(** *** The orchestrator *)

Lemma gather_eq res cfg query schema (s : RunState) :
  let p := planning_stage res cfg query schema s in
  let x := exploration_stage res cfg schema (fst p) (snd p) in
  let m := sql_stage res cfg query schema (fst p) (fst x) (snd x) in
  gather res cfg query schema s
  = ({| ev_plan := fst p; ev_trail := fst x; ev_sql := fst m |}, snd m).
Proof. cbv zeta. unfold gather. rewrite !bind_eq. reflexivity. Qed.

Lemma run_pipeline_eq res cfg query schema (s : RunState) :
  run_pipeline res cfg query schema s
  = assemble res cfg query (fst (gather res cfg query schema s))
      (snd (gather res cfg query schema s)).
Proof. unfold run_pipeline. now rewrite bind_eq. Qed.

Lemma gather_sql_inv res cfg query schema (s : RunState) :
  sql_inv cfg (ev_sql (fst (gather res cfg query schema s))) /\
  is_terminal (phase (ev_sql (fst (gather res cfg query schema s)))) = true.
Proof.
  pose proof (gather_eq res cfg query schema s) as Hg. cbv zeta in Hg.
  rewrite Hg. cbn [fst ev_sql]. apply sql_stage_inv.
Qed.

Lemma appends_assemble res cfg query (e : Evidence) :
  appends (assemble res cfg query e) (closing_events e).
Proof.
  unfold assemble, closing_events.
  assert (Hnone : appends
    (let* ins := insight_stage res cfg query (ev_plan e) (ev_trail e) SigNoQuery in
     let* answered := get_provider_ok in
     ret {| natural_language_query := query;
            generated_sql := None;
            result_data := None;
            visualization_specs := [];
            insights := if answered then Some ins else None;
            analysis_plan := Some (ev_plan e);
            exploration_trail := Some (ev_trail e);
            status := if answered then Partial else Failed;
            message := Some (if answered
                             then "no query could be executed"
                             else "the model providers are unavailable") |})
    [EvInsight SigNoQuery]).
  { apply (appends_bind _ _ [EvInsight SigNoQuery] []); [apply appends_insight_stage|].
    intros ins. apply (appends_bind _ _ [] []); [apply appends_get_provider_ok|].
    intros b. apply appends_ret. }
  destruct (phase (ev_sql e)) as [|c|c|c msg|c rs|]; try exact Hnone.
  destruct (rs_rows rs) as [|r rows].
  - apply (appends_bind _ _ [EvInsight SigNoRows] []); [apply appends_insight_stage|].
    intros ins. apply appends_ret.
  - apply (appends_bind _ _ [EvVisualization (r :: rows)] [EvInsight (SigRows (r :: rows))]);
      [apply appends_viz_stage|].
    intros specs.
    apply (appends_bind _ _ [EvInsight (SigRows (r :: rows))] []); [apply appends_insight_stage|].
    intros ins. apply appends_ret.
Qed.

(** The trace of a whole run. *)
Lemma run_pipeline_trace res cfg query schema (s : RunState) :
  run_trace (snd (run_pipeline res cfg query schema s))
  = (run_trace s ++ [EvPlanning; EvExploration; EvSqlGeneration]
       ++ closing_events (fst (gather res cfg query schema s)))%list.
Proof.
  rewrite run_pipeline_eq, appends_assemble, appends_gather. now rewrite <- app_assoc.
Qed.

Ltac by_cases_of_assemble e :=
  unfold assemble;
  destruct (phase (ev_sql e)) as [|?c|?c|?c ?msg|?c ?rs|];
  [ | | | | destruct (rs_rows rs) as [|?r ?rows] | ];
  rewrite ?bind_eq; cbn [fst snd ret].

Lemma assemble_plan_trail res cfg query (e : Evidence) (s : RunState) :
  analysis_plan (fst (assemble res cfg query e s)) = Some (ev_plan e) /\
  exploration_trail (fst (assemble res cfg query e s)) = Some (ev_trail e) /\
  natural_language_query (fst (assemble res cfg query e s)) = query.
Proof. by_cases_of_assemble e; repeat split. Qed.

Lemma explore_length res cfg schema (questions : list string) (s : RunState) :
  length (fst (explore res cfg schema questions s)) = length questions.
Proof.
  revert s; induction questions as [|q rest IH]; intros s; cbn [explore].
  - reflexivity.
  - rewrite !bind_eq. cbn [ret fst length]. now rewrite IH.
Qed.

Lemma exploration_bounded res cfg schema plan (s : RunState) :
  (length (fst (exploration_stage res cfg schema plan s)) <= max_probes)%nat.
Proof.
  unfold exploration_stage. rewrite bind_eq, explore_length, length_take. lia.
Qed.

(** *** Planning Stage *)

Lemma plan_attempt_fails res cfg query schema (s : RunState) :
  planning_fails res cfg query schema (run_calls s) ->
  exists e, fst (plan_attempt res cfg query schema s) = Err e.
Proof.
  unfold planning_fails, plan_attempt. rewrite bind_eq. cbn [generate fst ret].
  destruct (generate_with _ _ _ _ _) as [text|k].
  - intros ->. now exists ParseError.
  - intros _. now exists (ProviderError k).
Qed.

Lemma planning_stage_default res cfg query schema (s : RunState) :
  planning_fails res cfg query schema (run_calls s) ->
  fst (planning_stage res cfg query schema s) = default_plan query.
Proof.
  intros Hf. unfold planning_stage. rewrite !bind_eq. cbn [ret fst].
  destruct (plan_attempt_fails res cfg query schema (snd (log EvPlanning s)) Hf) as [e ->].
  reflexivity.
Qed.

(** C5.  When the model call of the Planning Stage fails or its output does
    not parse, the stage returns the default plan: its understanding is
    the raw user query and it has no exploratory question.  The run goes
    on: exploration and SQL generation are invoked next, and the payload
    carries that default plan with an empty trail. *)
Theorem planning_failure_default res cfg query schema (s : RunState) :
  planning_fails res cfg query schema (run_calls s) ->
  let plan := fst (planning_stage res cfg query schema s) in
  let out := run_pipeline res cfg query schema s in
  plan = default_plan query /\
  understanding plan = query /\
  exploratory_questions plan = [] /\
  analysis_plan (fst out) = Some (default_plan query) /\
  exploration_trail (fst out) = Some [] /\
  exists rest,
    run_trace (snd out)
    = (run_trace s ++ [EvPlanning; EvExploration; EvSqlGeneration] ++ rest)%list
    /\ rest <> [].
Proof.
  intros Hf. cbv zeta.
  pose proof (planning_stage_default res cfg query schema s Hf) as Hplan.
  rewrite Hplan. repeat apply conj; try reflexivity.
  - rewrite run_pipeline_eq.
    destruct (assemble_plan_trail res cfg query (fst (gather res cfg query schema s))
                (snd (gather res cfg query schema s))) as (-> & _).
    pose proof (gather_eq res cfg query schema s) as Hg. cbv zeta in Hg.
    now rewrite Hg, Hplan.
  - rewrite run_pipeline_eq.
    destruct (assemble_plan_trail res cfg query (fst (gather res cfg query schema s))
                (snd (gather res cfg query schema s))) as (_ & -> & _).
    pose proof (gather_eq res cfg query schema s) as Hg. cbv zeta in Hg.
    rewrite Hg, Hplan. cbn [fst ev_trail].
    unfold exploration_stage. rewrite bind_eq. reflexivity.
  - exists (closing_events (fst (gather res cfg query schema s))). split.
    + apply run_pipeline_trace.
    + unfold closing_events.
      destruct (phase _); try discriminate. destruct (rs_rows _); discriminate.
Qed.

End PipelineFacts.

(** *** The scenarios of the specification, run on the sample world *)

Section Scenarios.
Import Js Pipeline PipelineSamples.

(** Scenario A: the first query is accepted; a categorical and a numeric
    column give a bar chart without any model call for the selection. *)
Example scenario_accepted :
  let p := fst (run_sample (stub_resources good_sql good_sql) bar_config) in
  status p = Success /\ generated_sql p = Some good_sql /\
  result_data p = Some sales_rows /\
  map vs_kind (visualization_specs p) = [Bar] /\
  option_map in_summary (insights p) = Some "# North leads with 12 units" /\
  option_map (@length _) (exploration_trail p) = Some 1%nat.
Proof. vm_compute. repeat split. Qed.

(** With the default configuration both bar and pie apply to two rows, the
    model is asked, does not answer, and the table is the fallback. *)
Example scenario_ambiguous_shape :
  map vs_kind (visualization_specs
                 (fst (run_sample (stub_resources good_sql good_sql) default_config)))
  = [Table].
Proof. vm_compute. reflexivity. Qed.

(** Scenario B: the first candidate fails in the engine, one correction
    gives the second candidate, which is accepted. *)
Example scenario_one_correction :
  let m := ev_sql (@evidence stub_templates (stub_resources bad_sql good_sql)
                     bar_config sample_query sales_schema sales_db) in
  map cq_attempt (history m) = [1%nat; 2%nat] /\
  map cq_sql (history m) = [bad_sql; good_sql] /\
  status (fst (run_sample (stub_resources bad_sql good_sql) bar_config)) = Success.
Proof. vm_compute. repeat split. Qed.

(** Scenario C: the three attempts fail. *)
Example scenario_exhausted :
  let out := run_sample (stub_resources bad_sql bad_sql) default_config in
  let m := ev_sql (@evidence stub_templates (stub_resources bad_sql bad_sql)
                     default_config sample_query sales_schema sales_db) in
  phase m = PhExhausted /\ map cq_attempt (history m) = [1%nat; 2%nat; 3%nat] /\
  status (fst out) = Partial /\ result_data (fst out) = None /\
  insights (fst out) = Some (degraded_insight SigNoQuery) /\
  option_map (@length _) (exploration_trail (fst out)) = Some 1%nat /\
  run_trace (snd out)
  = [EvPlanning; EvExploration; EvSqlGeneration; EvInsight SigNoQuery].
Proof. vm_compute. repeat split. Qed.

(** Scenario D: the accepted query returns no row.  The sample model does
    not answer the prompt that carries the no-rows signal, so the
    degraded default stands in. *)
Example scenario_zero_rows :
  let out := run_sample (stub_resources empty_sql empty_sql) default_config in
  status (fst out) = Success /\ result_data (fst out) = Some [] /\
  visualization_specs (fst out) = [] /\
  insights (fst out) = Some (degraded_insight SigNoRows).
Proof. vm_compute. repeat split. Qed.

(** Every provider is down: the run fails, with its plan and trail in
    place. *)
Example scenario_providers_down :
  let out := run_sample dead_resources default_config in
  status (fst out) = Failed /\
  analysis_plan (fst out) = Some (default_plan sample_query) /\
  exploration_trail (fst out) = Some [] /\
  insights (fst out) = None /\ generated_sql (fst out) = None /\
  run_calls (snd out) = 5%nat /\
  st_reached (run_store (snd out)) = [].
Proof. vm_compute. repeat split. Qed.

(** The planner answers with text that does not parse: the default plan is
    used, no probe is made, and the run still succeeds. *)
Example scenario_unparseable_plan :
  let out := run_sample garbled_resources bar_config in
  @planning_fails stub_templates garbled_resources bar_config sample_query sales_schema 0 /\
  analysis_plan (fst out) = Some (default_plan sample_query) /\
  exploration_trail (fst out) = Some [] /\
  status (fst out) = Success /\ generated_sql (fst out) = Some good_sql /\
  map vs_kind (visualization_specs (fst out)) = [Bar].
Proof. vm_compute. repeat split. Qed.

(** A statement the sample test does not take for a read query never
    reaches the engine: validation sends it to correction. *)
Example scenario_mutating_sql :
  let out := run_sample (stub_resources "DELETE FROM sales" good_sql) bar_config in
  let m := ev_sql (@evidence stub_templates (stub_resources "DELETE FROM sales" good_sql)
                     bar_config sample_query sales_schema sales_db) in
  map (fun c => map ve_kind (cq_validation_errors c)) (history m) = [[VMutatingKeyword]; []] /\
  st_reached (run_store (snd out)) = ["SELECT COUNT(*) FROM sales"; good_sql] /\
  st_db (run_store (snd out)) = sales_db.
Proof. vm_compute. repeat split. Qed.

Lemma planning_failure_default_witness :
  @planning_fails stub_templates dead_resources default_config sample_query sales_schema
    (run_calls (initial_state sales_db)) /\
  fst (@planning_stage stub_templates dead_resources default_config sample_query
         sales_schema (initial_state sales_db))
  = default_plan sample_query.
Proof.
  split; [exact I|].
  apply (@planning_failure_default stub_templates dead_resources default_config
           sample_query sales_schema (initial_state sales_db)).
  exact I.
Defined.

End Scenarios.
